(** * ProblemFinderNode: TF-IDF indexing and the Codeforces query service

    A shallow embedding of the search core of the backend:
    - [utils/tfidf.js]        (class [TFIDFVectorizer]),
    - [utils/similarity.js]   ([cosineSimilarity], [cosineSimilarityMatrix],
                               [pairwiseCosineSimilarity], [getTopSimilar]),
    - [utils/storage.js]      (loading the vectorizer and the matrix),
    - [utils/csv.js]          ([readCSV], [readProblemData]),
    - [platforms/codeforce/preprocess/tfidf.js] ([createDocumentCorpus]),
    - [platforms/codeforce/preprocess/cleaning.js] ([cleanText],
                               [cleanURL], [cleanProblemsData]),
    - [platforms/codeforce/codeforce.js] ([CodeforceModule]),
    - [platforms/atcoder/atcoder.js]     ([AtCoderModule]).

    The embedding has two layers.

    The exact layer (the modules [JSNumber] to [Cleaning]) is about what the
    program builds: vocabularies and their indices, the entries of vectors
    and matrices as expressions, the shape and the order of results, the
    way through the files.
    - A number is a [number]: an exact real, one of the two infinities, or
      NaN.  Arithmetic follows IEEE-754 on the special values and is exact
      on finite ones; the digits that a double computation yields are not
      the subject of this layer.
    - A string is a [string] whose characters are code units below 256.
    - A [Map] is an association list in insertion order with distinct keys,
      a [Set] a duplicate-free list in insertion order.
    - An exception is the [Throw] case of [outcome].

    The layer [Node] is the query path once more, on the values of the
    engine: a number is a binary64 double ([PrimFloat], with its rounding,
    overflow, underflow, signed zeros and NaN), a string a sequence of
    UTF-16 code units, and the result of an [async] function a promise,
    which an error event without a listener leaves unsettled.  The lowercase
    conversion, the tokenizer and the stopword list are parameters.  What
    depends on rounding, on the lowercase conversion or on the events of a
    stream is stated and proved on this layer. *)

From Stdlib Require Import List String Ascii Bool Arith ZArith Lia.
From Stdlib Require Import Reals Lra Permutation Sorted.
From Stdlib Require Floats Uint63.
Import ListNotations.

Set Implicit Arguments.
Set Warnings "-inexact-float".

Open Scope string_scope.
Open Scope nat_scope.
Open Scope list_scope.

(* ================================================================= *)
(** * JavaScript numbers *)

Module JSNumber.

Inductive number : Type :=
| Fin (x : R)
| PosInf
| NegInf
| NaN.

Definition Rleb (x y : R) : bool := if Rle_dec x y then true else false.
Definition Rltb (x y : R) : bool := if Rlt_dec x y then true else false.
Definition Reqb (x y : R) : bool := if Req_dec_T x y then true else false.

Definition of_nat (n : nat) : number := Fin (INR n).

Definition signed_inf (positive : bool) : number :=
  if positive then PosInf else NegInf.

Definition neg (a : number) : number :=
  match a with
  | Fin x => Fin (- x)
  | PosInf => NegInf
  | NegInf => PosInf
  | NaN => NaN
  end.

(** [a + b] *)
Definition add (a b : number) : number :=
  match a, b with
  | NaN, _ | _, NaN => NaN
  | Fin x, Fin y => Fin (x + y)
  | PosInf, NegInf | NegInf, PosInf => NaN
  | PosInf, _ | _, PosInf => PosInf
  | NegInf, _ | _, NegInf => NegInf
  end.

(** [a - b] *)
Definition sub (a b : number) : number := add a (neg b).

(** [a * b] *)
Definition mul (a b : number) : number :=
  match a, b with
  | NaN, _ | _, NaN => NaN
  | Fin x, Fin y => Fin (x * y)
  | Fin x, PosInf | PosInf, Fin x =>
      if Reqb x 0 then NaN else signed_inf (Rltb 0 x)
  | Fin x, NegInf | NegInf, Fin x =>
      if Reqb x 0 then NaN else signed_inf (Rltb x 0)
  | PosInf, PosInf | NegInf, NegInf => PosInf
  | PosInf, NegInf | NegInf, PosInf => NegInf
  end.

(** [a / b]: [0/0] is NaN and [x/0] an infinity, never an exception. *)
Definition div (a b : number) : number :=
  match a, b with
  | NaN, _ | _, NaN => NaN
  | Fin x, Fin y =>
      if Reqb y 0
      then (if Reqb x 0 then NaN else signed_inf (Rltb 0 x))
      else Fin (x / y)
  | Fin _, PosInf | Fin _, NegInf => Fin 0
  | PosInf, Fin y => signed_inf (Rleb 0 y)
  | NegInf, Fin y => signed_inf (Rltb y 0)
  | _, _ => NaN
  end.

(** [a >= b]: false as soon as one side is NaN. *)
Definition ge (a b : number) : bool :=
  match a, b with
  | NaN, _ | _, NaN => false
  | Fin x, Fin y => Rleb y x
  | PosInf, _ => true
  | _, NegInf => true
  | _, _ => false
  end.

(** [a > 0] and [a < 0] *)
Definition gt0 (a : number) : bool :=
  match a with
  | Fin x => Rltb 0 x
  | PosInf => true
  | _ => false
  end.

(** [a === 0] *)
Definition is_zero (a : number) : bool :=
  match a with
  | Fin x => Reqb x 0
  | _ => false
  end.

(** [a || 0] on a number: zero and NaN are falsy. *)
Definition or_zero (a : number) : number :=
  match a with
  | NaN => Fin 0
  | _ => a
  end.

(** [Math.sqrt] *)
Definition Math_sqrt (a : number) : number :=
  match a with
  | Fin x => if Rltb x 0 then NaN else Fin (sqrt x)
  | PosInf => PosInf
  | _ => NaN
  end.

(** [Math.log] *)
Definition Math_log (a : number) : number :=
  match a with
  | Fin x => if Rltb x 0 then NaN
             else if Reqb x 0 then NegInf else Fin (ln x)
  | PosInf => PosInf
  | _ => NaN
  end.

(** [Math.round]: the nearest integer, halves towards [+Infinity]. *)
Definition Math_round (a : number) : number :=
  match a with
  | Fin x => Fin (IZR (Int_part (x + / 2)))
  | _ => a
  end.

(** [Math.round(x * 1000) / 1000] *)
Definition round3 (a : number) : number :=
  div (Math_round (mul a (Fin 1000))) (Fin 1000).

(** [a > b]: false as soon as one side is NaN. *)
Definition gt (a b : number) : bool :=
  match a, b with
  | NaN, _ | _, NaN => false
  | Fin x, Fin y => Rltb y x
  | PosInf, PosInf => false
  | PosInf, _ => true
  | NegInf, _ => false
  | Fin _, NegInf => true
  | Fin _, PosInf => false
  end.

(** A byte count as a number. *)
Definition of_N (n : N) : number := Fin (IZR (Z.of_N n)).

End JSNumber.
Import JSNumber.

(* ================================================================= *)
(** * JavaScript strings *)

Module JSString.

Local Open Scope string_scope.

Definition code (c : ascii) : nat := nat_of_ascii c.

Definition between (lo hi n : nat) : bool :=
  ((lo <=? n)%nat && (n <=? hi)%nat)%bool.

(** Characters that [toLowerCase] changes: [A-Z] and the Latin-1 capitals
    [U+00C0 .. U+00DE] except the multiplication sign [U+00D7]. *)
Definition is_upper (c : ascii) : bool :=
  between 65 90 (code c)
  || (between 192 222 (code c) && negb (code c =? 215)%nat).

Definition lower_char (c : ascii) : ascii :=
  if is_upper c then ascii_of_nat (code c + 32) else c.

Fixpoint toLowerCase (s : string) : string :=
  match s with
  | EmptyString => EmptyString
  | String c s' => String (lower_char c) (toLowerCase s')
  end.

(** The class [\s]: TAB, LF, VT, FF, CR, space and no-break space. *)
Definition is_space (c : ascii) : bool :=
  between 9 13 (code c) || (code c =? 32)%nat || (code c =? 160)%nat.

(** The class [[a-zA-Z]] *)
Definition is_alpha (c : ascii) : bool :=
  between 97 122 (code c) || between 65 90 (code c).

Fixpoint all_chars (p : ascii -> bool) (s : string) : bool :=
  match s with
  | EmptyString => true
  | String c s' => p c && all_chars p s'
  end.

(** [/^[a-zA-Z]+$/.test(s)] *)
Definition alphabetic (s : string) : bool :=
  negb (String.eqb s "") && all_chars is_alpha s.

(** [s.split(/\s+/)]: the pieces between maximal runs of whitespace; a
    leading or trailing run leaves an empty piece, and the empty string
    splits into one empty piece. *)
Fixpoint split_from (piece : string) (in_run : bool) (s : string)
  : list string :=
  match s with
  | EmptyString => [piece]
  | String c s' =>
      if is_space c
      then (if in_run then split_from piece true s'
            else piece :: split_from "" true s')
      else split_from (piece ++ String c "") false s'
  end.

Definition split_ws (s : string) : list string := split_from "" false s.

(** [s.includes(sub)] *)
Fixpoint includes (s sub : string) : bool :=
  prefix sub s
  || match s with
     | EmptyString => false
     | String _ s' => includes s' sub
     end.

(** [s.substring(0, e)] for a non-negative [e] *)
Definition substring0 (e : nat) (s : string) : string := substring 0 e s.

(** [Array(n).fill(s).join('')] *)
Fixpoint fill_join (n : nat) (s : string) : string :=
  match n with
  | O => ""
  | S n' => s ++ fill_join n' s
  end.

(** [s.trimStart()] and [s.trimEnd()]; [trim] removes the characters of
    the class [\s] at both ends. *)
Fixpoint trimStart (s : string) : string :=
  match s with
  | EmptyString => EmptyString
  | String c s' => if is_space c then trimStart s' else s
  end.

Fixpoint trimEnd (s : string) : string :=
  match s with
  | EmptyString => EmptyString
  | String c s' =>
      match trimEnd s' with
      | EmptyString => if is_space c then EmptyString else String c ""
      | rest => String c rest
      end
  end.

Definition trim (s : string) : string := trimEnd (trimStart s).

(** [s.replace(/c/g, ' ')] for one character [c] *)
Fixpoint replace_char (c : ascii) (s : string) : string :=
  match s with
  | EmptyString => EmptyString
  | String x s' =>
      String (if Ascii.eqb x c then " "%char else x) (replace_char c s')
  end.

(** [s.replace(/\s+/g, ' ')]: every maximal run of whitespace becomes one
    space. *)
Fixpoint collapse_from (in_run : bool) (s : string) : string :=
  match s with
  | EmptyString => EmptyString
  | String c s' =>
      if is_space c
      then (if in_run then collapse_from true s'
            else String " " (collapse_from true s'))
      else String c (collapse_from false s')
  end.

Definition collapse_spaces (s : string) : string := collapse_from false s.

End JSString.
Import JSString.

(* ================================================================= *)
(** * Maps, sets and arrays *)

Module JSMap.

Definition Map (V : Type) : Type := list (string * V).

Fixpoint Map_get (V : Type) (m : Map V) (k : string) : option V :=
  match m with
  | [] => None
  | (k', v) :: m' => if String.eqb k' k then Some v else Map_get m' k
  end.

(** [m.set(k, v)]: an existing key keeps its place, a new one goes last. *)
Fixpoint Map_set (V : Type) (k : string) (v : V) (m : Map V) : Map V :=
  match m with
  | [] => [(k, v)]
  | (k', v') :: m' =>
      if String.eqb k' k then (k', v) :: m'
      else (k', v') :: Map_set k v m'
  end.

Definition Map_size (V : Type) (m : Map V) : nat := List.length m.

Definition Map_keys (V : Type) (m : Map V) : list string := map fst m.

(** [Array.from(m.entries())] *)
Definition Map_entries (V : Type) (m : Map V) : list (string * V) := m.

(** [new Map(entries)] *)
Definition Map_of_entries (V : Type) (l : list (string * V)) : Map V :=
  fold_left (fun m kv => Map_set (fst kv) (snd kv) m) l [].

(** [m.get(k) || 0] on a map of counters *)
Definition count_of (m : Map nat) (k : string) : nat :=
  match Map_get m k with
  | Some c => c
  | None => 0
  end.

Definition JSSet : Type := list string.

Definition Set_has (s : JSSet) (k : string) : bool :=
  existsb (String.eqb k) s.

Definition Set_add (k : string) (s : JSSet) : JSSet :=
  if Set_has s k then s else s ++ [k].

(** [new Set(array)] *)
Definition Set_of_array (l : list string) : JSSet :=
  fold_left (fun s k => Set_add k s) l [].

(** [a[i] = x]: writing past the end extends the array; the holes left
    behind read as [undefined], which arithmetic turns into NaN. *)
Definition array_set (a : list number) (i : nat) (x : number)
  : list number :=
  if i <? List.length a
  then firstn i a ++ x :: skipn (S i) a
  else a ++ repeat NaN (i - List.length a) ++ [x].

End JSMap.
Import JSMap.

(* ================================================================= *)
(** * Exceptions *)

Inductive outcome (A : Type) : Type :=
| Return (a : A)
| Throw (message : string).
Arguments Return {A} a.
Arguments Throw {A} message.

Definition bind (A B : Type) (m : outcome A) (f : A -> outcome B)
  : outcome B :=
  match m with
  | Return a => f a
  | Throw e => Throw e
  end.

Notation "x <- m ;; k" := (bind m (fun x => k))
  (at level 61, m at next level, right associativity).

(** [try { body } catch (error) { handler }] *)
Definition try_catch (A : Type) (body : outcome A)
  (handler : string -> outcome A) : outcome A :=
  match body with
  | Return a => Return a
  | Throw e => handler e
  end.

Fixpoint mapM (A B : Type) (f : A -> outcome B) (l : list A)
  : outcome (list B) :=
  match l with
  | [] => Return []
  | x :: l' => y <- f x ;; ys <- mapM f l' ;; Return (y :: ys)
  end.

(** [array.sort(compare)]: a stable sort; [compare x y > 0] puts [y] first,
    and a NaN answer counts as [+0].  The comparators of this program are
    consistent on the numbers they meet (no NaN survives the filters before
    a sort), so the order does not depend on the sorting algorithm; it is
    written here as an insertion sort. *)
Fixpoint sort_insert (A : Type) (compare : A -> A -> number) (x : A)
  (sorted : list A) : list A :=
  match sorted with
  | [] => [x]
  | y :: rest =>
      if gt0 (compare x y) then y :: sort_insert compare x rest
      else x :: y :: rest
  end.

Fixpoint Array_sort (A : Type) (compare : A -> A -> number) (l : list A)
  : list A :=
  match l with
  | [] => []
  | x :: l' => sort_insert compare x (Array_sort compare l')
  end.

(** Values of a dynamically typed argument. *)
Inductive value : Type :=
| VUndefined
| VNull
| VBoolean (b : bool)
| VNumber (n : number)
| VString (s : string)
| VObject.

(* ================================================================= *)
(** * The [ml-matrix] library, as far as the program uses it *)

Module MLMatrix.

Record Matrix : Type := mkMatrix
  { rows : nat; columns : nat; data : list (list number) }.

(** [new Matrix(arrayOfRows)]: every row must be as long as the first. *)
Definition new_Matrix (a : list (list number)) : outcome Matrix :=
  let nColumns := match a with [] => 0 | r :: _ => List.length r end in
  if forallb (fun r => List.length r =? nColumns) a
  then Return (mkMatrix (List.length a) nColumns a)
  else Throw "Inconsistent array dimensions".

(** [m.getRow(i)] *)
Definition getRow (m : Matrix) (i : nat) : outcome (list number) :=
  if i <? rows m
  then Return (nth i (data m) [])
  else Throw "Row index out of range".

(** [new Matrix([[0]])], the stand-in for a matrix file too large to
    load. *)
Definition placeholder : Matrix := mkMatrix 1 1 [[Fin 0]].

(** [a[i] = x] on a row or on the array of rows of a matrix: a write past
    the end is not made. *)
Fixpoint write_at (A : Type) (l : list A) (i : nat) (x : A) : list A :=
  match l, i with
  | [], _ => []
  | _ :: rest, O => x :: rest
  | y :: rest, S i' => y :: write_at rest i' x
  end.

(** [new Matrix(nRows, nColumns)]: filled with zeros.  (Versions of the
    library before 6.5 reject a size of 0.) *)
Definition zeros (nRows nColumns : nat) : Matrix :=
  mkMatrix nRows nColumns (repeat (repeat (Fin 0) nColumns) nRows).

(** [m.get(i, j)]: [this.data[i][j]] *)
Definition get (m : Matrix) (rowIndex columnIndex : nat) : option number :=
  match nth_error (data m) rowIndex with
  | Some row => nth_error row columnIndex
  | None => None
  end.

(** [m.set(i, j, value)]: [this.data[i][j] = value] *)
Definition set (m : Matrix) (rowIndex columnIndex : nat) (value : number)
  : outcome Matrix :=
  match nth_error (data m) rowIndex with
  | Some row =>
      Return (mkMatrix (rows m) (columns m)
                       (write_at (data m) rowIndex
                                 (write_at row columnIndex value)))
  | None => Throw "Cannot set properties of undefined"
  end.

End MLMatrix.
Import MLMatrix.

(* ================================================================= *)
(** * utils/similarity.js *)

Module Similarity.

(** One round of the [for] loop of [cosineSimilarity]. *)
Definition accumulate (acc : number * number * number)
  (xy : number * number) : number * number * number :=
  let '(dotProduct, normA, normB) := acc in
  let '(x, y) := xy in
  (add dotProduct (mul x y), add normA (mul x x), add normB (mul y y)).

(** Both arguments are arrays here: every caller passes rows obtained by
    [getRow], so the [to1DArray] conversion of a Matrix argument is not
    needed. *)
Definition cosineSimilarity (a b : list number) : outcome number :=
  if negb (List.length a =? List.length b)
  then Throw "Vectors must have the same length"
  else
    let '(dotProduct, normA, normB) :=
      fold_left accumulate (combine a b) (Fin 0, Fin 0, Fin 0) in
    let normA := Math_sqrt normA in
    let normB := Math_sqrt normB in
    if is_zero normA || is_zero normB
    then Return (Fin 0)
    else Return (div dotProduct (mul normA normB)).

(** The second argument of [cosineSimilarityMatrix] is an array or a
    one-row matrix. *)
Inductive queryArg : Type :=
| AsArray (v : list number)
| AsMatrix (m : Matrix).

Definition cosineSimilarityMatrix (tfidfMatrix : Matrix)
  (queryVector : queryArg) : outcome (list number) :=
  query <- match queryVector with
           | AsArray v => Return v
           | AsMatrix m => getRow m 0
           end ;;
  mapM (fun i => docVector <- getRow tfidfMatrix i ;;
                 cosineSimilarity docVector query)
       (seq 0 (rows tfidfMatrix)).

Record item : Type := mkItem { index : nat; score : number }.

(** [similarities.map((score, index) => ({ index, score }))] *)
Fixpoint with_index (i : nat) (similarities : list number) : list item :=
  match similarities with
  | [] => []
  | s :: rest => mkItem i s :: with_index (S i) rest
  end.

(** [(a, b) => b.score - a.score] *)
Definition by_score (a b : item) : number := sub (score b) (score a).

Definition getTopSimilar (similarities : list number) (k : Z)
  (threshold : number) : list item :=
  let results :=
    Array_sort by_score
      (filter (fun it => ge (score it) threshold)
              (with_index 0 similarities)) in
  if ((0 <? k)%Z && (k <? Z.of_nat (List.length results))%Z)%bool
  then firstn (Z.to_nat k) results
  else results.

(** The body of the inner [for] loop of [pairwiseCosineSimilarity]. *)
Definition pairwise_cell (tfidfMatrix : Matrix) (i : nat)
  (acc : outcome Matrix) (j : nat) : outcome Matrix :=
  similarityMatrix <- acc ;;
  if i =? j
  then set similarityMatrix i j (Fin 1)
  else
    vectorA <- getRow tfidfMatrix i ;;
    vectorB <- getRow tfidfMatrix j ;;
    similarity <- cosineSimilarity vectorA vectorB ;;
    set similarityMatrix i j similarity.

Definition pairwiseCosineSimilarity (tfidfMatrix : Matrix)
  : outcome Matrix :=
  let numDocs := rows tfidfMatrix in
  let similarityMatrix := zeros numDocs numDocs in
  fold_left
    (fun acc i =>
       fold_left (pairwise_cell tfidfMatrix i) (seq 0 numDocs) acc)
    (seq 0 numDocs) (Return similarityMatrix).

End Similarity.
Import Similarity.

(* ================================================================= *)
(** * utils/tfidf.js *)

Module TFIDF.

Record TFIDFVectorizer : Type := mkVectorizer
  { vocabulary : Map nat;
    idf : Map number;
    documents : list string;
    fitted : bool }.

(** [new TFIDFVectorizer()] *)
Definition new_TFIDFVectorizer : TFIDFVectorizer :=
  mkVectorizer [] [] [] false.

(** The object that [serialize] returns and [deserialize] reads. *)
Record Serialized : Type := mkSerialized
  { s_vocabulary : list (string * nat);
    s_idf : list (string * number);
    s_fitted : bool }.

Definition serialize (this : TFIDFVectorizer) : Serialized :=
  mkSerialized (Map_entries (vocabulary this)) (Map_entries (idf this))
               (fitted this).

Definition deserialize (d : Serialized) : TFIDFVectorizer :=
  mkVectorizer (Map_of_entries (s_vocabulary d)) (Map_of_entries (s_idf d))
               (documents new_TFIDFVectorizer) (s_fitted d).

(** [Array.from(this.vocabulary.keys())] *)
Definition getFeatureNames (this : TFIDFVectorizer) : list string :=
  Map_keys (vocabulary this).

Section Vectorizer.

(** The two npm packages the class uses: [tokenize] is
    [new natural.WordTokenizer().tokenize], [stopword_eng] the list
    [stopword.eng] (absent in some versions of the package). *)
Variable tokenize : string -> option (list string).
Variable stopword_eng : option (list string).

Definition is_stopword (token : string) : bool :=
  match stopword_eng with
  | Some eng => existsb (String.eqb token) eng
  | None => false
  end.

Definition keep_token (token : string) : bool :=
  alphabetic token && (1 <? String.length token)
  && negb (is_stopword token).

Definition preprocessText (text : string) : list string :=
  if String.eqb text "" then []
  else match tokenize (toLowerCase text) with
       | None => []
       | Some tokens => filter keep_token tokens
       end.

(** The first [forEach] of [buildVocabulary]: the set of all tokens. *)
Definition collect_tokens (docs : list string) : JSSet :=
  fold_left
    (fun vocabSet doc =>
       fold_left (fun s token => Set_add token s) (preprocessText doc)
                 vocabSet)
    docs [].

(** The second one: [this.vocabulary.set(token, index++)]. *)
Definition assign_indices (vocabSet : JSSet) (vocab : Map nat)
  : Map nat * nat :=
  fold_left
    (fun acc token => (Map_set token (snd acc) (fst acc), S (snd acc)))
    vocabSet (vocab, 0).

Definition buildVocabulary (this : TFIDFVectorizer)
  (docs : list string) : TFIDFVectorizer :=
  let vocabSet := collect_tokens docs in
  mkVectorizer (fst (assign_indices vocabSet (vocabulary this)))
               (idf this) (documents this) (fitted this).

(** [tf.set(token, (tf.get(token) || 0) + 1)] *)
Definition bump (m : Map nat) (token : string) : Map nat :=
  Map_set token (count_of m token + 1) m.

(** The counts are kept as natural numbers until the second pass divides
    each of them by the number of tokens. *)
Definition calculateTF (tokens : list string) : Map number :=
  let totalTokens := List.length tokens in
  let tf := fold_left bump tokens [] in
  map (fun entry =>
         (fst entry, div (of_nat (snd entry)) (of_nat totalTokens)))
      tf.

(** The document counts of [calculateIDF]. *)
Definition count_documents (docs : list string) : Map nat :=
  fold_left
    (fun termDocCount doc =>
       fold_left bump (Set_of_array (preprocessText doc)) termDocCount)
    docs [].

Definition idf_weight (docCount docFreq : nat) : number :=
  if 0 <? docFreq
  then Math_log (div (of_nat docCount) (of_nat docFreq))
  else Fin 0.

Definition calculateIDF (this : TFIDFVectorizer) (docs : list string)
  : TFIDFVectorizer :=
  let docCount := List.length docs in
  let termDocCount := count_documents docs in
  let idf' :=
    fold_left
      (fun table entry =>
         let token := fst entry in
         let docFreq := count_of termDocCount token in
         Map_set token (idf_weight docCount docFreq) table)
      (vocabulary this) (idf this) in
  mkVectorizer (vocabulary this) idf' (documents this) (fitted this).

(** [this.idf.get(token) || 0] *)
Definition idf_of (this : TFIDFVectorizer) (token : string) : number :=
  match Map_get (idf this) token with
  | Some w => or_zero w
  | None => Fin 0
  end.

Definition documentToVector (this : TFIDFVectorizer) (doc : string)
  : list number :=
  let tokens := preprocessText doc in
  let tf := calculateTF tokens in
  let vector := repeat (Fin 0) (Map_size (vocabulary this)) in
  fold_left
    (fun vector entry =>
       let token := fst entry in
       let tfValue := snd entry in
       let idfValue := idf_of this token in
       match Map_get (vocabulary this) token with
       | Some vocabIndex =>
           array_set vector vocabIndex (mul tfValue idfValue)
       | None => vector
       end)
    tf vector.

Definition fit (this : TFIDFVectorizer) (docs : list string)
  : TFIDFVectorizer :=
  let this := mkVectorizer (vocabulary this) (idf this) docs
                           (fitted this) in
  let this := buildVocabulary this docs in
  let this := calculateIDF this docs in
  mkVectorizer (vocabulary this) (idf this) (documents this) true.

Definition transform (this : TFIDFVectorizer) (docs : list string)
  : outcome Matrix :=
  if negb (fitted this)
  then Throw "Vectorizer must be fitted before transform"
  else new_Matrix (map (documentToVector this) docs).

Definition fitTransform (this : TFIDFVectorizer) (docs : list string)
  : TFIDFVectorizer * outcome Matrix :=
  let this := fit this docs in
  (this, transform this docs).

End Vectorizer.

End TFIDF.
Import TFIDF.

(* ================================================================= *)
(** * platforms/codeforce/preprocess/tfidf.js *)

Module Corpus.

(** [a[i] || ''] on an array of strings *)
Definition string_at (a : list string) (i : nat) : string :=
  match nth_error a i with
  | Some s => s
  | None => ""
  end.

(** The body of the [for] loop. *)
Definition document_at (names texts : list string) (i : nat) : string :=
  let name := string_at names i in
  let text := string_at texts i in
  let weightedName := fill_join 4 (name ++ " ")%string in
  (weightedName ++ toLowerCase text)%string.

Definition createDocumentCorpus (names texts : list string)
  : list string :=
  fold_left (fun documents i => documents ++ [document_at names texts i])
            (seq 0 (List.length names)) [].

End Corpus.
Import Corpus.

(* ================================================================= *)
(** * platforms/codeforce/codeforce.js *)

Module Codeforce.

(** An entry of a result list.  A field that the object does not have, or
    that holds [undefined], is [None]: the primary path sets no [index]. *)
Record entry : Type := mkEntry
  { name : option string;
    url : option string;
    entry_score : number;
    entry_index : option nat }.

Record CodeforceModule : Type := mkModule
  { vectorizer : option TFIDFVectorizer;
    tfidfMatrix : option Matrix;
    problemNames : option (list string);
    problemUrls : option (list string);
    initialized : bool }.

(** [new CodeforceModule()] *)
Definition new_CodeforceModule : CodeforceModule :=
  mkModule None None None None false.

(** What the storage layer answers during [initialize], when every one of
    its promises settles: the [allReady] flag of [checkPlatformData], the
    pair of [loadPlatformData] and the [names] and [urls] of
    [readProblemData].  (The read that settles nothing is in
    [Node.readCSV].) *)
Record Storage : Type := mkStorage
  { checkPlatformData : outcome bool;
    loadPlatformData : outcome (TFIDFVectorizer * Matrix);
    readProblemData : outcome (list string * list string) }.

Definition default_threshold : number := Fin 0.01.

(** The parameter [threshold = 0.01]: an omitted argument takes the
    default. *)
Definition threshold_or_default (threshold : option number) : number :=
  match threshold with
  | Some t => t
  | None => default_threshold
  end.

(** Reading a property of [null] is a [TypeError]. *)
Definition deref (A : Type) (field : option A) : outcome A :=
  match field with
  | Some a => Return a
  | None => Throw "Cannot read properties of null"
  end.

Definition initialize (disk : Storage) (this : CodeforceModule)
  : outcome unit * CodeforceModule :=
  if initialized this then (Return tt, this)
  else
    match checkPlatformData disk with
    | Throw e => (Throw e, this)
    | Return false =>
        (Throw "Codeforces preprocessed data not found. Please run preprocessing first.",
         this)
    | Return true =>
        match loadPlatformData disk with
        | Throw e => (Throw e, this)
        | Return (v, m) =>
            let this := mkModule (Some v) (Some m) (problemNames this)
                                 (problemUrls this) (initialized this) in
            match readProblemData disk with
            | Throw e => (Throw e, this)
            | Return (ns, us) =>
                (Return tt,
                 mkModule (vectorizer this) (tfidfMatrix this) (Some ns)
                          (Some us) true)
            end
        end
    end.

(** [term.substring(0, Math.max(3, term.length - 2))] *)
Definition shortened (term : string) : string :=
  substring0 (Nat.max 3 (String.length term - 2)) term.

(** The body of [queryTerms.forEach]. *)
Definition add_term (problemName : string) (score : number)
  (term : string) : number :=
  let score :=
    if includes problemName term then add score (Fin 0.5) else score in
  if includes problemName (shortened term)
  then add score (Fin 0.2) else score.

Definition name_score (queryTerms : list string) (problemName : string)
  : number :=
  let score := fold_left (add_term problemName) queryTerms (Fin 0) in
  div score (of_nat (List.length queryTerms)).

(** One round of the [for] loop of [fallbackSearch]. *)
Definition visit (this : CodeforceModule) (names : list string)
  (queryTerms : list string) (threshold : number)
  (acc : outcome (list entry)) (i : nat) : outcome (list entry) :=
  results <- acc ;;
  rawName <- deref (nth_error names i) ;;
  let problemName := toLowerCase rawName in
  let score := name_score queryTerms problemName in
  if ge score threshold
  then urls <- deref (problemUrls this) ;;
       Return (results ++ [mkEntry (nth_error names i) (nth_error urls i)
                                   (round3 score) (Some i)])
  else Return results.

(** [(a, b) => b.score - a.score] *)
Definition by_entry_score (a b : entry) : number :=
  sub (entry_score b) (entry_score a).

Definition fallbackSearch (this : CodeforceModule) (queryText : string)
  (threshold : number) : outcome (list entry) :=
  try_catch
    (match problemNames this with
     | None => Return []
     | Some names =>
         if List.length names =? 0 then Return []
         else
           let query := toLowerCase queryText in
           let queryTerms :=
             filter (fun term => 2 <? String.length term)
                    (split_ws query) in
           results <- fold_left (visit this names queryTerms threshold)
                                (seq 0 (List.length names)) (Return []) ;;
           let results := Array_sort by_entry_score results in
           let limitedResults := firstn 50 results in
           Return limitedResults
     end)
    (fun _ => Return []).

Section Query.

Variable tokenize : string -> option (list string).
Variable stopword_eng : option (list string).

(** [result => ({ name, url, score })], the callback of
    [topResults.map]. *)
Definition format (this : CodeforceModule) (result : item)
  : outcome entry :=
  names <- deref (problemNames this) ;;
  urls <- deref (problemUrls this) ;;
  Return (mkEntry (nth_error names (index result))
                  (nth_error urls (index result))
                  (round3 (score result)) None).

(** The [try] block of [query], after the lazy initialisation. *)
Definition answer (this : CodeforceModule) (queryText : value)
  (threshold : number) : outcome (list entry) :=
  match queryText with
  | VString text =>
      if String.eqb text "" then Return []
      else
        matrix <- deref (tfidfMatrix this) ;;
        if ((rows matrix <=? 1) && (columns matrix <=? 1))%bool
        then fallbackSearch this text threshold
        else
          v <- deref (vectorizer this) ;;
          queryVector <-
            transform tokenize stopword_eng v [toLowerCase text] ;;
          similarities <-
            cosineSimilarityMatrix matrix (AsMatrix queryVector) ;;
          let topResults :=
            getTopSimilar similarities (-1) threshold in
          mapM (format this) topResults
  | _ => Return []
  end.

(** [query(queryText, threshold = 0.01)]: the answer and the module
    afterwards. *)
Definition query (disk : Storage) (this : CodeforceModule)
  (queryText : value) (threshold : option number)
  : outcome (list entry) * CodeforceModule :=
  let threshold := threshold_or_default threshold in
  let '(ready, this) :=
    if initialized this then (Return tt, this)
    else initialize disk this in
  (try_catch (_ <- ready ;; answer this queryText threshold)
             (fun _ => Return []),
   this).

End Query.

End Codeforce.
Import Codeforce.

(* ================================================================= *)
(** * platforms/atcoder/atcoder.js *)

Module Atcoder.

(** [AtCoderModule] has the fields of [CodeforceModule] and is given the
    same record. *)
Abbreviation AtCoderModule := CodeforceModule (only parsing).

Definition initialize (disk : Storage) (this : AtCoderModule)
  : outcome unit * AtCoderModule :=
  if initialized this then (Return tt, this)
  else
    match checkPlatformData disk with
    | Throw e => (Throw e, this)
    | Return false =>
        (Throw "AtCoder preprocessed data not found. Please run preprocessing first.",
         this)
    | Return true =>
        match loadPlatformData disk with
        | Throw e => (Throw e, this)
        | Return (v, m) =>
            let this := mkModule (Some v) (Some m) (problemNames this)
                                 (problemUrls this) (initialized this) in
            match readProblemData disk with
            | Throw e => (Throw e, this)
            | Return (ns, us) =>
                (Return tt,
                 mkModule (vectorizer this) (tfidfMatrix this) (Some ns)
                          (Some us) true)
            end
        end
    end.

Section Query.

Variable tokenize : string -> option (list string).
Variable stopword_eng : option (list string).

(** [result => ({ name, url, score })], the callback of
    [topResults.map]. *)
Definition format (this : AtCoderModule) (result : item)
  : outcome entry :=
  names <- deref (problemNames this) ;;
  urls <- deref (problemUrls this) ;;
  Return (mkEntry (nth_error names (index result))
                  (nth_error urls (index result))
                  (round3 (score result)) None).

(** The [try] block of [query], after the lazy initialisation.  There is
    no test on the shape of the matrix and no fallback search: the field
    [tfidfMatrix] is first read inside [cosineSimilarityMatrix], after the
    query has been transformed. *)
Definition answer (this : AtCoderModule) (queryText : value)
  (threshold : number) : outcome (list entry) :=
  match queryText with
  | VString text =>
      if String.eqb text "" then Return []
      else
        v <- deref (vectorizer this) ;;
        queryVector <-
          transform tokenize stopword_eng v [toLowerCase text] ;;
        matrix <- deref (tfidfMatrix this) ;;
        similarities <-
          cosineSimilarityMatrix matrix (AsMatrix queryVector) ;;
        let topResults :=
          getTopSimilar similarities (-1) threshold in
        mapM (format this) topResults
  | _ => Return []
  end.

(** [query(queryText, threshold = 0.01)]: the answer and the module
    afterwards. *)
Definition query (disk : Storage) (this : AtCoderModule)
  (queryText : value) (threshold : option number)
  : outcome (list entry) * AtCoderModule :=
  let threshold := threshold_or_default threshold in
  let '(ready, this) :=
    if initialized this then (Return tt, this)
    else initialize disk this in
  (try_catch (_ <- ready ;; answer this queryText threshold)
             (fun _ => Return []),
   this).

End Query.

End Atcoder.

(* ================================================================= *)
(** * Files, as the program sees them *)

Module FS.

(** What the file system answers about one path: whether the path exists
    ([fs.pathExists], [fs.existsSync]), the [size] field of [fs.stat] in
    bytes, and the parsed content ([fs.readJson], or the rows that
    [csv-parser] emits). *)
Record File (A : Type) : Type := mkFile
  { path : string;
    pathExists : bool;
    stat_size : outcome N;
    parsed : outcome A }.

End FS.
Import FS.

(* ================================================================= *)
(** * utils/csv.js *)

Module CSV.

(** A parsed row: an object with one string per column header. *)
Definition Row : Type := Map string.

(** [a || b], where [a] is a string or [undefined] and [b] a string. *)
Definition or_string (a : option string) (b : string) : string :=
  match a with
  | Some s => if String.eqb s "" then b else s
  | None => b
  end.

(** [readCSV], as far as its promise settles: rejected for a missing file,
    else resolved or rejected by the parser.  (An error of the file stream
    itself settles nothing; see [Node.readCSV].) *)
Definition readCSV (file : File (list Row)) : outcome (list Row) :=
  if negb (pathExists file)
  then Throw ("CSV file not found: " ++ path file)
  else parsed file.

Record ProblemData : Type := mkProblemData
  { names : list string;
    urls : list string;
    texts : list string;
    tags : list string;
    difficulties : list string;
    length : nat }.

(** [row.Name || row.name || ''] and the like. *)
Definition row_name (row : Row) : string :=
  or_string (Map_get row "Name") (or_string (Map_get row "name") "").

Definition row_url (row : Row) : string :=
  or_string (Map_get row "URL")
            (or_string (Map_get row "url")
                       (or_string (Map_get row "Url") "")).

Definition row_text (row : Row) : string :=
  or_string (Map_get row "Text")
            (or_string (Map_get row "text")
                       (or_string (Map_get row "description") "")).

Definition row_tag (row : Row) : string :=
  or_string (Map_get row "Tag")
            (or_string (Map_get row "tag")
                       (or_string (Map_get row "tags") "")).

Definition row_difficulty (row : Row) : string :=
  or_string (Map_get row "Difficulty")
            (or_string (Map_get row "difficulty") "").

(** The callback of [data.forEach]: one [push] on each of the five
    arrays. *)
Definition push_row (acc : ProblemData) (row : Row) : ProblemData :=
  mkProblemData (names acc ++ [row_name row])
                (urls acc ++ [row_url row])
                (texts acc ++ [row_text row])
                (tags acc ++ [row_tag row])
                (difficulties acc ++ [row_difficulty row])
                (length acc).

Definition readProblemData (file : File (list Row))
  : outcome ProblemData :=
  try_catch
    (data <- readCSV file ;;
     let acc := fold_left push_row data (mkProblemData [] [] [] [] [] 0) in
     Return (mkProblemData (names acc) (urls acc) (texts acc) (tags acc)
                           (difficulties acc) (List.length data)))
    (fun error => Throw error).

End CSV.

(* ================================================================= *)
(** * utils/storage.js *)

Module StorageJS.

(** [loadVectorizer]: the file holds the JSON that [serialize] wrote. *)
Definition loadVectorizer (file : File Serialized)
  : outcome TFIDFVectorizer :=
  try_catch
    (if negb (pathExists file)
     then Throw ("Vectorizer file not found: " ++ path file)
     else data <- parsed file ;;
          Return (deserialize data))
    (fun error => Throw error).

(** [loadMatrix]: the parsed content is the [data] field of the JSON, an
    array of rows of numbers.  A file above 1.8 GB is not read. *)
Definition loadMatrix (file : File (list (list number)))
  : outcome Matrix :=
  try_catch
    (if negb (pathExists file)
     then Throw ("Matrix file not found: " ++ path file)
     else size <- stat_size file ;;
          let fileSizeGB := div (of_N size) (Fin (1024 * 1024 * 1024)) in
          if gt fileSizeGB (Fin 1.8)
          then new_Matrix [[Fin 0]]
          else data <- parsed file ;;
               new_Matrix data)
    (fun error => Throw error).

(** [Promise.all] of the two loads: both results, or the error of a load
    that failed (the vectorizer's when both fail). *)
Definition loadPlatformData (vectorizerFile : File Serialized)
  (matrixFile : File (list (list number)))
  : outcome (TFIDFVectorizer * Matrix) :=
  match loadVectorizer vectorizerFile, loadMatrix matrixFile with
  | Return vectorizer, Return matrix => Return (vectorizer, matrix)
  | Throw error, _ => Throw error
  | _, Throw error => Throw error
  end.

Record DataStatus : Type := mkDataStatus
  { vectorizer_exists : bool;
    matrix_exists : bool;
    csv_exists : bool;
    allReady : bool }.

Definition checkPlatformData (vectorizerFile : File Serialized)
  (matrixFile : File (list (list number))) (csvFile : File (list CSV.Row))
  : DataStatus :=
  let vectorizerExists := pathExists vectorizerFile in
  let matrixExists := pathExists matrixFile in
  let csvExists := pathExists csvFile in
  mkDataStatus vectorizerExists matrixExists csvExists
               (vectorizerExists && matrixExists && csvExists).

(** The three files of a platform directory, as [initialize] reads them:
    [vectorizer.json], [matrix.json] and [problem.csv]. *)
Definition platform (vectorizerFile : File Serialized)
  (matrixFile : File (list (list number))) (csvFile : File (list CSV.Row))
  : Storage :=
  mkStorage
    (Return (allReady (checkPlatformData vectorizerFile matrixFile csvFile)))
    (loadPlatformData vectorizerFile matrixFile)
    (problemData <- CSV.readProblemData csvFile ;;
     Return (CSV.names problemData, CSV.urls problemData)).

End StorageJS.

(* ================================================================= *)
(** * platforms/codeforce/preprocess/cleaning.js *)

Module Cleaning.

Definition cleanText (text : value) : string :=
  match text with
  | VString text =>
      if String.eqb text "" then ""
      else
        trim (collapse_spaces
                (replace_char "$"
                   (replace_char "-"
                      (replace_char "010" (trim text)))))
  | _ => ""
  end.

Definition cleanURL (url : value) : string :=
  match url with
  | VString url => if String.eqb url "" then "" else trim url
  | _ => ""
  end.

(** The object literal of [cleanProblemsData]: the five fields, cleaned;
    a field that the problem lacks counts as the empty string. *)
Definition cleanProblem (problem : CSV.Row) : CSV.Row :=
  [("Name", cleanText (VString (CSV.or_string (Map_get problem "Name") "")));
   ("URL", cleanURL (VString (CSV.or_string (Map_get problem "URL") "")));
   ("Tag", cleanText (VString (CSV.or_string (Map_get problem "Tag") "")));
   ("Difficulty",
    cleanText (VString (CSV.or_string (Map_get problem "Difficulty") "")));
   ("Text", cleanText (VString (CSV.or_string (Map_get problem "Text") "")))].

(** [problems.map(...)]; the callback cannot fail on rows of strings, so
    its [catch] branch is never taken. *)
Definition cleanProblemsData (problems : list CSV.Row) : list CSV.Row :=
  map cleanProblem problems.

End Cleaning.

(* ================================================================= *)
(** * The documented behaviour, stated independently of the code *)

Module Stated.

(** The terms of a query: its whitespace-separated pieces of more than two
    characters. *)
Definition terms (q : string) : list string :=
  filter (fun term => 2 <? String.length term) (split_ws q).

(** The number of terms that satisfy [p]. *)
Definition hits (p : string -> bool) (ts : list string) : nat :=
  List.length (filter p ts).

(** The substring-overlap score of a problem name: 0.5 for each term that
    occurs in the lowercased name, 0.2 for each term whose shortened form
    occurs in it, the sum divided by the number of terms. *)
Definition overlap (ts : list string) (problem : string) : number :=
  let lowered := toLowerCase problem in
  div (Fin (0.5 * INR (hits (includes lowered) ts)
            + 0.2 * INR (hits (fun t => includes lowered (shortened t))
                              ts)))
      (of_nat (List.length ts)).

(** The problems paired with their positions. *)
Fixpoint numbered (i : nat) (problems : list string)
  : list (nat * string) :=
  match problems with
  | [] => []
  | p :: rest => (i, p) :: numbered (S i) rest
  end.

(** The entries that reach the threshold, in the order of the problems. *)
Definition kept (ts : list string) (problems urls : list string)
  (threshold : number) : list entry :=
  map (fun ip => mkEntry (Some (snd ip)) (nth_error urls (fst ip))
                         (round3 (overlap ts (snd ip))) (Some (fst ip)))
      (filter (fun ip => ge (overlap ts (snd ip)) threshold)
              (numbered 0 problems)).

(** [a] is listed no later than [b]: its score is at least as high. *)
Definition not_below (a b : entry) : Prop :=
  ge (entry_score a) (entry_score b) = true.

(** The document frequency of a term: the number of documents whose
    token list contains it. *)
Definition document_frequency (tokens_of : string -> list string)
  (term : string) (docs : list string) : nat :=
  List.length
    (filter (fun doc => existsb (String.eqb term) (tokens_of doc)) docs).

(** [a] may stand before [b] in a list ordered by decreasing [key]. *)
Definition descending (A : Type) (key : A -> number) (a b : A) : Prop :=
  ge (key a) (key b) = true.

(** The similarity entries that reach the threshold, in index order. *)
Definition passing (similarities : list number) (threshold : number)
  : list item :=
  filter (fun it => ge (score it) threshold) (with_index 0 similarities).

(** The dot product of two real vectors and the Euclidean norm. *)
Fixpoint dot (a b : list R) : R :=
  match a, b with
  | x :: a', y :: b' => x * y + dot a' b'
  | _, _ => 0
  end.

Fixpoint difference (a b : list R) : list R :=
  match a, b with
  | x :: a', y :: b' => (x - y)%R :: difference a' b'
  | _, _ => []
  end.

Fixpoint abs_sum (v : list R) : R :=
  match v with
  | [] => 0
  | x :: v' => Rabs x + abs_sum v'
  end.

(** The weight of a term found in [df] of [n] documents. *)
Definition idf_formula (n df : nat) : number :=
  if df =? 0 then Fin 0 else Fin (ln (INR n / INR df)).

(** The elements of a list in the order of their first occurrence, each
    of them once. *)
Fixpoint first_occurrences (l : list string) : list string :=
  match l with
  | [] => []
  | x :: l' =>
      x :: filter (fun y => negb (String.eqb y x)) (first_occurrences l')
  end.

(** A vocabulary is dense when the term listed at position [i] has index
    [i]: the indices are [0 .. N-1], one per term. *)
Definition dense_vocabulary (vocab : Map nat) : Prop :=
  forall (t : string) (i : nat),
    Map_get vocab t = Some i <-> nth_error (Map_keys vocab) i = Some t.

(** A Map holds each key once. *)
Definition distinct_keys (V : Type) (m : Map V) : Prop :=
  NoDup (Map_keys m).

(** A character of a word of cleaned text: no whitespace, hyphen or
    dollar sign. *)
Definition word_char (c : ascii) : bool :=
  negb (is_space c) && negb (Ascii.eqb c "-") && negb (Ascii.eqb c "$").

(** Words separated by single spaces, the last character being that of a
    word; after a space, and at the start when [after_space] is set, a
    word must follow. *)
Fixpoint tidy_from (after_space : bool) (s : string) : bool :=
  match s with
  | EmptyString => negb after_space
  | String c s' =>
      if Ascii.eqb c " "
      then negb after_space && tidy_from true s'
      else word_char c && tidy_from false s'
  end.

(** Cleaned text: empty, or words of word characters separated by single
    spaces, with no space at either end. *)
Definition tidy (s : string) : bool :=
  String.eqb s "" || tidy_from true s.

(** Words separated by single spaces, where a space may also begin or
    end the string: the form of the text before the last [trim]. *)
Fixpoint loose_from (after_space : bool) (s : string) : bool :=
  match s with
  | EmptyString => true
  | String c s' =>
      if Ascii.eqb c " "
      then negb after_space && loose_from true s'
      else word_char c && loose_from false s'
  end.

(** Neither hyphen nor dollar sign. *)
Definition no_mark (c : ascii) : bool :=
  negb (Ascii.eqb c "-") && negb (Ascii.eqb c "$").

End Stated.

(* ================================================================= *)
(** * A tokenizer and a stopword list for the examples *)

Module Example.

Definition is_word_char (c : ascii) : bool :=
  is_alpha c || between 48 57 (code c) || (code c =? 95).

(** Splitting at every run of characters outside [[A-Za-z0-9_]] and
    dropping the empty pieces, in the manner of
    [natural.WordTokenizer]. *)
Fixpoint words_from (piece : string) (s : string) : list string :=
  match s with
  | EmptyString => if String.eqb piece "" then [] else [piece]
  | String c s' =>
      if is_word_char c
      then words_from (piece ++ String c "")%string s'
      else if String.eqb piece "" then words_from "" s'
           else piece :: words_from "" s'
  end.

Definition tokenize (s : string) : option (list string) :=
  Some (words_from "" s).

Definition stopword_eng : option (list string) :=
  Some ["a"; "an"; "and"; "in"; "is"; "of"; "the"; "to"].

Definition documents : list string :=
  ["binary search tree algorithm"; "the tree of the graph";
   "sorting algorithm"].

(** Three problems behind a placeholder matrix. *)
Definition three_problems : CodeforceModule :=
  mkModule None (Some placeholder)
           (Some ["Binary Lifting"; "Graph Coloring"; "Binary Search Tree"])
           (Some ["https://codeforces.com/1"; "https://codeforces.com/2";
                  "https://codeforces.com/3"])
           true.

(** A fitted vectorizer of two terms and a module of two problems whose
    matrix has their two rows. *)
Definition fitted_vectorizer : TFIDFVectorizer :=
  mkVectorizer [("graph", 0); ("tree", 1)]
               [("graph", Fin 1); ("tree", Fin 1)] [] true.

Definition two_by_two : CodeforceModule :=
  mkModule (Some fitted_vectorizer)
           (Some (mkMatrix 2 2 [[Fin 1; Fin 0]; [Fin 0; Fin 1]]))
           (Some ["Graph Coloring"; "Binary Tree"])
           (Some ["https://codeforces.com/1"; "https://codeforces.com/2"])
           true.

(** A module as [initialize] leaves it when the matrix file is too large
    to load: a fitted vectorizer, here of one term, and the placeholder
    matrix. *)
Definition one_term_vectorizer : TFIDFVectorizer :=
  mkVectorizer [("graph", 0)] [("graph", Fin 1)] [] true.

Definition too_large : CodeforceModule :=
  mkModule (Some one_term_vectorizer) (Some placeholder)
           (Some ["Graph Coloring"; "Binary Tree"])
           (Some ["https://atcoder.jp/1"; "https://atcoder.jp/2"])
           true.

End Example.

(* ================================================================= *)
(** * The query service on the data of the JavaScript engine

    The part of the program that answers a query, once more, now on the
    values the engine computes with: numbers are IEEE-754 binary64
    doubles with their rounding, signed zeros, infinities and NaN; strings
    are sequences of UTF-16 code units; an [async] function returns a
    promise, which an error that nobody listens for leaves unsettled. *)

Module Node.

Import Floats.

(** ** Numbers *)

Definition number : Type := float.

(** The double nearest to a count (exact below [2^53]). *)
Definition of_nat (n : nat) : number :=
  SF2Prim (binary_normalize prec emax (Z.of_nat n) 0 false).

(** [a >= b]: false as soon as one side is NaN. *)
Definition ge (a b : number) : bool := PrimFloat.leb b a.

(** [a > 0] *)
Definition gt0 (a : number) : bool := PrimFloat.ltb zero a.

(** [a === 0]: true of both zeros. *)
Definition is_zero (a : number) : bool := PrimFloat.eqb a zero.

(** [a || 0] on a number: the zeros and NaN are falsy. *)
Definition or_zero (a : number) : number :=
  if (is_nan a || is_zero a)%bool then zero else a.

(** [Math.sqrt]: the correctly rounded square root. *)
Definition Math_sqrt (a : number) : number := PrimFloat.sqrt a.

(** [Math.round]: the nearest integer, halves towards [+Infinity]; an
    integer, an infinity, a zero or NaN is returned as it is, and what
    rounds to zero from below is [-0].  A double with a negative exponent
    [-k] is below [2^53] in size, so the integer
    [floor ((2 m + 2^k) / 2^(k+1))] is converted exactly. *)
Definition Math_round (a : number) : number :=
  match Prim2SF a with
  | S754_finite s m (Zneg k) =>
      let signed := if s then Zneg m else Zpos m in
      match Z.div (2 * signed + 2 ^ Zpos k) (2 ^ (Zpos k + 1)) with
      | Z0 => if s then neg_zero else zero
      | Zpos p => of_uint63 (Uint63.of_Z (Zpos p))
      | Zneg p => PrimFloat.opp (of_uint63 (Uint63.of_Z (Zpos p)))
      end
  | _ => a
  end.

(** [Math.round(x * 1000) / 1000] *)
Definition round3 (a : number) : number :=
  PrimFloat.div (Math_round (PrimFloat.mul a 1000%float)) 1000%float.

(** The place of a double on the integer line: the order of the doubles
    that are not NaN is the order of their places; both zeros sit at 0. *)
Definition SFord (x : spec_float) : Z :=
  match x with
  | S754_zero _ => 0
  | S754_nan => 0
  | S754_infinity s => cond_Zopp s (2 ^ 53 * 2 ^ 2045)
  | S754_finite s m e => cond_Zopp s (Z.pos m * 2 ^ (e + 1074))
  end.

Definition ord (x : number) : Z := SFord (Prim2SF x).

(** ** Strings *)

(** A string is the sequence of its UTF-16 code units. *)
Definition jsstring : Type := list N.

(** A string literal of ASCII characters. *)
Definition js (s : string) : jsstring :=
  map N_of_ascii (list_ascii_of_string s).

Definition jsstring_eqb (s t : jsstring) : bool :=
  if list_eq_dec N.eq_dec s t then true else false.

(** The class [\s]: the white space and the line terminators of
    ECMAScript. *)
Definition is_space (c : N) : bool :=
  (existsb (N.eqb c)
           [9; 10; 11; 12; 13; 32; 160; 5760; 8232; 8233; 8239; 8287;
            12288; 65279]
   || ((8192 <=? c) && (c <=? 8202)))%N%bool.

(** [s.split(/\s+/)]: the pieces between maximal runs of whitespace; a
    leading or trailing run leaves an empty piece, and the empty string
    splits into one empty piece. *)
Fixpoint split_from (piece : jsstring) (in_run : bool) (s : jsstring)
  : list jsstring :=
  match s with
  | [] => [piece]
  | c :: s' =>
      if is_space c
      then (if in_run then split_from piece true s'
            else piece :: split_from [] true s')
      else split_from (piece ++ [c]) false s'
  end.

Definition split_ws (s : jsstring) : list jsstring := split_from [] false s.

Fixpoint starts_with (sub s : jsstring) : bool :=
  match sub, s with
  | [], _ => true
  | x :: sub', y :: s' => (x =? y)%N && starts_with sub' s'
  | _ :: _, [] => false
  end.

(** [s.includes(sub)] *)
Fixpoint includes (s sub : jsstring) : bool :=
  starts_with sub s
  || match s with
     | [] => false
     | _ :: s' => includes s' sub
     end.

(** [s.substring(0, e)] for a non-negative [e] *)
Definition substring0 (e : nat) (s : jsstring) : jsstring := firstn e s.

(** [/^[a-zA-Z]+$/.test(s)] *)
Definition is_alpha (c : N) : bool :=
  (((97 <=? c) && (c <=? 122)) || ((65 <=? c) && (c <=? 90)))%N%bool.

Definition alphabetic (s : jsstring) : bool :=
  negb (jsstring_eqb s []) && forallb is_alpha s.

(** ** Promises *)

(** The state in which an [async] call leaves its promise: fulfilled,
    rejected, or never settled because an error was thrown where no
    handler could receive it (an [error] event without a listener), which
    ends the process. *)
Inductive promise (A : Type) : Type :=
| Fulfilled (a : A)
| Rejected (error : string)
| Unsettled (uncaught : string).
Arguments Fulfilled {A} a.
Arguments Rejected {A} error.
Arguments Unsettled {A} uncaught.

(** [const x = await p; k]: a rejection is thrown at the [await]; after
    an uncaught error nothing resumes. *)
Definition await (A B : Type) (p : promise A) (k : A -> promise B)
  : promise B :=
  match p with
  | Fulfilled a => k a
  | Rejected e => Rejected e
  | Unsettled e => Unsettled e
  end.

(** Synchronous code inside an [async] function: a return fulfils the
    promise, a [throw] rejects it. *)
Definition settle (A : Type) (o : outcome A) : promise A :=
  match o with
  | Return a => Fulfilled a
  | Throw e => Rejected e
  end.

(** [try { body } catch (error) { handler }] inside an [async]
    function. *)
Definition async_try (A : Type) (body : promise A)
  (handler : string -> promise A) : promise A :=
  match body with
  | Rejected e => handler e
  | _ => body
  end.

(** ** Arrays and maps *)

(** [array.sort(compare)]: a stable sort, written as an insertion sort;
    [compare x y > 0] puts [y] first. *)
Fixpoint sort_insert (A : Type) (compare : A -> A -> number) (x : A)
  (sorted : list A) : list A :=
  match sorted with
  | [] => [x]
  | y :: rest =>
      if gt0 (compare x y) then y :: sort_insert compare x rest
      else x :: y :: rest
  end.

Fixpoint Array_sort (A : Type) (compare : A -> A -> number) (l : list A)
  : list A :=
  match l with
  | [] => []
  | x :: l' => sort_insert compare x (Array_sort compare l')
  end.

(** A [Map] with string keys, in insertion order. *)
Definition Map (V : Type) : Type := list (jsstring * V).

Fixpoint Map_get (V : Type) (m : Map V) (k : jsstring) : option V :=
  match m with
  | [] => None
  | (k', v) :: m' => if jsstring_eqb k' k then Some v else Map_get m' k
  end.

Fixpoint Map_set (V : Type) (k : jsstring) (v : V) (m : Map V) : Map V :=
  match m with
  | [] => [(k, v)]
  | (k', v') :: m' =>
      if jsstring_eqb k' k then (k', v) :: m'
      else (k', v') :: Map_set k v m'
  end.

Definition Map_size (V : Type) (m : Map V) : nat := List.length m.

(** [m.get(k) || 0] on a map of counters *)
Definition count_of (m : Map nat) (k : jsstring) : nat :=
  match Map_get m k with
  | Some c => c
  | None => 0
  end.

(** [a[i] = x]: writing past the end extends the array; the holes left
    behind read as [undefined], which arithmetic turns into NaN. *)
Definition array_set (a : list number) (i : nat) (x : number)
  : list number :=
  if i <? List.length a
  then firstn i a ++ x :: skipn (S i) a
  else a ++ repeat nan (i - List.length a) ++ [x].

(** Values of a dynamically typed argument. *)
Inductive value : Type :=
| VUndefined
| VNull
| VBoolean (b : bool)
| VNumber (n : number)
| VString (s : jsstring)
| VObject.

(** ** The [ml-matrix] library *)

Record Matrix : Type := mkMatrix
  { rows : nat; columns : nat; data : list (list number) }.

(** [new Matrix(arrayOfRows)]: every row must be as long as the first. *)
Definition new_Matrix (a : list (list number)) : outcome Matrix :=
  let nColumns := match a with [] => 0 | r :: _ => List.length r end in
  if forallb (fun r => List.length r =? nColumns) a
  then Return (mkMatrix (List.length a) nColumns a)
  else Throw "Inconsistent array dimensions".

(** [m.getRow(i)] *)
Definition getRow (m : Matrix) (i : nat) : outcome (list number) :=
  if i <? rows m
  then Return (nth i (data m) [])
  else Throw "Row index out of range".

(** [new Matrix([[0]])], the stand-in for a matrix file too large to
    load. *)
Definition placeholder : Matrix := mkMatrix 1 1 [[zero]].

(** ** utils/similarity.js *)

(** One round of the [for] loop of [cosineSimilarity]. *)
Definition accumulate (acc : number * number * number)
  (xy : number * number) : number * number * number :=
  let '(dotProduct, normA, normB) := acc in
  let '(x, y) := xy in
  (PrimFloat.add dotProduct (PrimFloat.mul x y),
   PrimFloat.add normA (PrimFloat.mul x x),
   PrimFloat.add normB (PrimFloat.mul y y)).

(** Both arguments are arrays here: every caller passes rows obtained by
    [getRow], so the [to1DArray] conversion of a Matrix argument is not
    needed. *)
Definition cosineSimilarity (a b : list number) : outcome number :=
  if negb (List.length a =? List.length b)
  then Throw "Vectors must have the same length"
  else
    let '(dotProduct, normA, normB) :=
      fold_left accumulate (combine a b) (zero, zero, zero) in
    let normA := Math_sqrt normA in
    let normB := Math_sqrt normB in
    if is_zero normA || is_zero normB
    then Return zero
    else Return (PrimFloat.div dotProduct (PrimFloat.mul normA normB)).

(** The second argument of [cosineSimilarityMatrix] is an array or a
    one-row matrix. *)
Inductive queryArg : Type :=
| AsArray (v : list number)
| AsMatrix (m : Matrix).

Definition cosineSimilarityMatrix (tfidfMatrix : Matrix)
  (queryVector : queryArg) : outcome (list number) :=
  query <- match queryVector with
           | AsArray v => Return v
           | AsMatrix m => getRow m 0
           end ;;
  mapM (fun i => docVector <- getRow tfidfMatrix i ;;
                 cosineSimilarity docVector query)
       (seq 0 (rows tfidfMatrix)).

Record item : Type := mkItem { index : nat; score : number }.

(** [similarities.map((score, index) => ({ index, score }))] *)
Fixpoint with_index (i : nat) (similarities : list number) : list item :=
  match similarities with
  | [] => []
  | s :: rest => mkItem i s :: with_index (S i) rest
  end.

(** [(a, b) => b.score - a.score] *)
Definition by_score (a b : item) : number :=
  PrimFloat.sub (score b) (score a).

Definition getTopSimilar (similarities : list number) (k : Z)
  (threshold : number) : list item :=
  let results :=
    Array_sort by_score
      (filter (fun it => ge (score it) threshold)
              (with_index 0 similarities)) in
  if ((0 <? k)%Z && (k <? Z.of_nat (List.length results))%Z)%bool
  then firstn (Z.to_nat k) results
  else results.

(** ** utils/tfidf.js: a loaded vectorizer *)

Record TFIDFVectorizer : Type := mkVectorizer
  { vocabulary : Map nat;
    idf : Map number;
    fitted : bool }.

Section Engine.

(** [String.prototype.toLowerCase], the lowercase conversion of the
    Unicode tables the engine is built with; the tokenizer
    [new natural.WordTokenizer().tokenize] and the list [stopword.eng] of
    the two npm packages. *)
Variable toLowerCase : jsstring -> jsstring.
Variable tokenize : jsstring -> option (list jsstring).
Variable stopword_eng : option (list jsstring).

Definition is_stopword (token : jsstring) : bool :=
  match stopword_eng with
  | Some eng => existsb (jsstring_eqb token) eng
  | None => false
  end.

Definition keep_token (token : jsstring) : bool :=
  alphabetic token && (1 <? List.length token)
  && negb (is_stopword token).

Definition preprocessText (text : jsstring) : list jsstring :=
  if jsstring_eqb text [] then []
  else match tokenize (toLowerCase text) with
       | None => []
       | Some tokens => filter keep_token tokens
       end.

(** [tf.set(token, (tf.get(token) || 0) + 1)] *)
Definition bump (m : Map nat) (token : jsstring) : Map nat :=
  Map_set token (count_of m token + 1) m.

Definition calculateTF (tokens : list jsstring) : Map number :=
  let totalTokens := List.length tokens in
  let tf := fold_left bump tokens [] in
  map (fun entry =>
         (fst entry, PrimFloat.div (of_nat (snd entry)) (of_nat totalTokens)))
      tf.

(** [this.idf.get(token) || 0] *)
Definition idf_of (this : TFIDFVectorizer) (token : jsstring) : number :=
  match Map_get (idf this) token with
  | Some w => or_zero w
  | None => zero
  end.

Definition documentToVector (this : TFIDFVectorizer) (doc : jsstring)
  : list number :=
  let tokens := preprocessText doc in
  let tf := calculateTF tokens in
  let vector := repeat zero (Map_size (vocabulary this)) in
  fold_left
    (fun vector entry =>
       let token := fst entry in
       let tfValue := snd entry in
       let idfValue := idf_of this token in
       match Map_get (vocabulary this) token with
       | Some vocabIndex =>
           array_set vector vocabIndex (PrimFloat.mul tfValue idfValue)
       | None => vector
       end)
    tf vector.

Definition transform (this : TFIDFVectorizer) (docs : list jsstring)
  : outcome Matrix :=
  if negb (fitted this)
  then Throw "Vectorizer must be fitted before transform"
  else new_Matrix (map (documentToVector this) docs).

(** ** utils/csv.js *)

(** A parsed row: the columns of the header with the fields of the
    line. *)
Definition Row : Type := list (jsstring * jsstring).

(** [row.field]: [None] for [undefined]. *)
Fixpoint field (row : Row) (column : jsstring) : option jsstring :=
  match row with
  | [] => None
  | (c, v) :: row' => if jsstring_eqb c column then Some v else field row' column
  end.

(** [a || b] on strings: the empty string and [undefined] are falsy. *)
Definition or_string (a : option jsstring) (b : jsstring) : jsstring :=
  match a with
  | Some (c :: s) => c :: s
  | _ => b
  end.

(** What becomes of [fs.createReadStream(filePath).pipe(csv())]: the
    file stream reads the file to its end and the parser, fed with it,
    emits the rows and [end], or emits [error]; or the file stream itself
    emits [error] (the path is a directory, the file may not be read or
    the disk fails) and ends nothing. *)
Inductive piped : Type :=
| Parsed (records : list Row)
| ParserError (error : string)
| ReadError (error : string).

Record CsvFile : Type := mkCsvFile
  { existsSync : bool;
    createReadStream : piped }.

(** The three listeners are those of the parser, the stream that [pipe]
    returns: [data] and [end] resolve the promise with the rows, [error]
    rejects it.  The file stream has no [error] listener, and [pipe]
    forwards no errors: its [error] event is thrown as an uncaught
    exception, and the promise is never settled. *)
Definition readCSV (file : CsvFile) : promise (list Row) :=
  if negb (existsSync file)
  then Rejected "CSV file not found"
  else
    match createReadStream file with
    | Parsed results => Fulfilled results
    | ParserError error => Rejected error
    | ReadError error => Unsettled error
    end.

Record ProblemData : Type := mkProblemData
  { names : list jsstring;
    urls : list jsstring;
    texts : list jsstring;
    tags : list jsstring;
    difficulties : list jsstring;
    length : nat }.

(** The body of [data.forEach]. *)
Definition push_row (acc : ProblemData) (row : Row) : ProblemData :=
  let name := or_string (field row (js "Name"))
                (or_string (field row (js "name")) []) in
  let url := or_string (field row (js "URL"))
               (or_string (field row (js "url"))
                  (or_string (field row (js "Url")) [])) in
  let text := or_string (field row (js "Text"))
                (or_string (field row (js "text"))
                   (or_string (field row (js "description")) [])) in
  let tag := or_string (field row (js "Tag"))
               (or_string (field row (js "tag"))
                  (or_string (field row (js "tags")) [])) in
  let difficulty := or_string (field row (js "Difficulty"))
                      (or_string (field row (js "difficulty")) []) in
  mkProblemData (names acc ++ [name]) (urls acc ++ [url])
                (texts acc ++ [text]) (tags acc ++ [tag])
                (difficulties acc ++ [difficulty]) (length acc).

(** The [catch] block logs the error and throws it again. *)
Definition readProblemData (file : CsvFile) : promise ProblemData :=
  async_try
    (await (readCSV file) (fun data =>
     Fulfilled
       (fold_left push_row data
                  (mkProblemData [] [] [] [] [] (List.length data)))))
    (fun error => Rejected error).

(** ** platforms/codeforce/codeforce.js *)

(** An entry of a result list.  A field that the object does not have, or
    that holds [undefined], is [None]: the primary path sets no [index]. *)
Record entry : Type := mkEntry
  { name : option jsstring;
    url : option jsstring;
    entry_score : number;
    entry_index : option nat }.

Record CodeforceModule : Type := mkModule
  { vectorizer : option TFIDFVectorizer;
    tfidfMatrix : option Matrix;
    problemNames : option (list jsstring);
    problemUrls : option (list jsstring);
    initialized : bool }.

(** [new CodeforceModule()] *)
Definition new_CodeforceModule : CodeforceModule :=
  mkModule None None None None false.

(** The directory [preprocess] as [initialize] finds it: the [allReady]
    flag of [checkPlatformData], the pair of [loadPlatformData], both of
    [utils/storage.js] and settled by its promise-based file calls, and
    the file [problem.csv]. *)
Record Storage : Type := mkStorage
  { checkPlatformData : outcome bool;
    loadPlatformData : outcome (TFIDFVectorizer * Matrix);
    problem_csv : CsvFile }.

Definition default_threshold : number := 0.01%float.

(** The parameter [threshold = 0.01]: an omitted argument takes the
    default. *)
Definition threshold_or_default (threshold : option number) : number :=
  match threshold with
  | Some t => t
  | None => default_threshold
  end.

(** Reading a property of [null] is a [TypeError]. *)
Definition deref (A : Type) (property : option A) : outcome A :=
  match property with
  | Some a => Return a
  | None => Throw "Cannot read properties of null"
  end.

(** The [catch] block logs the error and throws it again. *)
Definition initialize (disk : Storage) (this : CodeforceModule)
  : promise unit * CodeforceModule :=
  if initialized this then (Fulfilled tt, this)
  else
    match checkPlatformData disk with
    | Throw e => (Rejected e, this)
    | Return false =>
        (Rejected "Codeforces preprocessed data not found. Please run preprocessing first.",
         this)
    | Return true =>
        match loadPlatformData disk with
        | Throw e => (Rejected e, this)
        | Return (v, m) =>
            let this := mkModule (Some v) (Some m) (problemNames this)
                                 (problemUrls this) (initialized this) in
            match readProblemData (problem_csv disk) with
            | Rejected e => (Rejected e, this)
            | Unsettled e => (Unsettled e, this)
            | Fulfilled problemData =>
                (Fulfilled tt,
                 mkModule (vectorizer this) (tfidfMatrix this)
                          (Some (names problemData))
                          (Some (urls problemData)) true)
            end
        end
    end.

(** [term.substring(0, Math.max(3, term.length - 2))] *)
Definition shortened (term : jsstring) : jsstring :=
  substring0 (Nat.max 3 (List.length term - 2)) term.

(** The body of [queryTerms.forEach]. *)
Definition add_term (problemName : jsstring) (score : number)
  (term : jsstring) : number :=
  let score :=
    if includes problemName term
    then PrimFloat.add score 0.5%float else score in
  if includes problemName (shortened term)
  then PrimFloat.add score 0.2%float else score.

Definition name_score (queryTerms : list jsstring) (problemName : jsstring)
  : number :=
  let score := fold_left (add_term problemName) queryTerms zero in
  PrimFloat.div score (of_nat (List.length queryTerms)).

(** One round of the [for] loop of [fallbackSearch]. *)
Definition visit (this : CodeforceModule) (problems : list jsstring)
  (queryTerms : list jsstring) (threshold : number)
  (acc : outcome (list entry)) (i : nat) : outcome (list entry) :=
  results <- acc ;;
  rawName <- deref (nth_error problems i) ;;
  let problemName := toLowerCase rawName in
  let score := name_score queryTerms problemName in
  if ge score threshold
  then links <- deref (problemUrls this) ;;
       Return (results ++ [mkEntry (nth_error problems i)
                                   (nth_error links i)
                                   (round3 score) (Some i)])
  else Return results.

(** [(a, b) => b.score - a.score] *)
Definition by_entry_score (a b : entry) : number :=
  PrimFloat.sub (entry_score b) (entry_score a).

Definition fallbackSearch (this : CodeforceModule) (queryText : jsstring)
  (threshold : number) : outcome (list entry) :=
  try_catch
    (match problemNames this with
     | None => Return []
     | Some problems =>
         if List.length problems =? 0 then Return []
         else
           let query := toLowerCase queryText in
           let queryTerms :=
             filter (fun term => 2 <? List.length term)
                    (split_ws query) in
           results <- fold_left (visit this problems queryTerms threshold)
                                (seq 0 (List.length problems)) (Return []) ;;
           let results := Array_sort by_entry_score results in
           let limitedResults := firstn 50 results in
           Return limitedResults
     end)
    (fun _ => Return []).

(** [result => ({ name, url, score })], the callback of
    [topResults.map]. *)
Definition format (this : CodeforceModule) (result : item)
  : outcome entry :=
  problems <- deref (problemNames this) ;;
  links <- deref (problemUrls this) ;;
  Return (mkEntry (nth_error problems (index result))
                  (nth_error links (index result))
                  (round3 (score result)) None).

(** The [try] block of [query], after the lazy initialisation. *)
Definition answer (this : CodeforceModule) (queryText : value)
  (threshold : number) : outcome (list entry) :=
  match queryText with
  | VString text =>
      if jsstring_eqb text [] then Return []
      else
        matrix <- deref (tfidfMatrix this) ;;
        if ((rows matrix <=? 1) && (columns matrix <=? 1))%bool
        then fallbackSearch this text threshold
        else
          v <- deref (vectorizer this) ;;
          queryVector <- transform v [toLowerCase text] ;;
          similarities <-
            cosineSimilarityMatrix matrix (AsMatrix queryVector) ;;
          let topResults := getTopSimilar similarities (-1) threshold in
          mapM (format this) topResults
  | _ => Return []
  end.

(** [query(queryText, threshold = 0.01)]: the promise it returns and the
    module afterwards. *)
Definition query (disk : Storage) (this : CodeforceModule)
  (queryText : value) (threshold : option number)
  : promise (list entry) * CodeforceModule :=
  let threshold := threshold_or_default threshold in
  let '(ready, this) :=
    if initialized this then (Fulfilled tt, this)
    else initialize disk this in
  (async_try
     (await ready (fun _ => settle (answer this queryText threshold)))
     (fun _ => Fulfilled []),
   this).

End Engine.

End Node.

(* ================================================================= *)
(** * The fallback search, as described *)

Module Described.

Import Floats.
Import Node.

(** The terms of a query: its whitespace-separated pieces of more than
    two characters. *)
Definition terms (q : jsstring) : list jsstring :=
  filter (fun term => 2 <? List.length term) (split_ws q).

(** A term with its last two characters dropped; when fewer than three
    characters would be left, its first three characters. *)
Definition shortened (term : jsstring) : jsstring :=
  let cut := removelast (removelast term) in
  if List.length cut <? 3 then firstn 3 term else cut.

(** What the terms add to the score of a lowercased name, term by term:
    0.5 for a term that occurs in the name, 0.2 for a term whose
    shortened form does. *)
Definition contributions (ts : list jsstring) (lowered : jsstring)
  : list number :=
  flat_map
    (fun term =>
       (if includes lowered term then [0.5%float] else [])
       ++ (if includes lowered (shortened term) then [0.2%float] else []))
    ts.

(** The sum of a list of doubles, added from left to right. *)
Definition total (l : list number) : number :=
  fold_left PrimFloat.add l zero.

Section Lowercase.

Variable toLowerCase : jsstring -> jsstring.

(** The score of a problem name: the sum of the contributions divided by
    the number of terms. *)
Definition overlap (ts : list jsstring) (problem : jsstring) : number :=
  PrimFloat.div (total (contributions ts (toLowerCase problem)))
                (of_nat (List.length ts)).

(** The entry of problem [i], if its score reaches the threshold. *)
Definition candidate (ts : list jsstring) (problems links : list jsstring)
  (threshold : number) (i : nat) : option entry :=
  match nth_error problems i with
  | Some problem =>
      if PrimFloat.leb threshold (overlap ts problem)
      then Some (mkEntry (Some problem) (nth_error links i)
                         (round3 (overlap ts problem)) (Some i))
      else None
  | None => None
  end.

(** The entries that reach the threshold, in the order of the problems. *)
Fixpoint kept_from (ts : list jsstring) (problems links : list jsstring)
  (threshold : number) (i n : nat) : list entry :=
  match n with
  | O => []
  | S n' =>
      match candidate ts problems links threshold i with
      | Some e => e :: kept_from ts problems links threshold (S i) n'
      | None => kept_from ts problems links threshold (S i) n'
      end
  end.

Definition kept (ts : list jsstring) (problems links : list jsstring)
  (threshold : number) : list entry :=
  kept_from ts problems links threshold 0 (List.length problems).

(** The score of the problem that an entry stands for, before it is
    rounded. *)
Definition score_of (ts : list jsstring) (problems : list jsstring)
  (e : entry) : number :=
  match entry_index e with
  | Some i =>
      match nth_error problems i with
      | Some problem => overlap ts problem
      | None => nan
      end
  | None => nan
  end.

End Lowercase.

(** [results] are the first 50 of the entries [candidates] in an order
    of decreasing [rank]. *)
Definition top50 (rank : entry -> number) (candidates results : list entry)
  : Prop :=
  exists ranked : list entry,
    Permutation ranked candidates
    /\ StronglySorted
         (fun a b => PrimFloat.leb (rank b) (rank a) = true) ranked
    /\ results = firstn 50 ranked.

End Described.

(* ================================================================= *)
(** * Data for the examples *)

Module Sample.

Import PrimFloat.
Import Node.

(** The lowercase conversion of the characters of the examples: the
    capitals of Basic Latin and of Latin-1 move 32 places up, and the
    dotted capital I (U+0130) becomes an [i] followed by the combining
    dot above (U+0307); the other code units of these ranges stay. *)
Definition lower_unit (c : N) : list N :=
  if (((65 <=? c) && (c <=? 90))
      || ((192 <=? c) && (c <=? 222) && negb (c =? 215)))%N%bool
  then [(c + 32)%N]
  else if (c =? 304)%N then [105%N; 775%N]
  else [c].

Definition toLowerCase (s : jsstring) : jsstring := flat_map lower_unit s.

Definition is_word_unit (c : N) : bool :=
  (is_alpha c || ((48 <=? c) && (c <=? 57)) || (c =? 95))%N%bool.

(** Splitting at every run of characters outside [[A-Za-z0-9_]] and
    dropping the empty pieces, in the manner of
    [natural.WordTokenizer]. *)
Fixpoint words_from (piece : jsstring) (s : jsstring) : list jsstring :=
  match s with
  | [] => match piece with [] => [] | _ => [piece] end
  | c :: s' =>
      if is_word_unit c then words_from (piece ++ [c]) s'
      else match piece with
           | [] => words_from [] s'
           | _ => piece :: words_from [] s'
           end
  end.

Definition tokenize (s : jsstring) : option (list jsstring) :=
  Some (words_from [] s).

Definition stopword_eng : option (list jsstring) :=
  Some (map js ["a"; "an"; "and"; "in"; "is"; "of"; "the"; "to"]).

(** Two problems behind a placeholder matrix. *)
Definition two_problems : CodeforceModule :=
  mkModule None (Some placeholder)
           (Some [js "Binary Search Tree"; js "Graph Coloring"])
           (Some [js "https://codeforces.com/1"; js "https://codeforces.com/2"])
           true.

(** Three problems behind a placeholder matrix, and what the query
    [binary search] finds among them. *)
Definition three_problems : CodeforceModule :=
  mkModule None (Some placeholder)
           (Some [js "Binary Lifting"; js "Graph Coloring";
                  js "Binary Search Tree"])
           (Some [js "https://codeforces.com/1"; js "https://codeforces.com/2";
                  js "https://codeforces.com/3"])
           true.

Definition binary_search_results : list entry :=
  [mkEntry (Some (js "Binary Search Tree"))
           (Some (js "https://codeforces.com/3")) 0.7%float (Some 2);
   mkEntry (Some (js "Binary Lifting"))
           (Some (js "https://codeforces.com/1")) 0.35%float (Some 0)].

Definition one_problem : CodeforceModule :=
  mkModule None (Some placeholder)
           (Some [js "Binary Search"])
           (Some [js "https://codeforces.com/1"]) true.

(** A query of 250 lowercase terms.  Of the first problem below it
    contains three words and the beginnings of three more, of the second
    one four words. *)
Definition long_query : jsstring :=
  js "aaa bbb ccc dddqq eeeqq fffqq ggg hhh iii jjj"
  ++ List.concat (repeat (js " zzz") 240).

Definition close_problems : CodeforceModule :=
  mkModule None (Some placeholder)
           (Some [js "aaa bbb ccc ddd eee fff"; js "ggg hhh iii jjj"])
           (Some [js "https://codeforces.com/1"; js "https://codeforces.com/2"])
           true.

(** Two dotted capital I: one term of two characters, which lowercases
    to four. *)
Definition dotted_query : jsstring := [304%N; 304%N].

Definition dotted_problem : CodeforceModule :=
  mkModule None (Some placeholder)
           (Some [[304%N; 304%N; 32%N; 80%N; 97%N; 114%N; 107%N]])
           (Some [js "https://codeforces.com/1"]) true.

(** A data directory that is not there. *)
Definition no_storage : Storage :=
  mkStorage (Return false) (Throw "ENOENT") (mkCsvFile false (Parsed [])).

(** A data directory whose [problem.csv] exists and cannot be read: it is
    a directory. *)
Definition csv_is_directory (v : TFIDFVectorizer) (m : Matrix) : Storage :=
  mkStorage (Return true) (Return (v, m))
            (mkCsvFile true
               (ReadError "EISDIR: illegal operation on a directory, read")).

(** The rows of a [problem.csv] of three problems, the last with
    lower-case column names, and a data directory that holds it beside
    the placeholder matrix. *)
Definition three_rows : list Row :=
  [[(js "Name", js "Binary Lifting"); (js "URL", js "https://codeforces.com/1")];
   [(js "Name", js "Graph Coloring"); (js "URL", js "https://codeforces.com/2")];
   [(js "name", js "Binary Search Tree");
    (js "url", js "https://codeforces.com/3")]].

Definition placeholder_directory (v : TFIDFVectorizer) : Storage :=
  mkStorage (Return true) (Return (v, placeholder))
            (mkCsvFile true (Parsed three_rows)).

Definition small_vectorizer : TFIDFVectorizer :=
  mkVectorizer [(js "tree", 0); (js "graph", 1)]
               [(js "tree", 0.5%float); (js "graph", 0.25%float)] true.

Definition small_matrix : Matrix :=
  mkMatrix 2 2 [[0.5%float; 0%float]; [0%float; 0.25%float]].

(** Vectors for [cosineSimilarity]. *)
Definition slanted : list number := [0.1%float; 0.7%float].
Definition huge : list number := [1e200%float; 0%float].
Definition tiny : list number := [1e-200%float; 0%float].

End Sample.

(* ================================================================= *)
(** * Numbers: order and sign *)

Section NumberFacts.

Lemma Rleb_true (x y : R) : Rleb x y = true <-> (x <= y)%R.
Proof.
  unfold Rleb; destruct (Rle_dec x y); split; intros; auto; discriminate.
Qed.

Lemma Rltb_true (x y : R) : Rltb x y = true <-> (x < y)%R.
Proof.
  unfold Rltb; destruct (Rlt_dec x y); split; intros; auto; discriminate.
Qed.

Lemma Rltb_false (x y : R) : Rltb x y = false <-> (y <= x)%R.
Proof.
  unfold Rltb; destruct (Rlt_dec x y); split; intros; auto;
    try discriminate; lra.
Qed.

Lemma Reqb_true (x y : R) : Reqb x y = true <-> x = y.
Proof.
  unfold Reqb; destruct (Req_dec_T x y); split; intros; auto; discriminate.
Qed.

Lemma Reqb_false (x y : R) : Reqb x y = false <-> x <> y.
Proof.
  unfold Reqb; destruct (Req_dec_T x y); split; intros; auto; try discriminate.
  contradiction.
Qed.

Lemma ge_not_NaN (a b : number) : ge a b = true -> a <> NaN /\ b <> NaN.
Proof. destruct a, b; simpl; intros H; split; congruence. Qed.

Lemma ge_trans (a b c : number) :
  ge a b = true -> ge b c = true -> ge a c = true.
Proof.
  destruct a, b, c; simpl; try congruence.
  rewrite !Rleb_true. lra.
Qed.

(** Among numbers other than NaN, [b - a > 0] fails exactly when
    [a >= b]. *)
Lemma sub_not_gt0 (a b : number) :
  a <> NaN -> b <> NaN -> gt0 (sub b a) = false -> ge a b = true.
Proof.
  destruct a, b; simpl; try congruence.
  rewrite Rltb_false, Rleb_true. lra.
Qed.

Lemma sub_gt0 (a b : number) : gt0 (sub b a) = true -> ge b a = true.
Proof.
  destruct a, b; simpl; try congruence.
  rewrite Rltb_true, Rleb_true. lra.
Qed.

End NumberFacts.

(** Settles one comparison between two concrete reals in the goal. *)
Ltac real_test :=
  match goal with
  | |- context [Rleb ?a ?b] =>
      first [ replace (Rleb a b) with true
                by (symmetry; apply Rleb_true; lra)
            | replace (Rleb a b) with false
                by (symmetry; apply Bool.not_true_is_false;
                    rewrite Rleb_true; lra) ]
  | |- context [Rltb ?a ?b] =>
      first [ replace (Rltb a b) with true
                by (symmetry; apply Rltb_true; lra)
            | replace (Rltb a b) with false
                by (symmetry; apply Rltb_false; lra) ]
  | |- context [Reqb ?a ?b] =>
      first [ replace (Reqb a b) with true
                by (symmetry; apply Reqb_true; lra)
            | replace (Reqb a b) with false
                by (symmetry; apply Reqb_false; lra) ]
  end.

(** [Math.round(x * 1000) / 1000] on a finite number. *)
Lemma round3_value (x : R) (z : Z) :
  (IZR z <= x * 1000 + / 2 < IZR z + 1)%R ->
  round3 (Fin x) = Fin (IZR z / 1000).
Proof.
  intros H. unfold round3, mul, Math_round, div.
  replace (Reqb 1000 0) with false by (symmetry; apply Reqb_false; lra).
  do 3 f_equal. symmetry. apply Int_part_spec. lra.
Qed.

(* ================================================================= *)
(** * [Array.prototype.sort] under a comparator [b.key - a.key] *)

Section SortFacts.

Variable A : Type.
Variable key : A -> number.
Variable compare : A -> A -> number.
Hypothesis compare_key : forall a b, compare a b = sub (key b) (key a).

Let descending := Stated.descending key.

Lemma sort_insert_perm (x : A) (l : list A) :
  Permutation (sort_insert compare x l) (x :: l).
Proof.
  induction l as [|y l IH]; simpl.
  - apply Permutation_refl.
  - destruct (gt0 (compare x y)).
    + eapply Permutation_trans; [apply perm_skip, IH | apply perm_swap].
    + apply Permutation_refl.
Qed.

Lemma Array_sort_perm (l : list A) : Permutation (Array_sort compare l) l.
Proof.
  induction l as [|x l IH]; simpl.
  - apply perm_nil.
  - eapply Permutation_trans; [apply sort_insert_perm | apply perm_skip, IH].
Qed.

Lemma sort_insert_sorted (x : A) (l : list A) :
  key x <> NaN ->
  Forall (fun y => key y <> NaN) l ->
  StronglySorted descending l ->
  StronglySorted descending (sort_insert compare x l).
Proof.
  intros Hx Hl Hs. induction Hs as [|y l Hs IH Hy]; simpl.
  - constructor; [constructor | constructor].
  - inversion Hl as [|? ? Hyn Hln]; subst.
    destruct (gt0 (compare x y)) eqn:Hc; rewrite compare_key in Hc.
    + constructor; [apply IH; assumption |].
      apply (Permutation_Forall (Permutation_sym (sort_insert_perm x l))).
      constructor; [apply sub_gt0; assumption | assumption].
    + assert (Hxy : descending x y) by (apply sub_not_gt0; assumption).
      constructor; [constructor; assumption |].
      constructor; [assumption |].
      eapply Forall_impl; [| apply Hy].
      intros z Hz. unfold descending in *. eapply ge_trans; eassumption.
Qed.

Lemma Array_sort_sorted (l : list A) :
  Forall (fun y => key y <> NaN) l ->
  StronglySorted descending (Array_sort compare l).
Proof.
  induction l as [|x l IH]; simpl; intros H.
  - constructor.
  - inversion H; subst.
    apply sort_insert_sorted; auto.
    apply (Permutation_Forall (Permutation_sym (Array_sort_perm l))).
    assumption.
Qed.

Lemma Array_sort_Forall (P : A -> Prop) (l : list A) :
  Forall P l -> Forall P (Array_sort compare l).
Proof.
  apply Permutation_Forall, Permutation_sym, Array_sort_perm.
Qed.

End SortFacts.

Lemma In_firstn_of (A : Type) (n : nat) (l : list A) (x : A) :
  In x (firstn n l) -> In x l.
Proof.
  revert n. induction l as [|y l IH]; intros [|n]; simpl; auto.
  - intros [].
  - intros [H | H]; [left; assumption | right; eapply IH; eassumption].
Qed.

Lemma StronglySorted_firstn (A : Type) (R : A -> A -> Prop) (n : nat)
  (l : list A) :
  StronglySorted R l -> StronglySorted R (firstn n l).
Proof.
  intros H. revert n. induction H as [|x l Hs IH Hx]; intros [|n]; simpl;
    try constructor.
  - apply IH.
  - rewrite Forall_forall in *. intros y Hy. apply Hx.
    eapply In_firstn_of; eassumption.
Qed.

Lemma Forall_firstn_of (A : Type) (P : A -> Prop) (n : nat) (l : list A) :
  Forall P l -> Forall P (firstn n l).
Proof.
  rewrite !Forall_forall. intros H x Hx. apply H.
  eapply In_firstn_of; eassumption.
Qed.

(* ================================================================= *)
(** * [getTopSimilar] *)

Lemma with_index_entry (i : nat) (l : list number) (it : item) :
  In it (with_index i l) ->
  i <= index it /\ nth_error l (index it - i) = Some (score it).
Proof.
  revert i. induction l as [|s l IH]; simpl; intros i H.
  - contradiction.
  - destruct H as [<- | H]; simpl.
    + split; [lia |]. now rewrite Nat.sub_diag.
    + apply IH in H as [Hle Hnth]. split; [lia |].
      replace (index it - i) with (S (index it - S i)) by lia. exact Hnth.
Qed.

Lemma passing_entry (similarities : list number) (threshold : number) :
  Forall (fun it => ge (score it) threshold = true
                    /\ nth_error similarities (index it) = Some (score it))
         (Stated.passing similarities threshold).
Proof.
  apply Forall_forall. intros it H. apply filter_In in H as [H1 H2].
  split; [exact H2 |]. apply with_index_entry in H1 as [_ H1].
  now rewrite Nat.sub_0_r in H1.
Qed.

Lemma getTopSimilar_all (similarities : list number) (threshold : number) :
  getTopSimilar similarities (-1) threshold
  = Array_sort by_score (Stated.passing similarities threshold).
Proof. reflexivity. Qed.

(* ================================================================= *)
(** * Strings *)

Lemma string_app_assoc (a b c : string) :
  ((a ++ b) ++ c = a ++ (b ++ c))%string.
Proof. induction a as [|x a IH]; simpl; [reflexivity | now rewrite IH]. Qed.

Lemma string_app_empty_r (a : string) : (a ++ "" = a)%string.
Proof. induction a as [|x a IH]; simpl; [reflexivity | now rewrite IH]. Qed.

(* ================================================================= *)
(** * [createDocumentCorpus] *)

Lemma push_loop (A : Type) (f : nat -> A) (l : list nat) (init : list A) :
  fold_left (fun acc i => acc ++ [f i]) l init = init ++ map f l.
Proof.
  revert init. induction l as [|i l IH]; intros init; simpl.
  - now rewrite app_nil_r.
  - rewrite IH, <- app_assoc. reflexivity.
Qed.

Lemma createDocumentCorpus_map (names texts : list string) :
  createDocumentCorpus names texts
  = map (document_at names texts) (seq 0 (List.length names)).
Proof. unfold createDocumentCorpus. now rewrite push_loop. Qed.

Lemma document_at_joined (names texts : list string) (i : nat)
  (name text : string) :
  nth_error names i = Some name ->
  nth_error texts i = Some text ->
  document_at names texts i
  = String.concat " " [name; name; name; name; toLowerCase text].
Proof.
  intros Hn Ht. unfold document_at, string_at. rewrite Hn, Ht. simpl.
  rewrite string_app_empty_r, !string_app_assoc. reflexivity.
Qed.

(** C5. For index-aligned lists of names and texts of equal length, the
    corpus has one document per index, and the document at index [i] is the
    name at [i] four times and then the lowercased text at [i], joined by
    single spaces in that order. *)
Theorem createDocumentCorpus_documents :
  forall names texts : list string,
    List.length names = List.length texts ->
    List.length (createDocumentCorpus names texts) = List.length names
    /\ forall (i : nat) (name text : string),
         nth_error names i = Some name ->
         nth_error texts i = Some text ->
         nth_error (createDocumentCorpus names texts) i
         = Some (String.concat " "
                   [name; name; name; name; toLowerCase text]).
Proof.
  intros names texts _. rewrite createDocumentCorpus_map. split.
  - now rewrite length_map, length_seq.
  - intros i name text Hn Ht.
    assert (Hi : i < List.length names)
      by (apply nth_error_Some; congruence).
    rewrite nth_error_map, nth_error_seq.
    apply Nat.ltb_lt in Hi. rewrite Hi. simpl.
    f_equal. apply document_at_joined; assumption.
Qed.

Lemma createDocumentCorpus_documents_witness :
  List.length ["Two Sum"; "Binary Search"]
  = List.length ["Array HashMap lookup"; "Sorted array search"]
  /\ nth_error (createDocumentCorpus
                  ["Two Sum"; "Binary Search"]
                  ["Array HashMap lookup"; "Sorted array search"]) 1
     = Some "Binary Search Binary Search Binary Search Binary Search sorted array search".
Proof.
  split; [reflexivity |].
  apply (proj2 (createDocumentCorpus_documents
                  ["Two Sum"; "Binary Search"]
                  ["Array HashMap lookup"; "Sorted array search"]
                  eq_refl) 1 "Binary Search" "Sorted array search");
    reflexivity.
Defined.

(* ================================================================= *)
(** * Maps and sets *)

Section MapFacts.

Variable V : Type.

Lemma Map_get_set (k k' : string) (v : V) (m : Map V) :
  Map_get (Map_set k v m) k'
  = if String.eqb k k' then Some v else Map_get m k'.
Proof.
  induction m as [|[k0 v0] m IH]; simpl.
  - reflexivity.
  - destruct (String.eqb k0 k) eqn:H0; simpl.
    + apply String.eqb_eq in H0. subst k0.
      destruct (String.eqb k k'); reflexivity.
    + rewrite IH. destruct (String.eqb k0 k') eqn:H1; [| reflexivity].
      apply String.eqb_eq in H1. subst k0. now rewrite String.eqb_sym, H0.
Qed.

Lemma Map_get_In (k : string) (m : Map V) :
  In k (Map_keys m) <-> exists v, Map_get m k = Some v.
Proof.
  induction m as [|[k0 v0] m IH]; simpl.
  - split; [intros [] | intros [v H]; discriminate].
  - destruct (String.eqb k0 k) eqn:H0.
    + apply String.eqb_eq in H0. split; [eauto | auto].
    + apply String.eqb_neq in H0. rewrite <- IH. tauto.
Qed.

Lemma Map_set_same (k : string) (v : V) (m : Map V) :
  Map_get m k = Some v -> Map_set k v m = m.
Proof.
  induction m as [|[k0 v0] m IH]; simpl; [discriminate |].
  destruct (String.eqb k0 k); intros H.
  - now inversion H.
  - now rewrite IH.
Qed.

Lemma Map_set_fresh (k : string) (v : V) (m : Map V) :
  ~ In k (Map_keys m) -> Map_set k v m = m ++ [(k, v)].
Proof.
  induction m as [|[k0 v0] m IH]; simpl; intros H; [reflexivity |].
  destruct (String.eqb k0 k) eqn:H0.
  - apply String.eqb_eq in H0. tauto.
  - rewrite IH by tauto. reflexivity.
Qed.

Lemma Map_keys_set (k : string) (v : V) (m : Map V) :
  In k (Map_keys m) -> Map_keys (Map_set k v m) = Map_keys m.
Proof.
  induction m as [|[k0 v0] m IH]; simpl; [tauto |].
  destruct (String.eqb k0 k) eqn:H0; simpl; [reflexivity |].
  apply String.eqb_neq in H0. intros [H | H]; [contradiction |].
  now rewrite IH.
Qed.

Lemma Map_keys_set_In (k k' : string) (v : V) (m : Map V) :
  In k' (Map_keys (Map_set k v m)) <-> k' = k \/ In k' (Map_keys m).
Proof.
  rewrite !Map_get_In. setoid_rewrite Map_get_set.
  destruct (String.eqb k k') eqn:H.
  - apply String.eqb_eq in H. subst. split; eauto.
  - apply String.eqb_neq in H. split; [tauto |].
    intros [-> | H']; [contradiction | assumption].
Qed.

Lemma Map_set_distinct (k : string) (v : V) (m : Map V) :
  Stated.distinct_keys m -> Stated.distinct_keys (Map_set k v m).
Proof.
  unfold Stated.distinct_keys. intros H.
  destruct (in_dec string_dec k (Map_keys m)) as [Hin | Hout].
  - now rewrite Map_keys_set.
  - rewrite Map_set_fresh by assumption. unfold Map_keys in *.
    rewrite map_app. simpl.
    apply NoDup_app; [assumption | repeat constructor; intros [] |].
    intros x Hx [<- | []]. contradiction.
Qed.

(** Reading back the entries of a map rebuilds it. *)
Lemma Map_of_entries_app (acc l : Map V) :
  Stated.distinct_keys (acc ++ l) ->
  fold_left (fun m kv => Map_set (fst kv) (snd kv) m) l acc = acc ++ l.
Proof.
  unfold Stated.distinct_keys, Map_keys.
  revert acc. induction l as [|[k v] l IH]; intros acc H; simpl.
  - now rewrite app_nil_r.
  - rewrite Map_set_fresh.
    + rewrite IH; rewrite <- app_assoc; [reflexivity | exact H].
    + rewrite map_app in H. simpl in H.
      apply NoDup_remove_2 in H. intros Hin. apply H.
      apply in_or_app. left. exact Hin.
Qed.

Lemma Map_of_entries_id (m : Map V) :
  Stated.distinct_keys m -> Map_of_entries (Map_entries m) = m.
Proof. intros H. apply (Map_of_entries_app [] m H). Qed.

End MapFacts.

Section SetFacts.

Lemma Set_has_In (s : JSSet) (k : string) : Set_has s k = true <-> In k s.
Proof.
  unfold Set_has. rewrite existsb_exists. split.
  - intros [x [Hx Heq]]. apply String.eqb_eq in Heq. now subst.
  - intros H. exists k. split; [assumption | apply String.eqb_refl].
Qed.

Lemma Set_add_In (k x : string) (s : JSSet) :
  In x (Set_add k s) <-> x = k \/ In x s.
Proof.
  unfold Set_add. destruct (Set_has s k) eqn:H.
  - apply Set_has_In in H. split; [auto | intros [-> | ?]; assumption].
  - rewrite in_app_iff. simpl. intuition.
Qed.

Lemma Set_add_NoDup (k : string) (s : JSSet) :
  NoDup s -> NoDup (Set_add k s).
Proof.
  unfold Set_add. intros Hs. destruct (Set_has s k) eqn:H; [assumption |].
  apply NoDup_app; [assumption | repeat constructor; intros [] |].
  intros x Hx [<- | []].
  apply Set_has_In in Hx. congruence.
Qed.

Lemma add_all_In (l : list string) (s : JSSet) (x : string) :
  In x (fold_left (fun s k => Set_add k s) l s) <-> In x l \/ In x s.
Proof.
  revert s. induction l as [|k l IH]; intros s; simpl.
  - tauto.
  - rewrite IH, Set_add_In. intuition.
Qed.

Lemma add_all_NoDup (l : list string) (s : JSSet) :
  NoDup s -> NoDup (fold_left (fun s k => Set_add k s) l s).
Proof.
  revert s. induction l as [|k l IH]; intros s H; simpl; [assumption |].
  apply IH, Set_add_NoDup, H.
Qed.

Lemma Set_of_array_In (l : list string) (x : string) :
  In x (Set_of_array l) <-> In x l.
Proof. unfold Set_of_array. rewrite add_all_In. simpl. tauto. Qed.

Lemma Set_of_array_NoDup (l : list string) : NoDup (Set_of_array l).
Proof. apply add_all_NoDup. constructor. Qed.

End SetFacts.

(* ================================================================= *)
(** * [serialize] and [deserialize] *)

(** C9. Serialising a vectorizer and reading the result back restores its
    vocabulary, its IDF table and its fitted flag. *)
Theorem deserialize_serialize :
  forall v : TFIDFVectorizer,
    Stated.distinct_keys (vocabulary v) ->
    Stated.distinct_keys (idf v) ->
    vocabulary (deserialize (serialize v)) = vocabulary v
    /\ idf (deserialize (serialize v)) = idf v
    /\ fitted (deserialize (serialize v)) = fitted v.
Proof.
  intros v Hvocab Hidf. unfold deserialize, serialize. simpl.
  rewrite !Map_of_entries_id by assumption. auto.
Qed.

(** The maps that [deserialize] builds hold each key once. *)
Lemma Map_of_entries_distinct (V : Type) (l : list (string * V)) :
  Stated.distinct_keys (Map_of_entries l).
Proof.
  unfold Map_of_entries.
  assert (H : forall acc : Map V, Stated.distinct_keys acc ->
                Stated.distinct_keys
                  (fold_left (fun m kv => Map_set (fst kv) (snd kv) m) l acc)).
  { induction l as [|kv l IH]; intros acc Hacc; simpl; [assumption |].
    apply IH, Map_set_distinct, Hacc. }
  apply H. constructor.
Qed.

(* ================================================================= *)
(** * The vectorizer *)

Section VectorizerFacts.

Variable tokenize : string -> option (list string).
Variable stopword_eng : option (list string).

Let preprocess := preprocessText tokenize stopword_eng.

Lemma documentToVector_no_tokens (this : TFIDFVectorizer) (doc : string) :
  preprocess doc = [] ->
  documentToVector tokenize stopword_eng this doc
  = repeat (Fin 0) (Map_size (vocabulary this)).
Proof.
  intros H. unfold documentToVector. fold preprocess. fold (preprocess doc).
  rewrite H. reflexivity.
Qed.

(** C8. A document without surviving tokens is mapped to the vector of
    zeros whose length is the size of the vocabulary, and [transform] of
    that single document is the one-row matrix holding it: the division by
    the zero token count is never reached. *)
Theorem documentToVector_zero :
  forall (this : TFIDFVectorizer) (doc : string),
    fitted this = true ->
    preprocessText tokenize stopword_eng doc = [] ->
    documentToVector tokenize stopword_eng this doc
    = repeat (Fin 0) (Map_size (vocabulary this))
    /\ transform tokenize stopword_eng this [doc]
       = Return (mkMatrix 1 (Map_size (vocabulary this))
                          [repeat (Fin 0) (Map_size (vocabulary this))]).
Proof.
  intros this doc Hfit Hdoc. split.
  - apply documentToVector_no_tokens, Hdoc.
  - unfold transform. rewrite Hfit. simpl.
    rewrite (documentToVector_no_tokens this doc Hdoc).
    unfold new_Matrix. simpl.
    rewrite repeat_length, Nat.eqb_refl. reflexivity.
Qed.

End VectorizerFacts.

Lemma documentToVector_zero_witness :
  documentToVector Example.tokenize Example.stopword_eng
    (fit Example.tokenize Example.stopword_eng new_TFIDFVectorizer
         Example.documents)
    "The 42 of: (a) + 7, to - an!"
  = repeat (Fin 0) 6.
Proof.
  apply (proj1 (documentToVector_zero Example.tokenize Example.stopword_eng
                  (fit Example.tokenize Example.stopword_eng
                       new_TFIDFVectorizer Example.documents)
                  "The 42 of: (a) + 7, to - an!" eq_refl eq_refl)).
Defined.

(* ================================================================= *)
(** * [fit]: vocabulary and IDF table *)

Lemma fold_left_invariant (A B : Type) (P : A -> Prop) (f : A -> B -> A)
  (l : list B) (a : A) :
  P a -> (forall a b, P a -> P (f a b)) -> P (fold_left f l a).
Proof.
  intros Ha Hstep. revert a Ha.
  induction l as [|b l IH]; simpl; intros a Ha; auto.
Qed.

Lemma existsb_eqb_In (t : string) (l : list string) :
  existsb (String.eqb t) l = true <-> In t l.
Proof. apply Set_has_In. Qed.

Lemma existsb_eqb_same (t : string) (l l' : list string) :
  (forall x, In x l <-> In x l') ->
  existsb (String.eqb t) l = existsb (String.eqb t) l'.
Proof.
  intros H. destruct (existsb (String.eqb t) l) eqn:E.
  - symmetry. apply existsb_eqb_In, H, existsb_eqb_In, E.
  - destruct (existsb (String.eqb t) l') eqn:E'; [| reflexivity].
    apply existsb_eqb_In, H, existsb_eqb_In in E'. congruence.
Qed.

Section Counters.

Lemma count_of_bump (m : Map nat) (t t' : string) :
  count_of (bump m t) t'
  = if String.eqb t t' then count_of m t + 1 else count_of m t'.
Proof.
  unfold bump, count_of at 1. rewrite Map_get_set.
  destruct (String.eqb t t') eqn:H; reflexivity.
Qed.

Lemma count_of_bump_all (s : list string) (m : Map nat) (t : string) :
  NoDup s ->
  count_of (fold_left bump s m) t
  = count_of m t + (if existsb (String.eqb t) s then 1 else 0).
Proof.
  intros Hs. revert m. induction Hs as [|k s Hk Hs IH]; intros m; simpl.
  - lia.
  - rewrite IH, count_of_bump.
    destruct (String.eqb k t) eqn:Hkt.
    + apply String.eqb_eq in Hkt. subst k.
      rewrite String.eqb_refl. simpl.
      destruct (existsb (String.eqb t) s) eqn:E; [| lia].
      apply existsb_eqb_In in E. contradiction.
    + rewrite String.eqb_sym, Hkt. simpl. reflexivity.
Qed.

End Counters.

Section FitFacts.

Variable tokenize : string -> option (list string).
Variable stopword_eng : option (list string).

Let preprocess := preprocessText tokenize stopword_eng.
Let df := Stated.document_frequency preprocess.

Lemma collect_from_In (docs : list string) (s : JSSet) (x : string) :
  In x (fold_left
          (fun vocabSet doc =>
             fold_left (fun s token => Set_add token s) (preprocess doc)
                       vocabSet)
          docs s)
  <-> (exists doc, In doc docs /\ In x (preprocess doc)) \/ In x s.
Proof.
  revert s. induction docs as [|d docs IH]; intros s; simpl.
  - split; [auto | intros [[doc [[] _]] | H]; assumption].
  - rewrite IH, add_all_In. split.
    + intros [[doc [Hd Hx]] | [Hx | Hx]]; eauto.
    + intros [[doc [[<- | Hd] Hx]] | Hx]; eauto.
Qed.

Lemma collect_tokens_In (docs : list string) (x : string) :
  In x (collect_tokens tokenize stopword_eng docs)
  <-> exists doc, In doc docs /\ In x (preprocess doc).
Proof.
  unfold collect_tokens. fold preprocess. rewrite collect_from_In.
  simpl. tauto.
Qed.

Lemma collect_tokens_NoDup (docs : list string) :
  NoDup (collect_tokens tokenize stopword_eng docs).
Proof.
  unfold collect_tokens. apply fold_left_invariant; [constructor |].
  intros s doc Hs. apply add_all_NoDup, Hs.
Qed.

Lemma df_cons (t doc : string) (docs : list string) :
  df t (doc :: docs)
  = (if existsb (String.eqb t) (preprocess doc) then 1 else 0) + df t docs.
Proof.
  unfold df, Stated.document_frequency. simpl.
  destruct (existsb (String.eqb t) (preprocess doc)); reflexivity.
Qed.

Lemma df_le (t : string) (docs : list string) :
  df t docs <= List.length docs.
Proof. apply filter_length_le. Qed.

Lemma df_pos (t : string) (docs : list string) :
  (exists doc, In doc docs /\ In t (preprocess doc)) -> 1 <= df t docs.
Proof.
  intros [doc [Hd Ht]]. induction docs as [|d docs IH]; [contradiction |].
  rewrite df_cons. destruct Hd as [-> | Hd].
  - apply existsb_eqb_In in Ht. rewrite Ht. lia.
  - specialize (IH Hd). lia.
Qed.

Lemma count_from_df (docs : list string) (m : Map nat) (t : string) :
  count_of
    (fold_left
       (fun termDocCount doc =>
          fold_left bump (Set_of_array (preprocess doc)) termDocCount)
       docs m) t
  = count_of m t + df t docs.
Proof.
  revert m. induction docs as [|d docs IH]; intros m; simpl.
  - unfold df, Stated.document_frequency. simpl. lia.
  - rewrite IH, count_of_bump_all by apply Set_of_array_NoDup.
    rewrite df_cons.
    rewrite (existsb_eqb_same t (Set_of_array (preprocess d)) (preprocess d))
      by (intros x; apply Set_of_array_In).
    lia.
Qed.

Lemma count_documents_df (docs : list string) (t : string) :
  count_of (count_documents tokenize stopword_eng docs) t = df t docs.
Proof.
  unfold count_documents. fold preprocess. now rewrite count_from_df.
Qed.

End FitFacts.

Section Indices.

(** The loop of [assign_indices], started at any index. *)
Let step (acc : Map nat * nat) (token : string) : Map nat * nat :=
  (Map_set token (snd acc) (fst acc), S (snd acc)).

Lemma assign_keys (l : list string) (m : Map nat) (n : nat) (t : string) :
  In t (Map_keys (fst (fold_left step l (m, n))))
  <-> In t l \/ In t (Map_keys m).
Proof.
  revert m n. induction l as [|k l IH]; intros m n.
  - simpl. tauto.
  - change (fold_left step (k :: l) (m, n))
      with (fold_left step l (Map_set k n m, S n)).
    rewrite IH, Map_keys_set_In. simpl. intuition.
Qed.

Lemma assign_get_other (l : list string) (m : Map nat) (n : nat)
  (t : string) :
  ~ In t l -> Map_get (fst (fold_left step l (m, n))) t = Map_get m t.
Proof.
  revert m n. induction l as [|k l IH]; intros m n H.
  - reflexivity.
  - change (fold_left step (k :: l) (m, n))
      with (fold_left step l (Map_set k n m, S n)).
    rewrite IH by (simpl in H; tauto). rewrite Map_get_set.
    destruct (String.eqb k t) eqn:E; [| reflexivity].
    apply String.eqb_eq in E. simpl in H. tauto.
Qed.

Lemma assign_get_nth (l : list string) (m : Map nat) (n i : nat)
  (t : string) :
  NoDup l -> nth_error l i = Some t ->
  Map_get (fst (fold_left step l (m, n))) t = Some (n + i).
Proof.
  intros Hl. revert m n i.
  induction Hl as [|k l Hk Hl IH]; intros m n i H.
  - destruct i; discriminate.
  - change (fold_left step (k :: l) (m, n))
      with (fold_left step l (Map_set k n m, S n)).
    destruct i as [|i]; simpl in H.
    + inversion H; subst. rewrite assign_get_other by assumption.
      rewrite Map_get_set, String.eqb_refl. f_equal. lia.
    + rewrite (IH _ _ i H). f_equal. lia.
Qed.

Lemma assign_fixed (l : list string) (m : Map nat) (n : nat) :
  (forall i t, nth_error l i = Some t -> Map_get m t = Some (n + i)) ->
  fold_left step l (m, n) = (m, n + List.length l).
Proof.
  revert n. induction l as [|k l IH]; intros n H.
  - simpl. f_equal. lia.
  - change (fold_left step (k :: l) (m, n))
      with (fold_left step l (Map_set k n m, S n)).
    rewrite Map_set_same.
    + rewrite IH; [simpl; f_equal; lia |].
      intros i t Hi. rewrite (H (S i) t Hi). f_equal. lia.
    + rewrite (H 0 k eq_refl). f_equal. lia.
Qed.

Lemma assign_twice (l : list string) (m : Map nat) :
  NoDup l ->
  fst (assign_indices l (fst (assign_indices l m)))
  = fst (assign_indices l m).
Proof.
  intros Hl. unfold assign_indices. fold step.
  rewrite (assign_fixed l (fst (fold_left step l (m, 0))) 0); [reflexivity |].
  intros i t Hi. apply assign_get_nth; assumption.
Qed.

Lemma assign_distinct (l : list string) (m : Map nat) :
  Stated.distinct_keys m -> Stated.distinct_keys (fst (assign_indices l m)).
Proof.
  intros H. unfold assign_indices.
  apply (fold_left_invariant
           (fun acc : Map nat * nat => Stated.distinct_keys (fst acc)));
    [exact H |].
  intros acc t Hacc. simpl. apply Map_set_distinct, Hacc.
Qed.

End Indices.

Section Weights.

Variable weight : string -> number.

(** The loop of [calculateIDF] over the vocabulary. *)
Let record (table : Map number) (entry : string * nat) : Map number :=
  Map_set (fst entry) (weight (fst entry)) table.

Lemma weights_get (vocab : Map nat) (table : Map number) (t : string) :
  Map_get (fold_left record vocab table) t
  = if Set_has (Map_keys vocab) t then Some (weight t) else Map_get table t.
Proof.
  revert table. induction vocab as [|[k i] vocab IH]; intros table.
  - reflexivity.
  - change (fold_left record ((k, i) :: vocab) table)
      with (fold_left record vocab (Map_set k (weight k) table)).
    rewrite IH, Map_get_set.
    change (Set_has (Map_keys ((k, i) :: vocab)) t)
      with (String.eqb t k || Set_has (Map_keys vocab) t)%bool.
    destruct (String.eqb t k) eqn:E.
    + apply String.eqb_eq in E. subst k. rewrite String.eqb_refl. simpl.
      destruct (Set_has (Map_keys vocab) t); reflexivity.
    + rewrite String.eqb_sym, E. reflexivity.
Qed.

Lemma weights_fixed (vocab : Map nat) (table : Map number) :
  (forall t, In t (Map_keys vocab) -> Map_get table t = Some (weight t)) ->
  fold_left record vocab table = table.
Proof.
  induction vocab as [|[k i] vocab IH]; intros H; [reflexivity |].
  change (fold_left record ((k, i) :: vocab) table)
    with (fold_left record vocab (Map_set k (weight k) table)).
  rewrite Map_set_same.
  - apply IH. intros t Ht. apply H. right. exact Ht.
  - apply H. left. reflexivity.
Qed.

Lemma weights_twice (vocab : Map nat) (table : Map number) :
  fold_left record vocab (fold_left record vocab table)
  = fold_left record vocab table.
Proof.
  apply weights_fixed. intros t Ht. rewrite weights_get.
  apply Set_has_In in Ht. now rewrite Ht.
Qed.

Lemma weights_distinct (vocab : Map nat) (table : Map number) :
  Stated.distinct_keys table ->
  Stated.distinct_keys (fold_left record vocab table).
Proof.
  intros H. apply fold_left_invariant; [exact H |].
  intros acc entry Hacc. apply Map_set_distinct, Hacc.
Qed.

End Weights.

Section FitTheorems.

Variable tokenize : string -> option (list string).
Variable stopword_eng : option (list string).

Let preprocess := preprocessText tokenize stopword_eng.
Let df := Stated.document_frequency preprocess.
Let fit := fit tokenize stopword_eng.

(** The weight that [calculateIDF] records for a token. *)
Let weight (docs : list string) (token : string) : number :=
  idf_weight (List.length docs)
             (count_of (count_documents tokenize stopword_eng docs) token).

Lemma fit_vocabulary (this : TFIDFVectorizer) (docs : list string) :
  vocabulary (fit this docs)
  = fst (assign_indices (collect_tokens tokenize stopword_eng docs)
                        (vocabulary this)).
Proof. reflexivity. Qed.

Lemma fit_idf (this : TFIDFVectorizer) (docs : list string) :
  idf (fit this docs)
  = fold_left (fun table entry =>
                 Map_set (fst entry) (weight docs (fst entry)) table)
              (vocabulary (fit this docs)) (idf this).
Proof. reflexivity. Qed.

Lemma fit_fields (this : TFIDFVectorizer) (docs : list string) :
  fit this docs
  = mkVectorizer (vocabulary (fit this docs)) (idf (fit this docs)) docs true.
Proof. reflexivity. Qed.

Lemma fit_vocabulary_In (this : TFIDFVectorizer) (docs : list string)
  (token : string) :
  In token (Map_keys (vocabulary (fit this docs)))
  <-> (exists doc, In doc docs /\ In token (preprocess doc))
      \/ In token (Map_keys (vocabulary this)).
Proof.
  rewrite fit_vocabulary. unfold assign_indices. rewrite assign_keys.
  rewrite collect_tokens_In. reflexivity.
Qed.

Lemma idf_weight_formula (n d : nat) :
  d <= n -> idf_weight n d = Stated.idf_formula n d.
Proof.
  intros Hle. unfold idf_weight, Stated.idf_formula.
  destruct d as [|d]; [reflexivity |]. simpl Nat.ltb. simpl Nat.eqb. cbv iota.
  assert (Hd : (0 < INR (S d))%R) by (apply lt_0_INR; lia).
  assert (Hn : (INR (S d) <= INR n)%R) by (apply le_INR; lia).
  unfold of_nat, div.
  replace (Reqb (INR (S d)) 0) with false
    by (symmetry; apply Reqb_false; lra).
  assert (Hq : (1 <= INR n / INR (S d))%R).
  { apply Rmult_le_reg_r with (INR (S d)); [assumption |].
    unfold Rdiv. rewrite Rmult_assoc, Rinv_l by lra. lra. }
  unfold Math_log.
  replace (Rltb (INR n / INR (S d)) 0) with false
    by (symmetry; apply Rltb_false; lra).
  replace (Reqb (INR n / INR (S d)) 0) with false
    by (symmetry; apply Reqb_false; lra).
  reflexivity.
Qed.

Lemma fit_idf_get (this : TFIDFVectorizer) (docs : list string)
  (token : string) :
  In token (Map_keys (vocabulary (fit this docs))) ->
  Map_get (idf (fit this docs)) token
  = Some (Stated.idf_formula (List.length docs) (df token docs)).
Proof.
  intros Hin. rewrite fit_idf, weights_get.
  apply Set_has_In in Hin. rewrite Hin. f_equal.
  unfold weight. rewrite count_documents_df.
  apply idf_weight_formula, df_le.
Qed.

Lemma ln_ratio_nonneg (n d : nat) :
  1 <= d <= n -> (0 <= ln (INR n / INR d))%R.
Proof.
  intros [Hd Hn].
  assert (Hd' : (0 < INR d)%R) by (apply lt_0_INR; lia).
  assert (Hn' : (INR d <= INR n)%R) by (apply le_INR; lia).
  assert (Hq : (1 <= INR n / INR d)%R).
  { apply Rmult_le_reg_r with (INR d); [assumption |].
    unfold Rdiv. rewrite Rmult_assoc, Rinv_l by lra. lra. }
  destruct Hq as [Hq | <-].
  - rewrite <- ln_1. left. apply ln_increasing; lra.
  - rewrite ln_1. lra.
Qed.

(** C4. After [fit] on a new vectorizer, every vocabulary term occurs in at
    least one and at most all of the documents, its IDF weight is
    [ln (docCount / df)], which is non-negative and is 0 when the term
    occurs in every document.  Fitting any vectorizer, whatever vocabulary
    it held before, gives each vocabulary term the weight
    [ln (docCount / df)], or 0 when [df] is 0. *)
Theorem idf_after_fit :
  forall (docs : list string) (token : string),
    In token
       (Map_keys (vocabulary
          (TFIDF.fit tokenize stopword_eng new_TFIDFVectorizer docs))) ->
    1 <= Stated.document_frequency
           (preprocessText tokenize stopword_eng) token docs
      <= List.length docs
    /\ Map_get (idf (TFIDF.fit tokenize stopword_eng new_TFIDFVectorizer
                               docs)) token
       = Some (Fin (ln (INR (List.length docs)
                        / INR (Stated.document_frequency
                                 (preprocessText tokenize stopword_eng)
                                 token docs))))
    /\ (0 <= ln (INR (List.length docs)
                 / INR (Stated.document_frequency
                          (preprocessText tokenize stopword_eng)
                          token docs)))%R
    /\ (Stated.document_frequency
          (preprocessText tokenize stopword_eng) token docs
        = List.length docs ->
        Map_get (idf (TFIDF.fit tokenize stopword_eng new_TFIDFVectorizer
                                docs)) token
        = Some (Fin 0))
    /\ (forall this : TFIDFVectorizer,
          In token
             (Map_keys (vocabulary
                (TFIDF.fit tokenize stopword_eng this docs))) ->
          Map_get (idf (TFIDF.fit tokenize stopword_eng this docs)) token
          = Some (Stated.idf_formula
                    (List.length docs)
                    (Stated.document_frequency
                       (preprocessText tokenize stopword_eng) token docs))).
Proof.
  intros docs token Hin. fold preprocess. fold df. fold fit.
  assert (Hdf : 1 <= df token docs <= List.length docs).
  { split; [| apply df_le].
    apply fit_vocabulary_In in Hin as [H | []]. apply df_pos, H. }
  assert (Hget : Map_get (idf (fit new_TFIDFVectorizer docs)) token
                 = Some (Fin (ln (INR (List.length docs)
                                  / INR (df token docs))))).
  { rewrite (fit_idf_get _ _ _ Hin). unfold Stated.idf_formula.
    destruct (df token docs =? 0) eqn:E; [| reflexivity].
    apply Nat.eqb_eq in E. lia. }
  repeat split; try apply Hdf; try exact Hget.
  - apply ln_ratio_nonneg, Hdf.
  - intros Hall. rewrite Hget, Hall. do 2 f_equal.
    unfold Rdiv. rewrite Rinv_r; [apply ln_1 |].
    apply not_0_INR. lia.
  - intros this Hthis. apply fit_idf_get, Hthis.
Qed.

Lemma fit_vocabulary_order (this : TFIDFVectorizer) (docs : list string)
  (i : nat) (token : string) :
  nth_error (collect_tokens tokenize stopword_eng docs) i = Some token ->
  Map_get (vocabulary (fit this docs)) token = Some i.
Proof.
  intros H. rewrite fit_vocabulary. unfold assign_indices.
  apply (@assign_get_nth _ (vocabulary this) 0 i token
           (collect_tokens_NoDup tokenize stopword_eng docs) H).
Qed.

(** C7. Running [fit] again on the same documents leaves the vectorizer as
    the first run made it: the same indices for the same terms, the same
    IDF weights, and so the same vectors from [transform].  Two runs on the
    same documents, whatever the vectorizers held before, give every term
    of the documents the same index, its position in the order of
    discovery, and the same weight. *)
Theorem fit_deterministic :
  forall (this : TFIDFVectorizer) (docs : list string),
    TFIDF.fit tokenize stopword_eng
              (TFIDF.fit tokenize stopword_eng this docs) docs
    = TFIDF.fit tokenize stopword_eng this docs
    /\ (forall others : list string,
          transform tokenize stopword_eng
                    (TFIDF.fit tokenize stopword_eng
                       (TFIDF.fit tokenize stopword_eng this docs) docs)
                    others
          = transform tokenize stopword_eng
                      (TFIDF.fit tokenize stopword_eng this docs) others)
    /\ (forall (other : TFIDFVectorizer) (i : nat) (token : string),
          nth_error (collect_tokens tokenize stopword_eng docs) i
          = Some token ->
          Map_get (vocabulary (TFIDF.fit tokenize stopword_eng this docs))
                  token = Some i
          /\ Map_get (vocabulary (TFIDF.fit tokenize stopword_eng other
                                            docs)) token = Some i
          /\ Map_get (idf (TFIDF.fit tokenize stopword_eng this docs)) token
             = Map_get (idf (TFIDF.fit tokenize stopword_eng other docs))
                       token).
Proof.
  intros this docs. fold fit.
  assert (Hvocab : vocabulary (fit (fit this docs) docs)
                   = vocabulary (fit this docs)).
  { rewrite (fit_vocabulary (fit this docs)), (fit_vocabulary this).
    apply assign_twice, collect_tokens_NoDup. }
  assert (Hidf : idf (fit (fit this docs) docs) = idf (fit this docs)).
  { rewrite (fit_idf (fit this docs)), Hvocab, (fit_idf this).
    apply weights_twice. }
  assert (Hfit : fit (fit this docs) docs = fit this docs).
  { rewrite (fit_fields (fit this docs)), Hvocab, Hidf. reflexivity. }
  split; [exact Hfit |]. split; [intros others; f_equal; exact Hfit |].
  intros other i token Hi.
  pose proof (fit_vocabulary_order this docs i Hi) as Hthis.
  pose proof (fit_vocabulary_order other docs i Hi) as Hother.
  repeat split; try assumption.
  rewrite !fit_idf_get; [reflexivity | |];
    apply Map_get_In; eauto.
Qed.

(** [fit] keeps the keys of both maps distinct. *)
Lemma fit_distinct (this : TFIDFVectorizer) (docs : list string) :
  Stated.distinct_keys (vocabulary this) ->
  Stated.distinct_keys (idf this) ->
  Stated.distinct_keys (vocabulary (fit this docs))
  /\ Stated.distinct_keys (idf (fit this docs)).
Proof.
  intros Hv Hi. split.
  - rewrite fit_vocabulary. apply assign_distinct, Hv.
  - rewrite fit_idf. apply weights_distinct, Hi.
Qed.

End FitTheorems.

Lemma idf_after_fit_witness :
  Map_get (idf (fit Example.tokenize Example.stopword_eng
                    new_TFIDFVectorizer Example.documents)) "tree"
  = Some (Fin (ln (INR 3 / INR 2))).
Proof.
  assert (Hin : In "tree"
                  (Map_keys (vocabulary
                     (fit Example.tokenize Example.stopword_eng
                          new_TFIDFVectorizer Example.documents)))).
  { rewrite fit_vocabulary. vm_compute. tauto. }
  destruct (idf_after_fit Example.tokenize Example.stopword_eng
              Example.documents "tree" Hin) as [_ [Hget _]].
  exact Hget.
Defined.

Lemma deserialize_serialize_witness :
  vocabulary
    (deserialize
       (serialize (fit Example.tokenize Example.stopword_eng
                       new_TFIDFVectorizer Example.documents)))
  = vocabulary (fit Example.tokenize Example.stopword_eng
                    new_TFIDFVectorizer Example.documents).
Proof.
  destruct (fit_distinct Example.tokenize Example.stopword_eng
              new_TFIDFVectorizer Example.documents)
    as [Hvocab Hidf]; [constructor | constructor |].
  exact (proj1 (deserialize_serialize
                  (fit Example.tokenize Example.stopword_eng
                       new_TFIDFVectorizer Example.documents)
                  Hvocab Hidf)).
Defined.

(* ================================================================= *)
(** * [query]: the exception boundary *)

Section QueryBoundary.

Variable tokenize : string -> option (list string).
Variable stopword_eng : option (list string).

Let query := query tokenize stopword_eng.
Let answer := answer tokenize stopword_eng.

(** The two steps of [query]: the lazy initialisation, then the guarded
    answer on the module it leaves. *)
Lemma query_steps (disk : Storage) (this : CodeforceModule)
  (queryText : value) (threshold : option number) :
  query disk this queryText threshold
  = (try_catch
       (_ <- fst (if initialized this then (Return tt, this)
                  else initialize disk this) ;;
        answer (snd (if initialized this then (Return tt, this)
                     else initialize disk this))
               queryText (threshold_or_default threshold))
       (fun _ => Return []),
     snd (if initialized this then (Return tt, this)
          else initialize disk this)).
Proof.
  unfold query, Codeforce.query.
  destruct (if initialized this then (Return tt, this)
            else initialize disk this) as [ready this'].
  reflexivity.
Qed.

End QueryBoundary.

(* ================================================================= *)
(** * [fallbackSearch] *)

Lemma seq_in_range (n : nat) : Forall (fun i => i < n) (seq 0 n).
Proof. apply Forall_forall. intros i Hi. apply in_seq in Hi. lia. Qed.

Section FallbackLoop.

Variable this : CodeforceModule.
Variable names : list string.
Variable queryTerms : list string.
Variable threshold : number.

(** The entry that one round of the loop pushes, if any. *)
Let pick (urls : list string) (i : nat) : list entry :=
  let score := name_score queryTerms (toLowerCase (string_at names i)) in
  if ge score threshold
  then [mkEntry (nth_error names i) (nth_error urls i) (round3 score)
                (Some i)]
  else [].

Lemma visit_loop (urls : list string) (l : list nat) (acc : list entry) :
  problemUrls this = Some urls ->
  Forall (fun i => i < List.length names) l ->
  fold_left (visit this names queryTerms threshold) l (Return acc)
  = Return (acc ++ flat_map (pick urls) l).
Proof.
  intros Hurls Hl. revert acc.
  induction Hl as [|i l Hi Hl IH]; intros acc.
  - simpl. now rewrite app_nil_r.
  - assert (Hstep : visit this names queryTerms threshold (Return acc) i
                    = Return (acc ++ pick urls i)).
    { unfold visit, pick, string_at. simpl.
      destruct (nth_error names i) as [rawName |] eqn:Hname;
        [| apply nth_error_None in Hname; lia].
      simpl.
      destruct (ge (name_score queryTerms (toLowerCase rawName)) threshold).
      - rewrite Hurls. reflexivity.
      - now rewrite app_nil_r. }
    change (fold_left (visit this names queryTerms threshold) (i :: l)
                      (Return acc))
      with (fold_left (visit this names queryTerms threshold) l
                      (visit this names queryTerms threshold (Return acc) i)).
    rewrite Hstep, IH, <- app_assoc. reflexivity.
Qed.

End FallbackLoop.

Section OverlapScore.

Local Open Scope R_scope.

Lemma hits_cons (p : string -> bool) (t : string) (ts : list string) :
  INR (Stated.hits p (t :: ts))
  = (if p t then 1 else 0) + INR (Stated.hits p ts).
Proof.
  unfold Stated.hits. simpl filter. destruct (p t).
  - simpl List.length. rewrite S_INR. lra.
  - lra.
Qed.

Lemma add_terms_sum (lowered : string) (ts : list string) (s : R) :
  fold_left (add_term lowered) ts (Fin s)
  = Fin (s + (0.5 * INR (Stated.hits (includes lowered) ts)
              + 0.2 * INR (Stated.hits
                             (fun t => includes lowered (shortened t)) ts))).
Proof.
  revert s. induction ts as [|t ts IH]; intros s.
  - simpl. f_equal. lra.
  - change (fold_left (add_term lowered) (t :: ts) (Fin s))
      with (fold_left (add_term lowered) ts (add_term lowered (Fin s) t)).
    rewrite !hits_cons. unfold add_term.
    destruct (includes lowered t), (includes lowered (shortened t));
      simpl add; rewrite IH; f_equal; lra.
Qed.

Lemma name_score_overlap (ts : list string) (problem : string) :
  name_score ts (toLowerCase problem) = Stated.overlap ts problem.
Proof.
  unfold name_score, Stated.overlap. rewrite add_terms_sum.
  now rewrite Rplus_0_l.
Qed.

End OverlapScore.

Section FallbackAnswer.

Variable names urls : list string.
Variable queryTerms : list string.
Variable threshold : number.

Let pick (i : nat) : list entry :=
  let score := name_score queryTerms (toLowerCase (string_at names i)) in
  if ge score threshold
  then [mkEntry (nth_error names i) (nth_error urls i) (round3 score)
                (Some i)]
  else [].

Let keep (ip : nat * string) : bool :=
  ge (Stated.overlap queryTerms (snd ip)) threshold.

Let make (ip : nat * string) : entry :=
  mkEntry (Some (snd ip)) (nth_error urls (fst ip))
          (round3 (Stated.overlap queryTerms (snd ip))) (Some (fst ip)).

Lemma pick_numbered (rest : list string) (a : nat) :
  (forall j, j < List.length rest ->
             nth_error names (a + j) = nth_error rest j) ->
  flat_map pick (seq a (List.length rest))
  = map make (filter keep (Stated.numbered a rest)).
Proof.
  revert a. induction rest as [|p rest IH]; intros a H; [reflexivity |].
  assert (Hp : nth_error names a = Some p).
  { rewrite <- (Nat.add_0_r a). rewrite (H 0); [reflexivity | simpl; lia]. }
  assert (Hrest : flat_map pick (seq (S a) (List.length rest))
                  = map make (filter keep (Stated.numbered (S a) rest))).
  { apply IH. intros j Hj. replace (S a + j) with (a + S j) by lia.
    apply (H (S j)). simpl. lia. }
  simpl. rewrite Hrest. unfold pick at 1, keep at 2, string_at.
  rewrite Hp, name_score_overlap. simpl.
  destruct (ge (Stated.overlap queryTerms p) threshold); reflexivity.
Qed.

Lemma loop_kept :
  flat_map pick (seq 0 (List.length names))
  = Stated.kept queryTerms names urls threshold.
Proof. apply pick_numbered. intros j _. reflexivity. Qed.

End FallbackAnswer.

Lemma round3_not_NaN (a : number) : a <> NaN -> round3 a <> NaN.
Proof.
  assert (H1000 : Reqb 1000 0 = false) by (apply Reqb_false; lra).
  assert (Hpos : Rltb 0 1000 = true) by (apply Rltb_true; lra).
  assert (Hle : Rleb 0 1000 = true) by (apply Rleb_true; lra).
  assert (Hneg : Rltb 1000 0 = false) by (apply Rltb_false; lra).
  destruct a; intros H; unfold round3; simpl;
    rewrite ?H1000, ?Hpos, ?Hle, ?Hneg; simpl;
    rewrite ?H1000, ?Hpos, ?Hle, ?Hneg; simpl; congruence.
Qed.

Lemma kept_scores (ts names urls : list string) (threshold : number) :
  Forall (fun e => entry_score e <> NaN)
         (Stated.kept ts names urls threshold).
Proof.
  unfold Stated.kept. apply Forall_forall. intros e He.
  apply in_map_iff in He as [[i p] [<- Hip]].
  apply filter_In in Hip as [_ Hge]. simpl in *.
  apply round3_not_NaN. apply ge_not_NaN in Hge. tauto.
Qed.

Lemma fallbackSearch_kept (this : CodeforceModule)
  (names urls : list string) (queryText : string) (threshold : number) :
  problemNames this = Some names ->
  problemUrls this = Some urls ->
  fallbackSearch this queryText threshold
  = Return (firstn 50
              (Array_sort by_entry_score
                 (Stated.kept (Stated.terms (toLowerCase queryText))
                              names urls threshold))).
Proof.
  intros Hnames Hurls. unfold fallbackSearch. rewrite Hnames.
  destruct (List.length names =? 0) eqn:Hlen.
  - apply Nat.eqb_eq in Hlen. destruct names; [reflexivity | discriminate].
  - fold (Stated.terms (toLowerCase queryText)).
    rewrite visit_loop with (urls := urls)
      by (try exact Hurls; apply seq_in_range).
    simpl app. rewrite loop_kept. reflexivity.
Qed.

(** The overlap score for a query that has terms. *)
Lemma overlap_value (ts : list string) (problem : string) :
  ts <> [] ->
  Stated.overlap ts problem
  = Fin ((0.5 * INR (Stated.hits (includes (toLowerCase problem)) ts)
          + 0.2 * INR (Stated.hits
                         (fun x => includes (toLowerCase problem)
                                            (shortened x)) ts))
         / INR (List.length ts)).
Proof.
  intros Hts. unfold Stated.overlap, of_nat, div.
  replace (Reqb (INR (List.length ts)) 0) with false; [reflexivity |].
  symmetry. apply Reqb_false. apply not_0_INR.
  destruct ts; [congruence | discriminate].
Qed.

(* ================================================================= *)
(** * Worked examples *)

Example split_ws_pieces :
  split_ws "  binary   search " = [""; "binary"; "search"; ""].
Proof. reflexivity. Qed.

Example terms_of_query :
  Stated.terms (toLowerCase "DP on a Binary tree") = ["binary"; "tree"].
Proof. reflexivity. Qed.

Example shortened_terms :
  map shortened ["binary"; "search"; "tree"; "dp"]
  = ["bina"; "sear"; "tre"; "dp"].
Proof. reflexivity. Qed.

Example preprocessText_tokens :
  preprocessText Example.tokenize Example.stopword_eng
                 "The 2 Trees of a Graph: x, DFS!"
  = ["trees"; "graph"; "dfs"].
Proof. reflexivity. Qed.

Example fit_vocabulary_indices :
  fst (assign_indices
         (collect_tokens Example.tokenize Example.stopword_eng
                         Example.documents) [])
  = [("binary", 0); ("search", 1); ("tree", 2); ("algorithm", 3);
     ("graph", 4); ("sorting", 5)].
Proof. reflexivity. Qed.

Example getTopSimilar_top_two :
  getTopSimilar [Fin 0.1; Fin 0.9; Fin 0.005; NaN; Fin 0.5] 2 (Fin 0.01)
  = [mkItem 1 (Fin 0.9); mkItem 4 (Fin 0.5)].
Proof.
  unfold getTopSimilar. simpl with_index. unfold filter, ge, score.
  repeat real_test. cbv iota.
  unfold Array_sort, sort_insert, by_score, score, sub, neg, add, gt0.
  repeat real_test. cbv iota. reflexivity.
Qed.

(** The query [binary search] on a placeholder matrix: [Binary Search Tree]
    scores 0.7 and [Binary Lifting] 0.35, in this order though the latter
    is listed first; [Graph Coloring] scores 0 and is not returned. *)
Example fallback_two_results :
  fst (query Example.tokenize Example.stopword_eng
             (mkStorage (Return true) (Throw "") (Throw ""))
             Example.three_problems
             (VString "binary search") None)
  = Return [mkEntry (Some "Binary Search Tree")
                    (Some "https://codeforces.com/3") (Fin 0.7) (Some 2);
            mkEntry (Some "Binary Lifting")
                    (Some "https://codeforces.com/1") (Fin 0.35) (Some 0)].
Proof.
  unfold Example.three_problems. rewrite query_steps. simpl fst. simpl snd. cbv beta iota.
  unfold bind, answer. simpl String.eqb. cbv iota. simpl deref.
  cbv iota beta. simpl andb. cbv iota.
  rewrite (@fallbackSearch_kept _
             ["Binary Lifting"; "Graph Coloring"; "Binary Search Tree"]
             ["https://codeforces.com/1"; "https://codeforces.com/2";
              "https://codeforces.com/3"])
    by reflexivity.
  change (Stated.terms (toLowerCase "binary search"))
    with ["binary"; "search"].
  unfold Stated.kept, Stated.numbered, filter, snd, fst.
  rewrite !overlap_value by discriminate.
  change (Stated.hits (includes (toLowerCase "Binary Search Tree"))
                      ["binary"; "search"]) with 2.
  change (Stated.hits
            (fun x => includes (toLowerCase "Binary Search Tree")
                               (shortened x)) ["binary"; "search"]) with 2.
  change (Stated.hits (includes (toLowerCase "Binary Lifting"))
                      ["binary"; "search"]) with 1.
  change (Stated.hits
            (fun x => includes (toLowerCase "Binary Lifting")
                               (shortened x)) ["binary"; "search"]) with 1.
  change (Stated.hits (includes (toLowerCase "Graph Coloring"))
                      ["binary"; "search"]) with 0.
  change (Stated.hits
            (fun x => includes (toLowerCase "Graph Coloring") (shortened x))
            ["binary"; "search"]) with 0.
  unfold threshold_or_default, default_threshold, ge.
  simpl INR. repeat real_test. cbv iota.
  simpl map. rewrite !overlap_value by discriminate.
  change (Stated.hits (includes (toLowerCase "Binary Search Tree"))
                      ["binary"; "search"]) with 2.
  change (Stated.hits
            (fun x => includes (toLowerCase "Binary Search Tree")
                               (shortened x)) ["binary"; "search"]) with 2.
  change (Stated.hits (includes (toLowerCase "Binary Lifting"))
                      ["binary"; "search"]) with 1.
  change (Stated.hits
            (fun x => includes (toLowerCase "Binary Lifting")
                               (shortened x)) ["binary"; "search"]) with 1.
  simpl INR.
  rewrite round3_value with (z := 350%Z) by lra.
  rewrite round3_value with (z := 700%Z) by lra.
  replace (IZR 700 / 1000)%R with 0.7%R by lra.
  replace (IZR 350 / 1000)%R with 0.35%R by lra.
  unfold Array_sort, sort_insert, by_entry_score, entry_score, sub, neg,
    add, gt0.
  repeat real_test. cbv iota. reflexivity.
Qed.

(** A vectorizer that was never fitted: the primary path raises inside
    [query], and the caller sees the empty list. *)
Example query_unfitted :
  fst (query Example.tokenize Example.stopword_eng
             (mkStorage (Return true) (Throw "") (Throw ""))
             (mkModule (Some new_TFIDFVectorizer)
                       (Some (mkMatrix 2 2 [[Fin 0; Fin 1]; [Fin 1; Fin 0]]))
                       (Some ["Two Sum"; "Binary Search"])
                       (Some ["https://codeforces.com/1";
                              "https://codeforces.com/2"])
                       true)
             (VString "binary search") None)
  = Return [].
Proof. reflexivity. Qed.

(* ================================================================= *)
(** * Further properties of [utils/similarity.js] *)

Section Symmetry.

Lemma mul_comm (a b : number) : mul a b = mul b a.
Proof. destruct a, b; simpl; try reflexivity. f_equal. apply Rmult_comm. Qed.

Lemma accumulate_swap (l : list (number * number)) (d na nb : number) :
  fold_left accumulate (map (fun xy => (snd xy, fst xy)) l) (d, nb, na)
  = let '(d', na', nb') := fold_left accumulate l (d, na, nb) in
    (d', nb', na').
Proof.
  revert d na nb. induction l as [|[x y] l IH]; intros d na nb.
  - reflexivity.
  - simpl. rewrite (mul_comm y x). apply IH.
Qed.

Lemma combine_swap (A B : Type) (a : list A) (b : list B) :
  combine b a = map (fun xy => (snd xy, fst xy)) (combine a b).
Proof.
  revert b. induction a as [|x a IH]; intros [|y b]; simpl;
    try reflexivity.
  now rewrite IH.
Qed.

Lemma cosineSimilarity_swap :
  forall a b : list number, cosineSimilarity a b = cosineSimilarity b a.
Proof.
  intros a b. unfold cosineSimilarity.
  rewrite (Nat.eqb_sym (List.length b) (List.length a)).
  destruct (List.length a =? List.length b); simpl; [| reflexivity].
  rewrite (combine_swap a b), accumulate_swap.
  destruct (fold_left accumulate (combine a b) (Fin 0, Fin 0, Fin 0))
    as [[d na] nb].
  rewrite (mul_comm (Math_sqrt nb) (Math_sqrt na)).
  rewrite (Bool.orb_comm (is_zero (Math_sqrt nb))). reflexivity.
Qed.

(** X1. [cosineSimilarity] is symmetric in its arguments, on all vectors
    of numbers: the same score, or the same exception. *)
Theorem cosineSimilarity_symmetric :
  forall a b : list number, cosineSimilarity a b = cosineSimilarity b a.
Proof. exact cosineSimilarity_swap. Qed.

End Symmetry.

Section MatrixScores.

Lemma cosineSimilarity_returns (a b : list number) :
  List.length a = List.length b ->
  exists c, cosineSimilarity a b = Return c.
Proof.
  intros Hlen. unfold cosineSimilarity. rewrite Hlen, Nat.eqb_refl. simpl.
  destruct (fold_left accumulate (combine a b) (Fin 0, Fin 0, Fin 0))
    as [[d na] nb].
  destruct (is_zero (Math_sqrt na) || is_zero (Math_sqrt nb)); eauto.
Qed.

Lemma cosineSimilarity_mismatch (a b : list number) :
  List.length a <> List.length b ->
  cosineSimilarity a b = Throw "Vectors must have the same length".
Proof.
  intros Hlen. unfold cosineSimilarity.
  apply Nat.eqb_neq in Hlen. now rewrite Hlen.
Qed.

Lemma mapM_ext_in (A B : Type) (f g : A -> outcome B) (l : list A) :
  (forall x, In x l -> f x = g x) -> mapM f l = mapM g l.
Proof.
  induction l as [|x l IH]; intros H; simpl; [reflexivity |].
  rewrite (H x) by (left; reflexivity).
  rewrite IH; [reflexivity |]. intros y Hy. apply H. right. exact Hy.
Qed.

Lemma mapM_map (A B C : Type) (f : B -> outcome C) (g : A -> B)
  (l : list A) :
  mapM f (map g l) = mapM (fun x => f (g x)) l.
Proof.
  induction l as [|x l IH]; simpl; [reflexivity | now rewrite IH].
Qed.

Lemma mapM_returns (A B : Type) (f : A -> outcome B) (l : list A) :
  (forall x, In x l -> exists y, f x = Return y) ->
  exists ys, mapM f l = Return ys
             /\ List.length ys = List.length l
             /\ forall i x, nth_error l i = Some x ->
                  exists y, f x = Return y /\ nth_error ys i = Some y.
Proof.
  induction l as [|x l IH]; intros H; simpl.
  - exists []. repeat split. intros [|i] x Hx; discriminate.
  - destruct (H x (or_introl eq_refl)) as [y Hy].
    destruct IH as [ys [Hys [Hlen Hnth]]];
      [intros z Hz; apply H; right; exact Hz |].
    exists (y :: ys). rewrite Hy, Hys. simpl.
    repeat split; [now rewrite Hlen |].
    intros [|i] z Hz; simpl in *.
    + inversion Hz; subst. eauto.
    + apply Hnth, Hz.
Qed.

Lemma mapM_throws (A B : Type) (f : A -> outcome B) (l : list A)
  (e : string) :
  (forall x, In x l -> (exists y, f x = Return y) \/ f x = Throw e) ->
  (exists x, In x l /\ f x = Throw e) ->
  mapM f l = Throw e.
Proof.
  induction l as [|x l IH]; intros Hall [z [Hz Hthrow]]; simpl.
  - contradiction.
  - destruct (Hall x (or_introl eq_refl)) as [[y Hy] | Hx].
    + rewrite Hy. simpl. rewrite IH; [reflexivity | |].
      * intros w Hw. apply Hall. right. exact Hw.
      * destruct Hz as [-> | Hz]; [congruence | eauto].
    + now rewrite Hx.
Qed.

Lemma nth_seq_map (A : Type) (l : list A) (d : A) :
  map (fun i => nth i l d) (seq 0 (List.length l)) = l.
Proof.
  induction l as [|x l IH]; simpl; [reflexivity |].
  f_equal. rewrite <- seq_shift, map_map. exact IH.
Qed.

Lemma scores_by_row (m : Matrix) (q : list number) :
  rows m = List.length (data m) ->
  cosineSimilarityMatrix m (AsArray q)
  = mapM (fun row => cosineSimilarity row q) (data m).
Proof.
  intros Hrows. unfold cosineSimilarityMatrix. simpl.
  transitivity
    (mapM (fun row => cosineSimilarity row q)
          (map (fun i => nth i (data m) []) (seq 0 (List.length (data m)))));
    [| now rewrite nth_seq_map].
  rewrite mapM_map, <- Hrows. apply mapM_ext_in.
  intros i Hi. apply in_seq in Hi. unfold getRow.
  replace (i <? rows m) with true by (symmetry; apply Nat.ltb_lt; lia).
  reflexivity.
Qed.

(** X6. For a matrix whose rows are all as long as the query vector,
    [cosineSimilarityMatrix] returns one score per row, in row order, each
    the [cosineSimilarity] of that row and the query; when some row has
    another length it raises the length error of [cosineSimilarity]. *)
Theorem cosineSimilarityMatrix_rows :
  forall (m : Matrix) (q : list number),
    rows m = List.length (data m) ->
    (Forall (fun row => List.length row = List.length q) (data m) ->
     exists sims,
       cosineSimilarityMatrix m (AsArray q) = Return sims
       /\ List.length sims = rows m
       /\ forall i row, nth_error (data m) i = Some row ->
            exists c, cosineSimilarity row q = Return c
                      /\ nth_error sims i = Some c)
    /\ (Exists (fun row => List.length row <> List.length q) (data m) ->
        cosineSimilarityMatrix m (AsArray q)
        = Throw "Vectors must have the same length").
Proof.
  intros m q Hrows. rewrite (scores_by_row m q Hrows). split.
  - intros Hall. rewrite Forall_forall in Hall.
    destruct (mapM_returns (fun row => cosineSimilarity row q) (data m))
      as [sims [Hs [Hlen Hnth]]].
    + intros row Hrow. apply cosineSimilarity_returns, Hall, Hrow.
    + exists sims. rewrite Hrows. auto.
  - intros Hex. apply Exists_exists in Hex as [row [Hin Hrow]].
    apply mapM_throws.
    + intros r Hr.
      destruct (Nat.eq_dec (List.length r) (List.length q)) as [He | Hn].
      * left. apply cosineSimilarity_returns, He.
      * right. apply cosineSimilarity_mismatch, Hn.
    + exists row. split; [exact Hin |].
      apply cosineSimilarity_mismatch, Hrow.
Qed.

Lemma cosineSimilarityMatrix_rows_witness :
  exists sims,
    cosineSimilarityMatrix
      (mkMatrix 2 2 [[Fin 1; Fin 0]; [Fin 0; Fin 1]]) (AsArray [Fin 1; Fin 1])
    = Return sims
    /\ List.length sims = 2.
Proof.
  destruct (proj1 (cosineSimilarityMatrix_rows
                     (mkMatrix 2 2 [[Fin 1; Fin 0]; [Fin 0; Fin 1]])
                     [Fin 1; Fin 1] eq_refl))
    as [sims [Hs [Hlen _]]].
  - repeat constructor.
  - exists sims. split; [exact Hs | exact Hlen].
Defined.

End MatrixScores.

(* ================================================================= *)
(** * Further properties of [utils/tfidf.js] *)

Section TermFrequency.

Lemma bump_all_count (tokens : list string) (m : Map nat) (t : string) :
  count_of (fold_left bump tokens m) t
  = count_of m t + count_occ string_dec tokens t.
Proof.
  revert m. induction tokens as [|k tokens IH]; intros m; simpl.
  - lia.
  - rewrite IH, count_of_bump.
    destruct (string_dec k t) as [-> | Hne].
    + rewrite String.eqb_refl. lia.
    + apply String.eqb_neq in Hne. rewrite Hne. lia.
Qed.

Lemma bump_all_keys (tokens : list string) (m : Map nat) (t : string) :
  In t (Map_keys (fold_left bump tokens m))
  <-> In t tokens \/ In t (Map_keys m).
Proof.
  revert m. induction tokens as [|k tokens IH]; intros m; simpl.
  - tauto.
  - rewrite IH. unfold bump. rewrite Map_keys_set_In. intuition.
Qed.

Lemma bump_all_distinct (tokens : list string) (m : Map nat) :
  Stated.distinct_keys m -> Stated.distinct_keys (fold_left bump tokens m).
Proof.
  intros H. apply fold_left_invariant; [exact H |].
  intros acc t Hacc. apply Map_set_distinct, Hacc.
Qed.

Lemma count_of_get (m : Map nat) (t : string) :
  In t (Map_keys m) -> Map_get m t = Some (count_of m t).
Proof.
  intros H. apply Map_get_In in H as [c Hc]. unfold count_of. now rewrite Hc.
Qed.

Lemma Map_get_map (A B : Type) (g : A -> B) (m : Map A) (t : string) :
  Map_get (map (fun entry => (fst entry, g (snd entry))) m) t
  = option_map g (Map_get m t).
Proof.
  induction m as [|[k v] m IH]; simpl; [reflexivity |].
  destruct (String.eqb k t); [reflexivity | exact IH].
Qed.

Lemma Map_keys_map (A B : Type) (g : A -> B) (m : Map A) :
  Map_keys (map (fun entry => (fst entry, g (snd entry))) m) = Map_keys m.
Proof.
  unfold Map_keys. rewrite map_map. reflexivity.
Qed.

Local Open Scope R_scope.

Lemma calculateTF_table :
  forall (tokens : list string) (token : string),
    Map_get (calculateTF tokens) token
    = (if in_dec string_dec token tokens
       then Some (Fin (INR (count_occ string_dec tokens token)
                       / INR (List.length tokens)))
       else None)
    /\ Stated.distinct_keys (calculateTF tokens).
Proof.
  intros tokens token. unfold calculateTF. cbv zeta. split.
  - rewrite (Map_get_map
               (fun c => div (of_nat c) (of_nat (List.length tokens)))).
    destruct (in_dec string_dec token tokens) as [Hin | Hout].
    + rewrite count_of_get by (apply bump_all_keys; left; exact Hin).
      rewrite bump_all_count. simpl option_map. unfold of_nat, div.
      replace (Reqb (INR (List.length tokens)) 0) with false;
        [reflexivity |].
      symmetry. apply Reqb_false, not_0_INR.
      destruct tokens; [contradiction | discriminate].
    + destruct (Map_get (fold_left bump tokens []) token) as [c |] eqn:Hc;
        [| reflexivity].
      exfalso. apply Hout.
      assert (H : In token (Map_keys (fold_left bump tokens [])))
        by (apply Map_get_In; eauto).
      apply bump_all_keys in H as [H | []]. exact H.
  - unfold Stated.distinct_keys.
    rewrite (Map_keys_map
               (fun c => div (of_nat c) (of_nat (List.length tokens)))).
    apply bump_all_distinct. constructor.
Qed.

(** X7. [calculateTF] maps every token of the list to its number of
    occurrences divided by the length of the list, holds no other key and
    no key twice. *)
Theorem calculateTF_frequencies :
  forall (tokens : list string) (token : string),
    Map_get (calculateTF tokens) token
    = (if in_dec string_dec token tokens
       then Some (Fin (INR (count_occ string_dec tokens token)
                       / INR (List.length tokens)))
       else None)
    /\ Stated.distinct_keys (calculateTF tokens).
Proof. exact calculateTF_table. Qed.

End TermFrequency.

Section DenseVocabulary.

Let step (acc : Map nat * nat) (token : string) : Map nat * nat :=
  (Map_set token (snd acc) (fst acc), S (snd acc)).

Lemma assign_fresh (l : list string) (m : Map nat) (n : nat) :
  NoDup l ->
  (forall t, In t l -> ~ In t (Map_keys m)) ->
  fst (fold_left step l (m, n)) = m ++ combine l (seq n (List.length l)).
Proof.
  intros Hl. revert m n. induction Hl as [|k l Hk Hl IH]; intros m n Hm.
  - simpl. now rewrite app_nil_r.
  - change (fold_left step (k :: l) (m, n))
      with (fold_left step l (Map_set k n m, S n)).
    rewrite Map_set_fresh by (apply Hm; left; reflexivity).
    rewrite IH.
    + rewrite <- app_assoc. reflexivity.
    + intros t Ht. unfold Map_keys. rewrite map_app, in_app_iff. simpl.
      intros [H | [H | []]].
      * apply (Hm t); [right; exact Ht | exact H].
      * subst. contradiction.
Qed.

Lemma keys_combine_seq (l : list string) (n : nat) :
  Map_keys (combine l (seq n (List.length l))) = l.
Proof.
  revert n. induction l as [|k l IH]; intros n; simpl; [reflexivity |].
  f_equal. apply IH.
Qed.

Lemma get_combine_seq (l : list string) (n i : nat) (t : string) :
  NoDup l ->
  (Map_get (combine l (seq n (List.length l))) t = Some i
   <-> n <= i /\ nth_error l (i - n) = Some t).
Proof.
  intros Hl. revert n i. induction Hl as [|k l Hk Hl IH]; intros n i.
  - simpl. split; [discriminate |].
    intros [_ H]. destruct (i - n); discriminate.
  - simpl combine. simpl Map_get.
    destruct (String.eqb k t) eqn:Hkt.
    + apply String.eqb_eq in Hkt. subst k. split.
      * intros H. inversion H; subst. split; [lia |].
        now rewrite Nat.sub_diag.
      * intros [Hle H]. destruct (i - n) as [|j] eqn:Hj.
        -- f_equal. lia.
        -- simpl in H. apply nth_error_In in H. contradiction.
    + apply String.eqb_neq in Hkt. rewrite IH. split.
      * intros [Hle H]. split; [lia |].
        replace (i - n) with (S (i - S n)) by lia. exact H.
      * intros [Hle H]. destruct (i - n) as [|j] eqn:Hj.
        -- simpl in H. inversion H. contradiction.
        -- simpl in H. split; [lia |].
           replace (i - S n) with j by lia. exact H.
Qed.

Lemma combine_seq_dense (l : list string) :
  NoDup l -> Stated.dense_vocabulary (combine l (seq 0 (List.length l))).
Proof.
  intros Hl t i. rewrite keys_combine_seq, (get_combine_seq 0 i t Hl).
  rewrite Nat.sub_0_r. split; [tauto | split; [lia | assumption]].
Qed.

Lemma assign_new (l : list string) :
  NoDup l ->
  fst (assign_indices l []) = combine l (seq 0 (List.length l)).
Proof.
  intros Hl. unfold assign_indices.
  apply (assign_fresh [] 0 Hl). intros t _ [].
Qed.

End DenseVocabulary.

Lemma dense_index_bound (vocab : Map nat) (t : string) (i : nat) :
  Stated.dense_vocabulary vocab ->
  Map_get vocab t = Some i -> i < Map_size vocab.
Proof.
  intros H Hget. apply H in Hget.
  unfold Map_size. rewrite <- (length_map fst vocab).
  apply nth_error_Some. unfold Map_keys in Hget. congruence.
Qed.

Section FirstOccurrences.

Lemma filter_filter (A : Type) (p q : A -> bool) (l : list A) :
  filter p (filter q l) = filter (fun x => q x && p x) l.
Proof.
  induction l as [|x l IH]; simpl; [reflexivity |].
  destruct (q x); simpl; [destruct (p x) |]; now rewrite IH.
Qed.

(** Adding the elements of [l] to a set appends those that are new, in
    the order of their first occurrence. *)
Lemma add_all_first (l : list string) (s : JSSet) :
  fold_left (fun s token => Set_add token s) l s
  = s ++ filter (fun y => negb (Set_has s y)) (Stated.first_occurrences l).
Proof.
  revert s. induction l as [|x l IH]; intros s.
  - simpl. now rewrite app_nil_r.
  - change (fold_left (fun s token => Set_add token s) (x :: l) s)
      with (fold_left (fun s token => Set_add token s) l (Set_add x s)).
    rewrite IH. simpl Stated.first_occurrences. simpl filter.
    rewrite filter_filter. unfold Set_add.
    destruct (Set_has s x) eqn:Hx; simpl negb; cbv iota.
    + f_equal. apply filter_ext_in. intros y _.
      destruct (String.eqb y x) eqn:Hyx; simpl; [| reflexivity].
      apply String.eqb_eq in Hyx. subst y. now rewrite Hx.
    + rewrite <- app_assoc. simpl. f_equal. f_equal.
      apply filter_ext_in. intros y _. unfold Set_has.
      rewrite existsb_app. simpl. rewrite Bool.orb_false_r.
      rewrite Bool.negb_orb. apply Bool.andb_comm.
Qed.

Lemma fold_left_flat_map (A B C : Type) (f : C -> B -> C)
  (g : A -> list B) (l : list A) (c : C) :
  fold_left (fun acc a => fold_left f (g a) acc) l c
  = fold_left f (flat_map g l) c.
Proof.
  revert c. induction l as [|a l IH]; intros c; simpl; [reflexivity |].
  now rewrite fold_left_app, IH.
Qed.

Variable tokenize : string -> option (list string).
Variable stopword_eng : option (list string).

Lemma collect_tokens_first (docs : list string) :
  collect_tokens tokenize stopword_eng docs
  = Stated.first_occurrences
      (flat_map (preprocessText tokenize stopword_eng) docs).
Proof.
  unfold collect_tokens.
  rewrite (fold_left_flat_map (fun s token => Set_add token s)
             (preprocessText tokenize stopword_eng) docs []).
  rewrite add_all_first. simpl.
  induction (Stated.first_occurrences _) as [|y l IH]; simpl;
    [reflexivity | now rewrite IH].
Qed.

End FirstOccurrences.

Section VocabularyAfterFit.

Variable tokenize : string -> option (list string).
Variable stopword_eng : option (list string).

Lemma fit_new_vocabulary (docs : list string) :
  vocabulary (fit tokenize stopword_eng new_TFIDFVectorizer docs)
  = combine (collect_tokens tokenize stopword_eng docs)
            (seq 0 (List.length
                      (collect_tokens tokenize stopword_eng docs))).
Proof.
  rewrite fit_vocabulary. apply assign_new, collect_tokens_NoDup.
Qed.

Lemma preprocessText_kept (doc token : string) :
  In token (preprocessText tokenize stopword_eng doc) ->
  keep_token stopword_eng token = true.
Proof.
  unfold preprocessText. destruct (String.eqb doc ""); [intros [] |].
  destruct (tokenize (toLowerCase doc)) as [tokens |]; [| intros []].
  intros H. apply filter_In in H. tauto.
Qed.

Lemma fit_new_features :
  forall docs : list string,
    getFeatureNames (fit tokenize stopword_eng new_TFIDFVectorizer docs)
    = collect_tokens tokenize stopword_eng docs
    /\ NoDup (getFeatureNames
                (fit tokenize stopword_eng new_TFIDFVectorizer docs))
    /\ (forall (t : string) (i : nat),
          Map_get (vocabulary
                     (fit tokenize stopword_eng new_TFIDFVectorizer docs)) t
          = Some i
          <-> nth_error
                (getFeatureNames
                   (fit tokenize stopword_eng new_TFIDFVectorizer docs)) i
              = Some t)
    /\ (forall t : string,
          In t (getFeatureNames
                  (fit tokenize stopword_eng new_TFIDFVectorizer docs)) ->
          (exists doc, In doc docs
                       /\ In t (preprocessText tokenize stopword_eng doc))
          /\ alphabetic t = true
          /\ 1 < String.length t
          /\ is_stopword stopword_eng t = false).
Proof.
  intros docs. unfold getFeatureNames. rewrite fit_new_vocabulary.
  rewrite keys_combine_seq.
  pose proof (collect_tokens_NoDup tokenize stopword_eng docs) as Hnd.
  split; [reflexivity |]. split; [exact Hnd |]. split.
  - intros t i.
    pose proof (combine_seq_dense Hnd t i) as Hdense.
    rewrite keys_combine_seq in Hdense. exact Hdense.
  - intros t Ht. apply collect_tokens_In in Ht as [doc [Hdoc Htok]].
    split; [eauto |].
    apply preprocessText_kept in Htok. unfold keep_token in Htok.
    apply andb_prop in Htok as [Htok Hstop].
    apply andb_prop in Htok as [Halpha Hlen].
    repeat split.
    + exact Halpha.
    + apply Nat.ltb_lt, Hlen.
    + now apply negb_true_iff in Hstop.
Qed.

(** X8. After [fit] on a new vectorizer the feature names are the tokens
    that [preprocessText] keeps of the documents, taken document by
    document, in the order of their first occurrence and each of them
    once: every kept token of every document is listed.  The term at
    position [i] is the one that the vocabulary maps to [i], so the
    indices are [0 .. N-1]; every term comes from a document, is
    alphabetic, longer than one character and no stopword. *)
Theorem fit_vocabulary_dense :
  forall docs : list string,
    getFeatureNames (fit tokenize stopword_eng new_TFIDFVectorizer docs)
    = Stated.first_occurrences
        (flat_map (preprocessText tokenize stopword_eng) docs)
    /\ (forall doc t : string,
          In doc docs ->
          In t (preprocessText tokenize stopword_eng doc) ->
          In t (getFeatureNames
                  (fit tokenize stopword_eng new_TFIDFVectorizer docs)))
    /\ NoDup (getFeatureNames
                (fit tokenize stopword_eng new_TFIDFVectorizer docs))
    /\ (forall (t : string) (i : nat),
          Map_get (vocabulary
                     (fit tokenize stopword_eng new_TFIDFVectorizer docs)) t
          = Some i
          <-> nth_error
                (getFeatureNames
                   (fit tokenize stopword_eng new_TFIDFVectorizer docs)) i
              = Some t)
    /\ (forall t : string,
          In t (getFeatureNames
                  (fit tokenize stopword_eng new_TFIDFVectorizer docs)) ->
          (exists doc, In doc docs
                       /\ In t (preprocessText tokenize stopword_eng doc))
          /\ alphabetic t = true
          /\ 1 < String.length t
          /\ is_stopword stopword_eng t = false).
Proof.
  intros docs.
  destruct (fit_new_features docs) as (Hnames & Hnodup & Hdense & Hkept).
  split; [rewrite Hnames; apply collect_tokens_first |].
  split; [| split; [exact Hnodup | split; [exact Hdense | exact Hkept]]].
  intros doc t Hdoc Ht. rewrite Hnames.
  apply collect_tokens_In. now exists doc.
Qed.

End VocabularyAfterFit.

Section ArrayWrites.

Lemma array_set_length (a : list number) (i : nat) (x : number) :
  i < List.length a -> List.length (array_set a i x) = List.length a.
Proof.
  intros Hi. unfold array_set.
  replace (i <? List.length a) with true by (symmetry; apply Nat.ltb_lt, Hi).
  rewrite length_app, length_firstn. cbn [List.length].
  rewrite length_skipn. lia.
Qed.

Lemma array_set_same (a : list number) (i : nat) (x : number) :
  i < List.length a -> nth_error (array_set a i x) i = Some x.
Proof.
  intros Hi. unfold array_set.
  replace (i <? List.length a) with true by (symmetry; apply Nat.ltb_lt, Hi).
  rewrite nth_error_app2 by (rewrite length_firstn; lia).
  rewrite length_firstn.
  replace (i - Nat.min i (List.length a)) with 0 by lia. reflexivity.
Qed.

Lemma array_set_other (a : list number) (i j : nat) (x : number) :
  i < List.length a -> j <> i ->
  nth_error (array_set a i x) j = nth_error a j.
Proof.
  intros Hi Hj. unfold array_set.
  replace (i <? List.length a) with true by (symmetry; apply Nat.ltb_lt, Hi).
  destruct (Nat.lt_ge_cases j i) as [Hlt | Hge].
  - rewrite nth_error_app1 by (rewrite length_firstn; lia).
    rewrite nth_error_firstn.
    replace (j <? i) with true by (symmetry; apply Nat.ltb_lt, Hlt).
    reflexivity.
  - rewrite nth_error_app2 by (rewrite length_firstn; lia).
    rewrite length_firstn.
    replace (j - Nat.min i (List.length a)) with (S (j - S i)) by lia.
    cbn [nth_error]. rewrite nth_error_skipn. f_equal. lia.
Qed.

Variable vocab : Map nat.
Variable value_of : string * number -> number.
Variable size : nat.

Hypothesis index_bound :
  forall t j, Map_get vocab t = Some j -> j < size.
Hypothesis index_injective :
  forall t t' j, Map_get vocab t = Some j -> Map_get vocab t' = Some j ->
                 t = t'.

(** The body of the loop of [documentToVector]. *)
Let write (vector : list number) (entry : string * number) : list number :=
  match Map_get vocab (fst entry) with
  | Some vocabIndex => array_set vector vocabIndex (value_of entry)
  | None => vector
  end.

Lemma write_length (vector : list number) (entry : string * number) :
  List.length vector = size -> List.length (write vector entry) = size.
Proof.
  intros Hlen. unfold write.
  destruct (Map_get vocab (fst entry)) as [j |] eqn:Hj; [| exact Hlen].
  rewrite array_set_length; [exact Hlen |].
  rewrite Hlen. eapply index_bound, Hj.
Qed.

Lemma writes_length (l : list (string * number)) (vector : list number) :
  List.length vector = size ->
  List.length (fold_left write l vector) = size.
Proof.
  intros H. apply fold_left_invariant; [exact H |].
  intros acc e Hacc. apply write_length, Hacc.
Qed.

Lemma writes_miss (l : list (string * number)) (vector : list number)
  (j : nat) :
  List.length vector = size ->
  (forall e, In e l -> Map_get vocab (fst e) <> Some j) ->
  nth_error (fold_left write l vector) j = nth_error vector j.
Proof.
  revert vector. induction l as [|e l IH]; intros vector Hlen Hmiss.
  - reflexivity.
  - change (fold_left write (e :: l) vector)
      with (fold_left write l (write vector e)).
    rewrite IH.
    + unfold write.
      destruct (Map_get vocab (fst e)) as [i |] eqn:Hi; [| reflexivity].
      apply array_set_other.
      * rewrite Hlen. eapply index_bound, Hi.
      * intros ->. apply (Hmiss e); [left; reflexivity | exact Hi].
    + apply write_length, Hlen.
    + intros e' He'. apply Hmiss. right. exact He'.
Qed.

Lemma writes_hit (l : list (string * number)) (vector : list number)
  (e : string * number) (j : nat) :
  NoDup (map fst l) ->
  List.length vector = size ->
  In e l -> Map_get vocab (fst e) = Some j ->
  nth_error (fold_left write l vector) j = Some (value_of e).
Proof.
  intros Hl. revert vector.
  induction l as [|e0 l IH]; intros vector Hlen Hin Hj; [contradiction |].
  change (fold_left write (e0 :: l) vector)
    with (fold_left write l (write vector e0)).
  simpl in Hl. apply NoDup_cons_iff in Hl as [Hfresh Hl'].
  destruct Hin as [He | Hin]; [rewrite He in * |].
  - rewrite writes_miss.
    + unfold write. rewrite Hj. apply array_set_same.
      rewrite Hlen. eapply index_bound, Hj.
    + apply write_length, Hlen.
    + intros e' He' Hj'. apply Hfresh.
      rewrite (index_injective (fst e) (fst e') Hj Hj').
      apply in_map, He'.
  - apply IH; try assumption. apply write_length, Hlen.
Qed.

End ArrayWrites.

Lemma Map_get_entry (V : Type) (m : Map V) (t : string) (v : V) :
  Map_get m t = Some v -> In (t, v) m.
Proof.
  induction m as [|[k w] m IH]; simpl; [discriminate |].
  destruct (String.eqb k t) eqn:Hk.
  - apply String.eqb_eq in Hk. intros H. inversion H; subst. now left.
  - intros H. right. apply IH, H.
Qed.

Section DocumentVectors.

Variable tokenize : string -> option (list string).
Variable stopword_eng : option (list string).

Let documentToVector := documentToVector tokenize stopword_eng.
Let preprocessText := preprocessText tokenize stopword_eng.

Lemma documentToVector_dense (this : TFIDFVectorizer) (doc : string) :
  Stated.dense_vocabulary (vocabulary this) ->
  List.length (documentToVector this doc) = Map_size (vocabulary this)
  /\ forall (i : nat) (t : string),
       nth_error (getFeatureNames this) i = Some t ->
       nth_error (documentToVector this doc) i
       = Some (if in_dec string_dec t (preprocessText doc)
               then mul (Fin (INR (count_occ string_dec
                                             (preprocessText doc) t)
                              / INR (List.length (preprocessText doc))))
                        (idf_of this t)
               else Fin 0).
Proof.
  intros Hdense.
  assert (Hbound : forall t j, Map_get (vocabulary this) t = Some j ->
                               j < Map_size (vocabulary this))
    by (intros t j; apply dense_index_bound, Hdense).
  assert (Hinj : forall t t' j,
             Map_get (vocabulary this) t = Some j ->
             Map_get (vocabulary this) t' = Some j -> t = t').
  { intros t t' j Ht Ht'. apply Hdense in Ht, Ht'. congruence. }
  unfold documentToVector, TFIDF.documentToVector.
  fold (preprocessText doc).
  set (tokens := preprocessText doc).
  set (value_of := fun entry : string * number =>
                     mul (snd entry) (idf_of this (fst entry))).
  destruct (calculateTF_table tokens "") as [_ Hkeys].
  split.
  - apply (writes_length (vocabulary this) value_of Hbound).
    apply repeat_length.
  - intros i t Hi. apply Hdense in Hi.
    destruct (calculateTF_table tokens t) as [Hget _].
    destruct (in_dec string_dec t tokens) as [Hin | Hout].
    + apply Map_get_entry in Hget.
      rewrite (writes_hit (vocabulary this) value_of Hbound Hinj
                 (calculateTF tokens) _ (t, _) Hkeys
                 (repeat_length _ _) Hget Hi).
      reflexivity.
    + rewrite (writes_miss (vocabulary this) value_of Hbound).
      * apply nth_error_repeat. eapply Hbound, Hi.
      * apply repeat_length.
      * intros e He He'.
        assert (Heq : fst e = t) by apply (Hinj _ _ _ He' Hi).
        assert (Hkey : In t (Map_keys (calculateTF tokens)))
          by (rewrite <- Heq; apply in_map, He).
        apply Map_get_In in Hkey as [v Hv]. congruence.
Qed.

End DocumentVectors.
Section TransformMatrix.

Variable tokenize : string -> option (list string).
Variable stopword_eng : option (list string).

Let preprocess := preprocessText tokenize stopword_eng.
Let df := Stated.document_frequency preprocess.
Let fit := fit tokenize stopword_eng.

(** X9. With a dense vocabulary [documentToVector] returns a vector as
    long as the vocabulary; its entry at the index of a term is the term's
    frequency in the document (occurrences over token count) times the
    term's IDF weight when the term occurs in the document, and 0
    otherwise.  Tokens outside the vocabulary leave no trace. *)
Theorem documentToVector_entries :
  forall (this : TFIDFVectorizer) (doc : string),
    Stated.dense_vocabulary (vocabulary this) ->
    List.length (TFIDF.documentToVector tokenize stopword_eng this doc)
    = Map_size (vocabulary this)
    /\ forall (i : nat) (t : string),
         nth_error (getFeatureNames this) i = Some t ->
         nth_error (TFIDF.documentToVector tokenize stopword_eng this doc) i
         = Some (if in_dec string_dec t
                           (TFIDF.preprocessText tokenize stopword_eng doc)
                 then mul (Fin (INR (count_occ string_dec
                                       (TFIDF.preprocessText
                                          tokenize stopword_eng doc) t)
                                / INR (List.length
                                         (TFIDF.preprocessText
                                            tokenize stopword_eng doc))))
                          (idf_of this t)
                 else Fin 0).
Proof. intros this doc. apply documentToVector_dense. Qed.

Lemma fit_new_dense (docs : list string) :
  Stated.dense_vocabulary (vocabulary (fit new_TFIDFVectorizer docs)).
Proof.
  intros t i.
  apply (proj1 (proj2 (proj2 (fit_new_features tokenize stopword_eng
                                docs)))).
Qed.

Lemma fit_new_idf_of (docs : list string) (t : string) :
  In t (getFeatureNames (fit new_TFIDFVectorizer docs)) ->
  idf_of (fit new_TFIDFVectorizer docs) t
  = Fin (ln (INR (List.length docs) / INR (df t docs))).
Proof.
  intros Hin. unfold idf_of, getFeatureNames, fit in *.
  rewrite (fit_idf_get tokenize stopword_eng _ _ _ Hin).
  apply fit_vocabulary_In in Hin as [H | []].
  apply df_pos in H. unfold Stated.idf_formula, df, preprocess.
  destruct (Stated.document_frequency
              (preprocessText tokenize stopword_eng) t docs =? 0) eqn:E;
    [apply Nat.eqb_eq in E; lia |].
  reflexivity.
Qed.

Lemma new_Matrix_uniform (vectors : list (list number)) (n : nat) :
  Forall (fun row => List.length row = n) vectors ->
  (vectors = [] -> n = 0) ->
  new_Matrix vectors = Return (mkMatrix (List.length vectors) n vectors).
Proof.
  intros Hall Hnil. unfold new_Matrix.
  assert (Hcols : match vectors with
                  | [] => 0
                  | r :: _ => List.length r
                  end = n).
  { destruct vectors as [|r rest]; [symmetry; apply Hnil; reflexivity |].
    now inversion Hall. }
  rewrite Hcols.
  replace (forallb (fun r => List.length r =? n) vectors) with true;
    [reflexivity |].
  symmetry. apply forallb_forall. intros r Hr.
  rewrite Forall_forall in Hall. apply Nat.eqb_eq, Hall, Hr.
Qed.

Lemma fitTransform_new_matrix :
  forall docs : list string,
    exists M : Matrix,
      fitTransform tokenize stopword_eng new_TFIDFVectorizer docs
      = (TFIDF.fit tokenize stopword_eng new_TFIDFVectorizer docs, Return M)
      /\ rows M = List.length docs
      /\ columns M
         = Map_size (vocabulary (TFIDF.fit tokenize stopword_eng
                                           new_TFIDFVectorizer docs))
      /\ Forall (fun row => List.length row = columns M) (data M)
      /\ forall (r i : nat) (doc t : string),
           nth_error docs r = Some doc ->
           nth_error (getFeatureNames
                        (TFIDF.fit tokenize stopword_eng
                                   new_TFIDFVectorizer docs)) i = Some t ->
           exists row,
             nth_error (data M) r = Some row
             /\ nth_error row i
                = Some (if in_dec string_dec t
                                  (preprocessText tokenize stopword_eng doc)
                        then Fin (INR (count_occ string_dec
                                         (preprocessText tokenize
                                            stopword_eng doc) t)
                                  / INR (List.length
                                           (preprocessText tokenize
                                              stopword_eng doc))
                                  * ln (INR (List.length docs)
                                        / INR (Stated.document_frequency
                                                 (preprocessText tokenize
                                                    stopword_eng)
                                                 t docs)))
                        else Fin 0).
Proof.
  intros docs. fold fit. fold preprocess. fold df.
  set (v := fit new_TFIDFVectorizer docs).
  set (vectors := map (documentToVector tokenize stopword_eng v) docs).
  pose proof (fit_new_dense docs) as Hdense. fold v in Hdense.
  assert (Hrows : Forall (fun row => List.length row
                                     = Map_size (vocabulary v)) vectors).
  { apply Forall_forall. intros row Hrow.
    apply in_map_iff in Hrow as [doc [<- _]].
    apply (documentToVector_dense tokenize stopword_eng v doc Hdense). }
  exists (mkMatrix (List.length vectors) (Map_size (vocabulary v)) vectors).
  split; [| split; [| split; [| split]]].
  - unfold fitTransform, transform. fold fit. fold v.
    replace (fitted v) with true by reflexivity. simpl negb. cbv iota.
    fold vectors. f_equal. apply new_Matrix_uniform; [exact Hrows |].
    intros Hnil. unfold vectors in Hnil. apply map_eq_nil in Hnil.
    unfold v. rewrite Hnil. reflexivity.
  - simpl. unfold vectors. apply length_map.
  - reflexivity.
  - exact Hrows.
  - intros r i doc t Hdoc Ht. simpl data.
    exists (documentToVector tokenize stopword_eng v doc). split.
    + unfold vectors. rewrite nth_error_map, Hdoc. reflexivity.
    + destruct (documentToVector_dense tokenize stopword_eng v doc Hdense)
        as [_ Hentries].
      rewrite (Hentries i t Ht). fold preprocess.
      destruct (in_dec string_dec t (preprocess doc)); [| reflexivity].
      unfold v in Ht |- *.
      rewrite fit_new_idf_of by (eapply nth_error_In, Ht).
      reflexivity.
Qed.

(** X10. [fitTransform] on a new vectorizer returns the fitted vectorizer
    and a matrix with one row per document and one column per vocabulary
    term; the entry for document [r] and term [t] is
    [tf(t, r) * ln (docCount / df(t))] when [t] occurs in the document and
    0 otherwise. *)
Theorem fitTransform_matrix :
  forall docs : list string,
    exists M : Matrix,
      fitTransform tokenize stopword_eng new_TFIDFVectorizer docs
      = (TFIDF.fit tokenize stopword_eng new_TFIDFVectorizer docs, Return M)
      /\ rows M = List.length docs
      /\ columns M
         = Map_size (vocabulary (TFIDF.fit tokenize stopword_eng
                                           new_TFIDFVectorizer docs))
      /\ Forall (fun row => List.length row = columns M) (data M)
      /\ forall (r i : nat) (doc t : string),
           nth_error docs r = Some doc ->
           nth_error (getFeatureNames
                        (TFIDF.fit tokenize stopword_eng
                                   new_TFIDFVectorizer docs)) i = Some t ->
           exists row,
             nth_error (data M) r = Some row
             /\ nth_error row i
                = Some (if in_dec string_dec t
                                  (preprocessText tokenize stopword_eng doc)
                        then Fin (INR (count_occ string_dec
                                         (preprocessText tokenize
                                            stopword_eng doc) t)
                                  / INR (List.length
                                           (preprocessText tokenize
                                              stopword_eng doc))
                                  * ln (INR (List.length docs)
                                        / INR (Stated.document_frequency
                                                 (preprocessText tokenize
                                                    stopword_eng)
                                                 t docs)))
                        else Fin 0).
Proof. exact fitTransform_new_matrix. Qed.

(** X11. [fit] adds to the vocabulary a vectorizer already has: a term of
    an earlier fit that occurs in none of the new documents keeps its
    index and gets the IDF weight 0, and when that index is below the
    number of terms of the new documents, one of them now has the same
    index. *)
Theorem fit_keeps_earlier_terms :
  forall (this : TFIDFVectorizer) (docs : list string) (t : string)
         (i : nat),
    Map_get (vocabulary this) t = Some i ->
    (forall doc, In doc docs ->
                 ~ In t (preprocessText tokenize stopword_eng doc)) ->
    Map_get (vocabulary (TFIDF.fit tokenize stopword_eng this docs)) t
    = Some i
    /\ Map_get (idf (TFIDF.fit tokenize stopword_eng this docs)) t
       = Some (Fin 0)
    /\ (i < List.length (collect_tokens tokenize stopword_eng docs) ->
        exists t', t' <> t
                   /\ Map_get (vocabulary
                                 (TFIDF.fit tokenize stopword_eng this docs))
                              t' = Some i).
Proof.
  intros this docs t i Hget Hout. fold fit. fold preprocess in Hout.
  assert (Hfresh : ~ In t (collect_tokens tokenize stopword_eng docs)).
  { intros H. apply collect_tokens_In in H as [doc [Hd Ht]].
    apply (Hout doc Hd Ht). }
  assert (Hkeep : Map_get (vocabulary (fit this docs)) t = Some i).
  { unfold fit. rewrite fit_vocabulary. unfold assign_indices.
    rewrite assign_get_other by exact Hfresh. exact Hget. }
  split; [exact Hkeep |]. split.
  - unfold fit. rewrite fit_idf_get by (apply Map_get_In; eauto).
    fold preprocess. fold df.
    assert (Hdf : df t docs = 0).
    { unfold df, Stated.document_frequency.
      induction docs as [|d docs IH]; [reflexivity |]. simpl.
      destruct (existsb (String.eqb t) (preprocess d)) eqn:E.
      - apply existsb_eqb_In in E. exfalso.
        apply (Hout d (or_introl eq_refl) E).
      - apply IH.
        + intros doc Hd. apply Hout. right. exact Hd.
        + intros H. apply Hfresh. apply collect_tokens_In.
          apply collect_tokens_In in H as [doc [Hd Ht]].
          exists doc. split; [right; exact Hd | exact Ht].
        + unfold fit. rewrite fit_vocabulary. unfold assign_indices.
          rewrite assign_get_other; [exact Hget |].
          intros H. apply collect_tokens_In in H as [doc [Hd Ht]].
          apply (Hout doc (or_intror Hd) Ht). }
    rewrite Hdf. reflexivity.
  - intros Hi.
    destruct (nth_error (collect_tokens tokenize stopword_eng docs) i)
      as [t' |] eqn:Ht'; [| apply nth_error_None in Ht'; lia].
    exists t'. split.
    + intros ->. apply Hfresh. eapply nth_error_In, Ht'.
    + unfold fit. apply fit_vocabulary_order, Ht'.
Qed.

End TransformMatrix.

Lemma documentToVector_entries_witness :
  List.length
    (documentToVector Example.tokenize Example.stopword_eng
       (fit Example.tokenize Example.stopword_eng new_TFIDFVectorizer
            Example.documents)
       "tree graph tree")
  = 6.
Proof.
  exact (proj1 (documentToVector_entries
                  Example.tokenize Example.stopword_eng
                  (fit Example.tokenize Example.stopword_eng
                       new_TFIDFVectorizer Example.documents)
                  "tree graph tree"
                  (fit_new_dense Example.tokenize Example.stopword_eng
                                 Example.documents))).
Defined.

Lemma fit_keeps_earlier_terms_witness :
  Map_get (vocabulary
             (fit Example.tokenize Example.stopword_eng
                  (fit Example.tokenize Example.stopword_eng
                       new_TFIDFVectorizer ["graph theory"])
                  ["binary search"])) "graph"
  = Some 0
  /\ exists t', t' <> "graph"
       /\ Map_get (vocabulary
                     (fit Example.tokenize Example.stopword_eng
                          (fit Example.tokenize Example.stopword_eng
                               new_TFIDFVectorizer ["graph theory"])
                          ["binary search"])) t'
          = Some 0.
Proof.
  assert (Hout : forall doc, In doc ["binary search"] ->
            ~ In "graph" (preprocessText Example.tokenize
                                         Example.stopword_eng doc)).
  { intros doc [<- | []]. vm_compute. intros [H | [H | []]]; discriminate. }
  destruct (@fit_keeps_earlier_terms
              Example.tokenize Example.stopword_eng
              (fit Example.tokenize Example.stopword_eng
                   new_TFIDFVectorizer ["graph theory"])
              ["binary search"] "graph" 0 eq_refl Hout)
    as [Hkeep [_ Hclash]].
  split; [exact Hkeep |]. apply Hclash. vm_compute. lia.
Defined.

(** * Further properties of [platforms/codeforce/codeforce.js] *)

Section RoundedScores.

Local Open Scope R_scope.

Lemma Int_part_monotone (x y : R) : x <= y -> (Int_part x <= Int_part y)%Z.
Proof.
  intros Hxy.
  destruct (base_Int_part x) as [Hx _]. destruct (base_Int_part y) as [_ Hy].
  assert (H : IZR (Int_part x) < IZR (Int_part y + 1))
    by (rewrite plus_IZR; simpl; lra).
  apply lt_IZR in H. lia.
Qed.

Lemma round3_Fin (x : R) :
  round3 (Fin x) = Fin (IZR (Int_part (x * 1000 + / 2)) / 1000).
Proof.
  unfold round3, mul, Math_round, div.
  replace (Reqb 1000 0) with false by (symmetry; apply Reqb_false; lra).
  reflexivity.
Qed.

Lemma round3_PosInf : round3 PosInf = PosInf.
Proof.
  unfold round3, mul. repeat real_test. simpl. repeat real_test.
  reflexivity.
Qed.

Lemma round3_NegInf : round3 NegInf = NegInf.
Proof.
  unfold round3, mul. repeat real_test. simpl. repeat real_test.
  reflexivity.
Qed.

Lemma round3_monotone (a b : number) :
  ge a b = true -> ge (round3 a) (round3 b) = true.
Proof.
  destruct a as [x | | |], b as [y | | |]; simpl; try discriminate;
    rewrite ?round3_Fin, ?round3_PosInf, ?round3_NegInf; try reflexivity.
  intros H. apply Rleb_true in H. simpl. apply Rleb_true.
  assert (Hz : (Int_part (y * 1000 + / 2) <= Int_part (x * 1000 + / 2))%Z)
    by (apply Int_part_monotone; lra).
  apply IZR_le in Hz. lra.
Qed.

End RoundedScores.

Lemma StronglySorted_map (A B : Type) (R : A -> A -> Prop)
  (R' : B -> B -> Prop) (f : A -> B) (l : list A) :
  (forall a b, R a b -> R' (f a) (f b)) ->
  StronglySorted R l -> StronglySorted R' (map f l).
Proof.
  intros Hf H. induction H as [|x l Hs IH Hx]; simpl; constructor.
  - exact IH.
  - apply Forall_map. eapply Forall_impl; [| exact Hx]. intros y. apply Hf.
Qed.

Lemma mapM_pure (A B : Type) (g : A -> outcome B) (f : A -> B)
  (l : list A) :
  (forall x, g x = Return (f x)) -> mapM g l = Return (map f l).
Proof.
  intros H. induction l as [|x l IH]; simpl; [reflexivity |].
  now rewrite H, IH.
Qed.

Lemma mapM_all_throw (A B : Type) (g : A -> outcome B) (l : list A)
  (results : list B) :
  (forall x, exists e, g x = Throw e) ->
  mapM g l = Return results -> results = [].
Proof.
  intros H. destruct l as [|x l]; simpl.
  - intros Heq. now inversion Heq.
  - destruct (H x) as [e He]. rewrite He. discriminate.
Qed.

Lemma Return_inj (A : Type) (a b : A) : Return a = Return b -> a = b.
Proof. intros H. now inversion H. Qed.

Section QueryResults.

Variable tokenize : string -> option (list string).
Variable stopword_eng : option (list string).

(** An entry shows the name and the URL found at one position of the
    module's arrays. *)
Let aligned (this : CodeforceModule) (e : entry) : Prop :=
  exists (i : nat) (names urls : list string),
    problemNames this = Some names /\ problemUrls this = Some urls
    /\ name e = nth_error names i /\ url e = nth_error urls i.

Let well_ranked (this : CodeforceModule) (results : list entry) : Prop :=
  StronglySorted Stated.not_below results
  /\ Forall (fun e => entry_score e <> NaN /\ aligned this e) results.

Lemma well_ranked_nil (this : CodeforceModule) : well_ranked this [].
Proof. split; constructor. Qed.

Lemma loop_without_urls (this : CodeforceModule) (names ts : list string)
  (threshold : number) (l : list nat) (acc : outcome (list entry)) :
  problemUrls this = None ->
  acc = Return [] \/ (exists e, acc = Throw e) ->
  fold_left (visit this names ts threshold) l acc = Return []
  \/ exists e, fold_left (visit this names ts threshold) l acc = Throw e.
Proof.
  intros Hurls. revert acc. induction l as [|i l IH]; intros acc Hacc.
  - exact Hacc.
  - change (fold_left (visit this names ts threshold) (i :: l) acc)
      with (fold_left (visit this names ts threshold) l
                      (visit this names ts threshold acc i)).
    apply IH. destruct Hacc as [-> | [e ->]];
      [| right; exists e; reflexivity].
    unfold visit. simpl.
    destruct (nth_error names i) as [rawName |]; simpl;
      [| right; eexists; reflexivity].
    destruct (ge (name_score ts (toLowerCase rawName)) threshold);
      [| left; reflexivity].
    rewrite Hurls. simpl. right. eexists. reflexivity.
Qed.

Lemma fallbackSearch_ranked (this : CodeforceModule) (text : string)
  (threshold : number) (results : list entry) :
  fallbackSearch this text threshold = Return results ->
  well_ranked this results.
Proof.
  destruct (problemNames this) as [names |] eqn:Hnames;
    [| unfold fallbackSearch; rewrite Hnames; simpl;
       intros H; inversion H; apply well_ranked_nil].
  destruct (problemUrls this) as [urls |] eqn:Hurls.
  - rewrite (@fallbackSearch_kept this names urls text threshold Hnames
               Hurls).
    intros H. apply Return_inj in H. subst results. split.
    + apply StronglySorted_firstn.
      apply (@Array_sort_sorted entry entry_score by_entry_score);
        [reflexivity | apply kept_scores].
    + apply Forall_firstn_of, Array_sort_Forall.
      pose proof (kept_scores (Stated.terms (toLowerCase text)) names urls
                              threshold) as Hscores.
      apply Forall_forall. intros e He. split.
      * rewrite Forall_forall in Hscores. apply Hscores, He.
      * unfold Stated.kept in He.
        apply in_map_iff in He as [[i p] [<- Hip]].
        apply filter_In in Hip as [Hnum _].
        exists i, names, urls. simpl. repeat split; try assumption.
        clear - Hnum.
        assert (Hgen : forall a l,
                   In (i, p) (Stated.numbered a l) ->
                   a <= i /\ nth_error l (i - a) = Some p).
        { intros a l. revert a. induction l as [|x l IH]; intros a H;
            simpl in H; [contradiction |].
          destruct H as [H | H].
          - inversion H; subst. split; [lia |]. now rewrite Nat.sub_diag.
          - apply IH in H as [Hle Hn]. split; [lia |].
            replace (i - a) with (S (i - S a)) by lia. exact Hn. }
        apply Hgen in Hnum as [_ Hn]. rewrite Nat.sub_0_r in Hn.
        symmetry. exact Hn.
  - unfold fallbackSearch. rewrite Hnames.
    destruct (List.length names =? 0);
      [simpl; intros H; inversion H; apply well_ranked_nil |].
    destruct (@loop_without_urls this names
                (filter (fun term => 2 <? String.length term)
                        (split_ws (toLowerCase text)))
                threshold (seq 0 (List.length names)) (Return []) Hurls
                (or_introl eq_refl)) as [Hloop | [e Hloop]];
      rewrite Hloop; simpl; intros H; inversion H; apply well_ranked_nil.
Qed.

Lemma format_ranked (this : CodeforceModule) (similarities : list number)
  (threshold : number) (results : list entry) :
  mapM (format this) (getTopSimilar similarities (-1) threshold)
  = Return results ->
  well_ranked this results.
Proof.
  destruct (problemNames this) as [names |] eqn:Hnames;
    [destruct (problemUrls this) as [urls |] eqn:Hurls |].
  - rewrite (mapM_pure (format this)
               (fun result => mkEntry (nth_error names (index result))
                                      (nth_error urls (index result))
                                      (round3 (score result)) None))
      by (intros x; unfold format; rewrite Hnames, Hurls; reflexivity).
    intros H. apply Return_inj in H. subst results.
    rewrite getTopSimilar_all.
    pose proof (passing_entry similarities threshold) as Hpass.
    assert (Hscores : Forall (fun it => score it <> NaN)
                             (Stated.passing similarities threshold)).
    { eapply Forall_impl; [| exact Hpass].
      intros it [Hge _]. apply ge_not_NaN in Hge. tauto. }
    split.
    + apply (StronglySorted_map
               (R := fun a b => ge (score a) (score b) = true)).
      * intros a b Hab. unfold Stated.not_below. simpl.
        apply round3_monotone, Hab.
      * apply (@Array_sort_sorted item score by_score);
          [reflexivity | exact Hscores].
    + apply Forall_map. apply Array_sort_Forall.
      eapply Forall_impl; [| exact Hscores].
      intros it Hit. simpl. split; [apply round3_not_NaN, Hit |].
      exists (index it), names, urls. auto.
  - intros H. apply mapM_all_throw in H; [subst; apply well_ranked_nil |].
    intros x. unfold format. rewrite Hnames, Hurls. simpl. eauto.
  - intros H. apply mapM_all_throw in H; [subst; apply well_ranked_nil |].
    intros x. unfold format. rewrite Hnames. simpl. eauto.
Qed.

Lemma answer_ranked (this : CodeforceModule) (queryText : value)
  (threshold : number) (results : list entry) :
  answer tokenize stopword_eng this queryText threshold = Return results ->
  well_ranked this results.
Proof.
  unfold answer.
  destruct queryText as [| | b | n | text |];
    try (intros H; inversion H; apply well_ranked_nil).
  destruct (String.eqb text "");
    [intros H; inversion H; apply well_ranked_nil |].
  destruct (tfidfMatrix this) as [m |]; simpl; [| discriminate].
  destruct ((rows m <=? 1) && (columns m <=? 1))%bool.
  - apply fallbackSearch_ranked.
  - destruct (vectorizer this) as [v |]; simpl; [| discriminate].
    destruct (transform tokenize stopword_eng v [toLowerCase text])
      as [queryVector | e]; simpl; [| discriminate].
    destruct (cosineSimilarityMatrix m (AsMatrix queryVector))
      as [similarities | e]; simpl; [| discriminate].
    apply format_ranked.
Qed.

Lemma query_ranked (disk : Storage) (this : CodeforceModule)
  (queryText : value) (threshold : option number) (results : list entry) :
  fst (query tokenize stopword_eng disk this queryText threshold)
  = Return results ->
  well_ranked (snd (query tokenize stopword_eng disk this queryText
                          threshold)) results.
Proof.
  rewrite query_steps. simpl fst. simpl snd.
  destruct (fst (if initialized this then (Return tt, this)
                 else initialize disk this)) as [[] | e]; simpl.
  - destruct (answer tokenize stopword_eng
                (snd (if initialized this then (Return tt, this)
                      else initialize disk this))
                queryText (threshold_or_default threshold))
      as [r | e] eqn:Hanswer; simpl.
    + intros H. inversion H; subst. eapply answer_ranked, Hanswer.
    + intros H. inversion H. apply well_ranked_nil.
  - intros H. inversion H. apply well_ranked_nil.
Qed.

(** X12 ([query], [fallbackSearch]): whatever list [query] returns, on the
    fallback path or on the similarity path, is sorted by score from the
    highest down, holds no [NaN] score, and every entry shows the name and
    the URL stored at one common position of the module's [problemNames]
    and [problemUrls]. *)
Theorem query_results_ranked :
  forall (disk : Storage) (this : CodeforceModule) (queryText : value)
         (threshold : option number) (results : list entry),
    fst (query tokenize stopword_eng disk this queryText threshold)
    = Return results ->
    StronglySorted Stated.not_below results
    /\ Forall
         (fun e =>
            entry_score e <> NaN
            /\ exists (i : nat) (names urls : list string),
                 problemNames
                   (snd (query tokenize stopword_eng disk this queryText
                               threshold)) = Some names
                 /\ problemUrls
                      (snd (query tokenize stopword_eng disk this queryText
                                  threshold)) = Some urls
                 /\ name e = nth_error names i
                 /\ url e = nth_error urls i)
         results.
Proof. intros disk this queryText threshold results. apply query_ranked. Qed.

End QueryResults.

Lemma query_results_ranked_witness :
  StronglySorted Stated.not_below
    [mkEntry (Some "Binary Search Tree") (Some "https://codeforces.com/3")
             (Fin 0.7) (Some 2);
     mkEntry (Some "Binary Lifting") (Some "https://codeforces.com/1")
             (Fin 0.35) (Some 0)]
  /\ Forall
       (fun e =>
          entry_score e <> NaN
          /\ exists (i : nat) (names urls : list string),
               problemNames Example.three_problems = Some names
               /\ problemUrls Example.three_problems = Some urls
               /\ name e = nth_error names i
               /\ url e = nth_error urls i)
       [mkEntry (Some "Binary Search Tree") (Some "https://codeforces.com/3")
                (Fin 0.7) (Some 2);
        mkEntry (Some "Binary Lifting") (Some "https://codeforces.com/1")
                (Fin 0.35) (Some 0)].
Proof.
  exact (@query_results_ranked
           Example.tokenize Example.stopword_eng
           (mkStorage (Return true) (Throw "") (Throw ""))
           Example.three_problems (VString "binary search") None _
           fallback_two_results).
Defined.

(* ================================================================= *)
(** * Properties of [platforms/atcoder/atcoder.js] *)

Section AtcoderQuery.

Variable tokenize : string -> option (list string).
Variable stopword_eng : option (list string).

Lemma atcoder_query_steps (disk : Storage) (this : CodeforceModule)
  (queryText : value) (threshold : option number) :
  Atcoder.query tokenize stopword_eng disk this queryText threshold
  = (try_catch
       (_ <- fst (if initialized this then (Return tt, this)
                  else Atcoder.initialize disk this) ;;
        Atcoder.answer tokenize stopword_eng
               (snd (if initialized this then (Return tt, this)
                     else Atcoder.initialize disk this))
               queryText (threshold_or_default threshold))
       (fun _ => Return []),
     snd (if initialized this then (Return tt, this)
          else Atcoder.initialize disk this)).
Proof.
  unfold Atcoder.query. cbv zeta.
  destruct (initialized this); [reflexivity |].
  destruct (Atcoder.initialize disk this) as [ready this']. reflexivity.
Qed.

(** The two modules initialise alike: the same module afterwards, and
    success or failure together. *)
Lemma atcoder_initialize_alike (disk : Storage) (this : CodeforceModule) :
  snd (Atcoder.initialize disk this) = snd (initialize disk this)
  /\ (fst (Atcoder.initialize disk this) = Return tt
      <-> fst (initialize disk this) = Return tt)
  /\ (forall e, fst (Atcoder.initialize disk this) = Throw e ->
      exists e', fst (initialize disk this) = Throw e').
Proof.
  unfold Atcoder.initialize, initialize.
  destruct (initialized this);
    [| destruct (checkPlatformData disk) as [[|] | e];
       [destruct (loadPlatformData disk) as [[v m] | e];
        [destruct (readProblemData disk) as [[ns us] | e] | ] | | ]];
    simpl; (split; [reflexivity | split; [split; intros Heq; (reflexivity || discriminate Heq) |]]);
    intros e0 He0; try discriminate; eauto.
Qed.

(** Where the matrix is not of the placeholder's shape the two answers
    are caught alike. *)
Lemma atcoder_answer_agrees (this : CodeforceModule) (queryText : value)
  (threshold : number) :
  (forall m, tfidfMatrix this = Some m ->
             ((rows m <=? 1) && (columns m <=? 1))%bool = false) ->
  try_catch (Atcoder.answer tokenize stopword_eng this queryText threshold)
            (fun _ => Return [])
  = try_catch (answer tokenize stopword_eng this queryText threshold)
              (fun _ => Return []).
Proof.
  intros Hshape. unfold Atcoder.answer, answer, Atcoder.format, format.
  destruct queryText as [| | b | n | text |]; try reflexivity.
  destruct (String.eqb text ""); [reflexivity |].
  destruct (tfidfMatrix this) as [m |] eqn:Hm; simpl.
  - rewrite (Hshape m eq_refl).
    destruct (vectorizer this) as [v |]; simpl; [| reflexivity].
    destruct (transform tokenize stopword_eng v [toLowerCase text]);
      reflexivity.
  - destruct (vectorizer this) as [v |]; simpl; [| reflexivity].
    destruct (transform tokenize stopword_eng v [toLowerCase text]);
      reflexivity.
Qed.

Lemma atcoder_query_agrees (disk : Storage) (this : CodeforceModule)
  (queryText : value) (threshold : option number) :
  snd (Atcoder.query tokenize stopword_eng disk this queryText threshold)
  = snd (query tokenize stopword_eng disk this queryText threshold)
  /\ ((forall m,
         tfidfMatrix
           (snd (query tokenize stopword_eng disk this queryText threshold))
         = Some m ->
         ((rows m <=? 1) && (columns m <=? 1))%bool = false) ->
      fst (Atcoder.query tokenize stopword_eng disk this queryText
                         threshold)
      = fst (query tokenize stopword_eng disk this queryText threshold)).
Proof.
  rewrite atcoder_query_steps, query_steps. simpl fst. simpl snd.
  destruct (initialized this) eqn:Hinit.
  - split; [reflexivity |]. simpl. intros Hshape.
    now apply atcoder_answer_agrees.
  - destruct (atcoder_initialize_alike disk this) as [Hsnd [Hok Hthrow]].
    split; [exact Hsnd |]. rewrite Hsnd. intros Hshape.
    destruct (fst (Atcoder.initialize disk this)) as [[] | e] eqn:Hat.
    + rewrite (proj1 Hok eq_refl). simpl.
      now apply atcoder_answer_agrees.
    + destruct (Hthrow e eq_refl) as [e' ->]. reflexivity.
Qed.

(** X14 ([AtCoderModule.query], [CodeforceModule.query]): on the same
    storage and the same module state the AtCoder query leaves the module
    as the Codeforces query does, and gives the same answer whenever the
    matrix the module then holds is not of the placeholder's shape (at
    most one row and one column): the two differ by the fallback search
    only. *)
Theorem atcoder_query_as_codeforce :
  forall (disk : Storage) (this : CodeforceModule) (queryText : value)
         (threshold : option number),
    snd (Atcoder.query tokenize stopword_eng disk this queryText threshold)
    = snd (query tokenize stopword_eng disk this queryText threshold)
    /\ ((forall m,
           tfidfMatrix
             (snd (query tokenize stopword_eng disk this queryText
                         threshold))
           = Some m ->
           ((rows m <=? 1) && (columns m <=? 1))%bool = false) ->
        fst (Atcoder.query tokenize stopword_eng disk this queryText
                           threshold)
        = fst (query tokenize stopword_eng disk this queryText threshold)).
Proof. exact atcoder_query_agrees. Qed.

(** The placeholder's only row has norm 0, so its similarity to a vector
    of one entry is 0 and to any other vector an exception. *)
Lemma cosineSimilarity_placeholder_row (query : list number) :
  cosineSimilarity [Fin 0] query = Return (Fin 0)
  \/ exists e, cosineSimilarity [Fin 0] query = Throw e.
Proof.
  destruct query as [| y [| z rest]].
  - right. eexists. reflexivity.
  - left. unfold cosineSimilarity. simpl.
    replace (0 + 0 * 0)%R with 0%R by ring.
    rewrite (proj2 (Rltb_false 0 0)) by lra. rewrite sqrt_0.
    unfold is_zero at 1. rewrite (proj2 (Reqb_true 0 0)) by reflexivity.
    reflexivity.
  - right. eexists. reflexivity.
Qed.

Lemma atcoder_answer_placeholder (this : CodeforceModule)
  (queryText : value) (threshold : number) :
  tfidfMatrix this = Some placeholder ->
  ge (Fin 0) threshold = false ->
  try_catch (Atcoder.answer tokenize stopword_eng this queryText threshold)
            (fun _ => Return [])
  = Return [].
Proof.
  intros Hm Hthreshold. unfold Atcoder.answer.
  destruct queryText as [| | b | n | text |]; try reflexivity.
  destruct (String.eqb text ""); [reflexivity |].
  destruct (vectorizer this) as [v |]; simpl; [| reflexivity].
  destruct (transform tokenize stopword_eng v [toLowerCase text])
    as [queryVector | e]; simpl; [| reflexivity].
  rewrite Hm. simpl. unfold cosineSimilarityMatrix.
  destruct (getRow queryVector 0) as [query | e]; simpl; [| reflexivity].
  destruct (cosineSimilarity_placeholder_row query) as [-> | [e ->]];
    simpl; [| reflexivity].
  unfold getTopSimilar.
  change (with_index 0 [Fin 0]) with [mkItem 0 (Fin 0)].
  cbn [filter score]. rewrite Hthreshold. reflexivity.
Qed.

(** X15 ([AtCoderModule.query]): the AtCoder module has no fallback
    search.  When the module holds the placeholder matrix (the matrix file
    was too large to load) and 0 does not reach the threshold, as with
    the default 0.01, every query is answered by the empty list. *)
Theorem atcoder_query_placeholder :
  forall (disk : Storage) (this : CodeforceModule) (queryText : value)
         (threshold : option number),
    tfidfMatrix
      (snd (Atcoder.query tokenize stopword_eng disk this queryText
                          threshold))
    = Some placeholder ->
    ge (Fin 0) (threshold_or_default threshold) = false ->
    fst (Atcoder.query tokenize stopword_eng disk this queryText threshold)
    = Return [].
Proof.
  intros disk this queryText threshold. rewrite atcoder_query_steps.
  simpl fst. simpl snd. intros Hm Hthreshold.
  destruct (fst (if initialized this then (Return tt, this)
                 else Atcoder.initialize disk this)) as [[] | e];
    [| reflexivity].
  simpl. now apply atcoder_answer_placeholder.
Qed.

End AtcoderQuery.

Lemma atcoder_query_as_codeforce_witness :
  fst (Atcoder.query Example.tokenize Example.stopword_eng
         (mkStorage (Return true) (Throw "") (Throw ""))
         Example.two_by_two (VString "graph") None)
  = fst (query Example.tokenize Example.stopword_eng
           (mkStorage (Return true) (Throw "") (Throw ""))
           Example.two_by_two (VString "graph") None).
Proof.
  apply (atcoder_query_as_codeforce Example.tokenize Example.stopword_eng).
  intros m Hm. simpl in Hm. injection Hm as <-. reflexivity.
Defined.

(** The query vector has one entry, as the placeholder's row has: the
    similarity is computed, and is 0. *)
Lemma atcoder_query_placeholder_witness :
  fst (Atcoder.query Example.tokenize Example.stopword_eng
         (mkStorage (Return true) (Throw "") (Throw ""))
         Example.too_large (VString "graph") None)
  = Return [].
Proof.
  apply atcoder_query_placeholder.
  - reflexivity.
  - unfold threshold_or_default, default_threshold, ge.
    apply Bool.not_true_is_false. rewrite Rleb_true. lra.
Defined.

(* ================================================================= *)
(** * Properties of [utils/storage.js] and [utils/csv.js] *)

Section StorageFacts.

(** The size test of [loadMatrix], in bytes: 1.8 GB lies between
    1932735283 and 1932735284 bytes. *)
Lemma size_above_limit (n : N) :
  gt (div (of_N n) (Fin (1024 * 1024 * 1024))) (Fin 1.8)
  = (1932735284 <=? n)%N.
Proof.
  unfold of_N, div.
  rewrite (proj2 (Reqb_false (1024 * 1024 * 1024) 0)) by lra.
  unfold gt.
  destruct (N.leb_spec 1932735284 n) as [Hle | Hlt].
  - apply Rltb_true.
    assert (H : (IZR 1932735284 <= IZR (Z.of_N n))%R)
      by (apply IZR_le; lia).
    lra.
  - apply Rltb_false.
    assert (H : (IZR (Z.of_N n) <= IZR 1932735283)%R)
      by (apply IZR_le; lia).
    lra.
Qed.

Lemma loadMatrix_cases (file : File (list (list number))) :
  (pathExists file = false ->
   StorageJS.loadMatrix file
   = Throw ("Matrix file not found: " ++ path file)%string)
  /\ (forall n : N,
        pathExists file = true -> stat_size file = Return n ->
        ((1932735284 <= n)%N ->
         StorageJS.loadMatrix file = Return placeholder)
        /\ ((n < 1932735284)%N ->
            StorageJS.loadMatrix file
            = (data <- parsed file ;; new_Matrix data))).
Proof.
  unfold StorageJS.loadMatrix. split.
  - intros ->. reflexivity.
  - intros n -> Hsize. rewrite Hsize. simpl negb. cbv iota.
    split; intros Hn; unfold bind at 1; cbv zeta;
      rewrite size_above_limit;
      destruct (N.leb_spec 1932735284 n) as [Hle | Hlt]; try lia.
    + reflexivity.
    + destruct (parsed file) as [rows | e]; simpl; [| reflexivity].
      destruct (new_Matrix rows); reflexivity.
Qed.

End StorageFacts.

(** X16 ([loadMatrix]): a missing matrix file is an error that names the
    path; an existing file of 1932735284 bytes or more (above 1.8 GB) is
    not read and the placeholder matrix [[0]] is returned in its place;
    a smaller file is read and its rows are given to [new Matrix]. *)
Theorem loadMatrix_size_guard :
  forall file : File (list (list number)),
    (pathExists file = false ->
     StorageJS.loadMatrix file
     = Throw ("Matrix file not found: " ++ path file)%string)
    /\ (forall n : N,
          pathExists file = true -> stat_size file = Return n ->
          ((1932735284 <= n)%N ->
           StorageJS.loadMatrix file = Return placeholder)
          /\ ((n < 1932735284)%N ->
              StorageJS.loadMatrix file
              = (data <- parsed file ;; new_Matrix data))).
Proof. exact loadMatrix_cases. Qed.

Lemma loadMatrix_size_guard_witness :
  StorageJS.loadMatrix
    (mkFile "matrix.json" true (Return 2000000000%N) (Throw "too large"))
  = Return placeholder.
Proof.
  apply (proj2 (loadMatrix_size_guard
                  (mkFile "matrix.json" true (Return 2000000000%N)
                          (Throw "too large")))
               2000000000%N eq_refl eq_refl).
  vm_compute. discriminate.
Defined.

Section PlatformFiles.

Variable tokenize : string -> option (list string).
Variable stopword_eng : option (list string).

Lemma query_on_missing_file (vectorizerFile : File Serialized)
  (matrixFile : File (list (list number))) (csvFile : File (list CSV.Row))
  (this : CodeforceModule) (queryText : value)
  (threshold : option number) :
  initialized this = false ->
  (pathExists vectorizerFile && pathExists matrixFile
   && pathExists csvFile)%bool = false ->
  query tokenize stopword_eng
        (StorageJS.platform vectorizerFile matrixFile csvFile)
        this queryText threshold
  = (Return [], this)
  /\ Atcoder.query tokenize stopword_eng
        (StorageJS.platform vectorizerFile matrixFile csvFile)
        this queryText threshold
     = (Return [], this).
Proof.
  intros Hinit Hmissing.
  rewrite query_steps, atcoder_query_steps, Hinit.
  unfold initialize, Atcoder.initialize, StorageJS.platform.
  rewrite Hinit. cbn [checkPlatformData].
  unfold StorageJS.checkPlatformData. cbv zeta. cbn [StorageJS.allReady].
  rewrite Hmissing. split; reflexivity.
Qed.

(** X18 ([checkPlatformData], [initialize], [query]): when one of the
    three files of the platform is missing, a query on a module that is not
    initialised returns the empty list and leaves the module as it was, in
    the Codeforces module and in the AtCoder module alike; nothing is
    loaded, and the next query checks the files again. *)
Theorem query_missing_file :
  forall (vectorizerFile : File Serialized)
         (matrixFile : File (list (list number)))
         (csvFile : File (list CSV.Row))
         (this : CodeforceModule) (queryText : value)
         (threshold : option number),
    initialized this = false ->
    (pathExists vectorizerFile && pathExists matrixFile
     && pathExists csvFile)%bool = false ->
    query tokenize stopword_eng
          (StorageJS.platform vectorizerFile matrixFile csvFile)
          this queryText threshold
    = (Return [], this)
    /\ Atcoder.query tokenize stopword_eng
          (StorageJS.platform vectorizerFile matrixFile csvFile)
          this queryText threshold
       = (Return [], this).
Proof. exact query_on_missing_file. Qed.

End PlatformFiles.

Lemma query_missing_file_witness :
  query Example.tokenize Example.stopword_eng
        (StorageJS.platform
           (mkFile "vectorizer.json" true (Return 100%N)
                   (Return (mkSerialized [] [] true)))
           (mkFile "matrix.json" false (Throw "ENOENT") (Throw "ENOENT"))
           (mkFile "problem.csv" true (Return 60%N) (Return [])))
        new_CodeforceModule (VString "binary") None
  = (Return [], new_CodeforceModule).
Proof.
  apply (@query_missing_file Example.tokenize Example.stopword_eng
           (mkFile "vectorizer.json" true (Return 100%N)
                   (Return (mkSerialized [] [] true)))
           (mkFile "matrix.json" false (Throw "ENOENT") (Throw "ENOENT"))
           (mkFile "problem.csv" true (Return 60%N) (Return []))
           new_CodeforceModule (VString "binary") None);
    reflexivity.
Defined.

(* ================================================================= *)
(** * Properties of [platforms/codeforce/preprocess/cleaning.js] *)

Section CleanText.

Import Cleaning.

Lemma space_is_space (c : ascii) : Ascii.eqb c " " = true -> is_space c = true.
Proof. intros H. apply Ascii.eqb_eq in H. now subst c. Qed.

Lemma not_space_not_blank (c : ascii) :
  is_space c = false -> Ascii.eqb c " " = false.
Proof.
  intros H. destruct (Ascii.eqb c " ") eqn:E; [| reflexivity].
  apply space_is_space in E. congruence.
Qed.

Lemma word_char_not_space (c : ascii) :
  Stated.word_char c = true -> is_space c = false.
Proof.
  unfold Stated.word_char. intros H.
  apply andb_prop in H as [H _]. apply andb_prop in H as [H _].
  now apply negb_true_iff in H.
Qed.

Lemma replace_char_all (p : ascii -> bool) (c : ascii) (s : string) :
  p " "%char = true ->
  all_chars p s = true -> all_chars p (replace_char c s) = true.
Proof.
  intros Hp. induction s as [| x s IH]; simpl; [auto |].
  intros H. apply andb_prop in H as [Hx Hs].
  rewrite (IH Hs), andb_true_r. now destruct (Ascii.eqb x c).
Qed.

Lemma replace_char_gone (c : ascii) (s : string) :
  Ascii.eqb " " c = false ->
  all_chars (fun x => negb (Ascii.eqb x c)) (replace_char c s) = true.
Proof.
  intros Hc. induction s as [| x s IH]; simpl; [reflexivity |].
  rewrite IH, andb_true_r.
  destruct (Ascii.eqb x c) eqn:E; [now rewrite Hc | now rewrite E].
Qed.

Lemma all_chars_and (p q : ascii -> bool) (s : string) :
  all_chars p s = true -> all_chars q s = true ->
  all_chars (fun c => p c && q c) s = true.
Proof.
  induction s as [| x s IH]; simpl; [auto |].
  intros Hp Hq. apply andb_prop in Hp as [Hp Hps].
  apply andb_prop in Hq as [Hq Hqs].
  now rewrite Hp, Hq, IH.
Qed.

Lemma replaced_no_mark (s : string) :
  all_chars Stated.no_mark
    (replace_char "$" (replace_char "-" (replace_char "010" s))) = true.
Proof.
  unfold Stated.no_mark. apply all_chars_and.
  - apply (replace_char_all (fun x => negb (Ascii.eqb x "-")));
      [reflexivity |].
    now apply replace_char_gone.
  - now apply replace_char_gone.
Qed.

Lemma collapse_loose (s : string) (b : bool) :
  all_chars Stated.no_mark s = true ->
  Stated.loose_from b (collapse_from b s) = true.
Proof.
  revert b. induction s as [| c s IH]; intros b H; [reflexivity |].
  simpl in H. apply andb_prop in H as [Hc Hs]. simpl.
  destruct (is_space c) eqn:Hspace.
  - destruct b; [now apply IH |].
    simpl. now apply IH.
  - simpl. rewrite (not_space_not_blank c Hspace).
    unfold Stated.word_char. rewrite Hspace. unfold Stated.no_mark in Hc.
    simpl. rewrite Hc. now apply IH.
Qed.

Lemma loose_step (b : bool) (c : ascii) (s : string) :
  Stated.loose_from b (String c s) = true ->
  (Ascii.eqb c " " = true /\ b = false /\ Stated.loose_from true s = true)
  \/ (Ascii.eqb c " " = false /\ is_space c = false
      /\ Stated.word_char c = true /\ Stated.loose_from false s = true).
Proof.
  simpl. destruct (Ascii.eqb c " ") eqn:E; intros H;
    apply andb_prop in H as [H1 H2].
  - left. apply negb_true_iff in H1. auto.
  - right. repeat split; auto. now apply word_char_not_space.
Qed.

Lemma trimStart_loose (s : string) (b : bool) :
  Stated.loose_from b s = true -> Stated.loose_from true (trimStart s) = true.
Proof.
  revert b. induction s as [| c s IH]; intros b H; [reflexivity |].
  destruct (loose_step b c s H)
    as [[Hc [_ Hs]] | [Hc [Hspace [Hword Hs]]]].
  - simpl. rewrite (space_is_space c Hc). now apply (IH true).
  - simpl trimStart. rewrite Hspace. simpl. now rewrite Hc, Hword, Hs.
Qed.

Lemma trimEnd_tidy (s : string) (b : bool) :
  Stated.loose_from b s = true ->
  trimEnd s = "" \/ Stated.tidy_from b (trimEnd s) = true.
Proof.
  revert b. induction s as [| c s IH]; intros b H; [now left |].
  destruct (loose_step b c s H)
    as [[Hc [Hb Hs]] | [Hc [Hspace [Hword Hs]]]].
  - simpl trimEnd. destruct (IH true Hs) as [Hempty | Htidy].
    + rewrite Hempty, (space_is_space c Hc). now left.
    + right. destruct (trimEnd s) as [| x rest] eqn:E;
        [simpl in Htidy; discriminate |].
      simpl. rewrite Hc, Hb. simpl. exact Htidy.
  - right. simpl trimEnd. destruct (IH false Hs) as [Hempty | Htidy].
    + rewrite Hempty, Hspace. simpl. now rewrite Hc, Hword.
    + destruct (trimEnd s) as [| x rest] eqn:E.
      * rewrite Hspace. simpl. now rewrite Hc, Hword.
      * change (Stated.tidy_from b (String c (String x rest)))
          with (if Ascii.eqb c " "
                then negb b && Stated.tidy_from true (String x rest)
                else Stated.word_char c
                     && Stated.tidy_from false (String x rest)).
        now rewrite Hc, Hword, Htidy.
Qed.

Lemma cleanText_is_tidy (text : value) :
  Stated.tidy (cleanText text) = true.
Proof.
  destruct text as [| | b | n | text |]; try reflexivity.
  unfold cleanText. destruct (String.eqb text ""); [reflexivity |].
  unfold trim at 1, collapse_spaces.
  pose proof (collapse_loose _ false (replaced_no_mark (trim text)))
    as Hloose.
  apply trimStart_loose in Hloose.
  destruct (trimEnd_tidy _ _ Hloose) as [Hempty | Htidy].
  - rewrite Hempty. reflexivity.
  - unfold Stated.tidy. rewrite Htidy. apply orb_true_r.
Qed.

Lemma tidy_step (b : bool) (c : ascii) (s : string) :
  Stated.tidy_from b (String c s) = true ->
  (Ascii.eqb c " " = true /\ b = false
   /\ Stated.tidy_from true s = true)
  \/ (Ascii.eqb c " " = false /\ is_space c = false
      /\ Stated.word_char c = true
      /\ Stated.tidy_from false s = true).
Proof.
  simpl. destruct (Ascii.eqb c " ") eqn:E; intros H;
    apply andb_prop in H as [H1 H2].
  - left. apply negb_true_iff in H1. auto.
  - right. repeat split; auto. now apply word_char_not_space.
Qed.

Lemma tidy_weaken (s : string) :
  Stated.tidy_from true s = true -> Stated.tidy_from false s = true.
Proof.
  destruct s as [| c s]; [discriminate |]. intros H.
  destruct (tidy_step true c s H) as [[_ [Hb _]] | [Hc [_ [Hword Hs]]]];
    [discriminate |].
  simpl. now rewrite Hc, Hword, Hs.
Qed.

Lemma trimStart_fixed (s : string) :
  Stated.tidy_from true s = true -> trimStart s = s.
Proof.
  destruct s as [| c s]; [reflexivity |]. intros H.
  destruct (tidy_step true c s H) as [[_ [Hb _]] | [_ [Hspace _]]];
    [discriminate |].
  simpl. now rewrite Hspace.
Qed.

Lemma trimEnd_fixed (s : string) (b : bool) :
  Stated.tidy_from b s = true -> trimEnd s = s.
Proof.
  revert b. induction s as [| c s IH]; intros b H; [reflexivity |].
  simpl trimEnd.
  destruct (tidy_step b c s H) as [[Hc [_ Hs]] | [Hc [Hspace [_ Hs]]]].
  - rewrite (IH true Hs). destruct s; [discriminate | reflexivity].
  - rewrite (IH false Hs). destruct s; [now rewrite Hspace | reflexivity].
Qed.

Lemma replace_char_fixed (x : ascii) (s : string) (b : bool) :
  Ascii.eqb " " x = false -> Stated.word_char x = false ->
  Stated.tidy_from b s = true -> replace_char x s = s.
Proof.
  intros Hblank Hword. revert b.
  induction s as [| c s IH]; intros b H; [reflexivity |].
  simpl.
  destruct (tidy_step b c s H) as [[Hc [_ Hs]] | [Hc [_ [Hw Hs]]]].
  - rewrite (IH true Hs). apply Ascii.eqb_eq in Hc. subst c.
    now rewrite Hblank.
  - rewrite (IH false Hs). destruct (Ascii.eqb c x) eqn:E; [| reflexivity].
    apply Ascii.eqb_eq in E. subst c. congruence.
Qed.

Lemma collapse_fixed (s : string) (b : bool) :
  Stated.tidy_from b s = true -> collapse_from b s = s.
Proof.
  revert b. induction s as [| c s IH]; intros b H; [reflexivity |].
  simpl.
  destruct (tidy_step b c s H) as [[Hc [Hb Hs]] | [Hc [Hspace [_ Hs]]]].
  - rewrite (space_is_space c Hc), Hb, (IH true Hs).
    apply Ascii.eqb_eq in Hc. now subst c.
  - now rewrite Hspace, (IH false Hs).
Qed.

Lemma cleanText_fixed (s : string) :
  Stated.tidy s = true -> cleanText (VString s) = s.
Proof.
  unfold Stated.tidy, cleanText. intros H.
  destruct (String.eqb s "") eqn:E.
  - apply String.eqb_eq in E. now subst s.
  - simpl in H.
    assert (Htrim : trim s = s).
    { unfold trim. rewrite (trimStart_fixed s H).
      now apply trimEnd_fixed with (b := true). }
    rewrite Htrim.
    rewrite (replace_char_fixed "010" s true) by (auto; reflexivity).
    rewrite (replace_char_fixed "-" s true) by (auto; reflexivity).
    rewrite (replace_char_fixed "$" s true) by (auto; reflexivity).
    unfold collapse_spaces.
    rewrite (collapse_fixed s false (tidy_weaken s H)).
    exact Htrim.
Qed.

Lemma cleanText_normal (text : value) :
  Stated.tidy (cleanText text) = true
  /\ cleanText (VString (cleanText text)) = cleanText text
  /\ (forall s, text = VString s -> Stated.tidy s = true ->
                cleanText text = s).
Proof.
  split; [apply cleanText_is_tidy |]. split.
  - apply cleanText_fixed, cleanText_is_tidy.
  - intros s -> Hs. now apply cleanText_fixed.
Qed.

End CleanText.

(** X19 ([cleanText]): the result of [cleanText] is always clean text:
    empty, or words free of whitespace, hyphens and dollar signs, separated
    by single spaces, with no space at either end.  Clean text is returned
    unchanged, so cleaning twice is the same as cleaning once. *)
Theorem cleanText_idempotent :
  forall text : value,
    Stated.tidy (Cleaning.cleanText text) = true
    /\ Cleaning.cleanText (VString (Cleaning.cleanText text))
       = Cleaning.cleanText text
    /\ (forall s, text = VString s -> Stated.tidy s = true ->
                  Cleaning.cleanText text = s).
Proof. exact cleanText_normal. Qed.

(** [cleanText] on a name with a hyphen, a dollar sign, a line break and
    runs of blanks. *)
Example cleanText_sample :
  Cleaning.cleanText
    (VString ("  Two-Sum $easy" ++ String "010" "   array  ")%string)
  = "Two Sum easy array".
Proof. reflexivity. Qed.

Lemma cleanText_idempotent_witness :
  Cleaning.cleanText (VString "Two Sum") = "Two Sum".
Proof.
  apply (proj2 (proj2 (cleanText_idempotent (VString "Two Sum")))
               "Two Sum" eq_refl).
  reflexivity.
Defined.

Section CleanProblems.

Import Cleaning.

Lemma trimEnd_twice (s : string) : trimEnd (trimEnd s) = trimEnd s.
Proof.
  induction s as [| c s IH]; [reflexivity |].
  simpl. destruct (trimEnd s) as [| x rest] eqn:E.
  - destruct (is_space c) eqn:Hc; [reflexivity |].
    simpl. now rewrite Hc.
  - change (trimEnd (String c (String x rest)))
      with (match trimEnd (String x rest) with
            | EmptyString => if is_space c then EmptyString
                             else String c ""
            | String y r => String c (String y r)
            end).
    now rewrite IH.
Qed.

Lemma trimStart_head (s : string) :
  trimStart s = ""
  \/ exists c rest, trimStart s = String c rest /\ is_space c = false.
Proof.
  induction s as [| c s IH]; [now left |].
  simpl. destruct (is_space c) eqn:Hc; [exact IH |].
  right. now exists c, s.
Qed.

Lemma trimEnd_head (c : ascii) (s : string) :
  is_space c = false -> exists rest, trimEnd (String c s) = String c rest.
Proof.
  intros Hc. simpl. destruct (trimEnd s) as [| x rest].
  - rewrite Hc. now exists "".
  - now exists (String x rest).
Qed.

Lemma trim_twice (s : string) : trim (trim s) = trim s.
Proof.
  unfold trim.
  destruct (trimStart_head s) as [-> | [c [rest [-> Hc]]]]; [reflexivity |].
  destruct (trimEnd_head c rest Hc) as [rest' Hrest].
  rewrite Hrest at 1. simpl trimStart. rewrite Hc, <- Hrest.
  apply trimEnd_twice.
Qed.

Lemma cleanURL_twice (url : value) :
  cleanURL (VString (cleanURL url)) = cleanURL url.
Proof.
  destruct url as [| | b | n | url |]; try reflexivity.
  unfold cleanURL. destruct (String.eqb url ""); [reflexivity |].
  destruct (String.eqb (trim url) "") eqn:E.
  - apply String.eqb_eq in E. now rewrite E.
  - apply trim_twice.
Qed.

Lemma or_string_some (s : string) : CSV.or_string (Some s) "" = s.
Proof.
  unfold CSV.or_string. destruct (String.eqb s "") eqn:E; [| reflexivity].
  apply String.eqb_eq in E. now subst s.
Qed.

Lemma cleanProblem_twice (problem : CSV.Row) :
  cleanProblem (cleanProblem problem) = cleanProblem problem.
Proof.
  unfold cleanProblem at 1.
  change (Map_get (cleanProblem problem) "Name")
    with (Some (cleanText
                  (VString (CSV.or_string (Map_get problem "Name") "")))).
  change (Map_get (cleanProblem problem) "URL")
    with (Some (cleanURL
                  (VString (CSV.or_string (Map_get problem "URL") "")))).
  change (Map_get (cleanProblem problem) "Tag")
    with (Some (cleanText
                  (VString (CSV.or_string (Map_get problem "Tag") "")))).
  change (Map_get (cleanProblem problem) "Difficulty")
    with (Some (cleanText
                  (VString (CSV.or_string (Map_get problem "Difficulty")
                                          "")))).
  change (Map_get (cleanProblem problem) "Text")
    with (Some (cleanText
                  (VString (CSV.or_string (Map_get problem "Text") "")))).
  rewrite !or_string_some, cleanURL_twice.
  rewrite !(proj1 (proj2 (cleanText_normal _))).
  reflexivity.
Qed.

Lemma cleanProblemsData_twice (problems : list CSV.Row) :
  cleanProblemsData (cleanProblemsData problems)
  = cleanProblemsData problems
  /\ List.length (cleanProblemsData problems) = List.length problems
  /\ Forall (fun problem =>
               Map_keys problem = ["Name"; "URL"; "Tag"; "Difficulty"; "Text"]
               /\ forall field text,
                    field <> "URL" ->
                    Map_get problem field = Some text ->
                    Stated.tidy text = true)
            (cleanProblemsData problems).
Proof.
  unfold cleanProblemsData. split; [| split].
  - rewrite map_map. apply map_ext. apply cleanProblem_twice.
  - apply length_map.
  - apply Forall_forall. intros cleaned Hin.
    apply in_map_iff in Hin as [problem [<- _]].
    split; [reflexivity |].
    intros field text Hfield. unfold cleanProblem.
    cbn [Map_get].
    repeat match goal with
           | |- context [String.eqb ?k field] =>
               let E := fresh "E" in
               destruct (String.eqb k field) eqn:E;
               [ first [ apply String.eqb_eq in E; congruence
                       | cbv iota; intros Heq; injection Heq as <-;
                         exact (cleanText_is_tidy
                                  (VString (CSV.or_string
                                              (Map_get problem k) ""))) ]
               | ]
           end.
    cbv iota. intros Heq. discriminate Heq.
Qed.

End CleanProblems.

(** X20 ([cleanProblemsData], [cleanText], [cleanURL]): cleaning keeps the
    number of problems; every cleaned problem has exactly the fields Name,
    URL, Tag, Difficulty and Text, all but the URL holding clean text; and
    cleaning cleaned problems changes nothing. *)
Theorem cleanProblemsData_idempotent :
  forall problems : list CSV.Row,
    Cleaning.cleanProblemsData (Cleaning.cleanProblemsData problems)
    = Cleaning.cleanProblemsData problems
    /\ List.length (Cleaning.cleanProblemsData problems)
       = List.length problems
    /\ Forall (fun problem =>
                 Map_keys problem
                 = ["Name"; "URL"; "Tag"; "Difficulty"; "Text"]
                 /\ forall field text,
                      field <> "URL" ->
                      Map_get problem field = Some text ->
                      Stated.tidy text = true)
              (Cleaning.cleanProblemsData problems).
Proof. exact cleanProblemsData_twice. Qed.

(* ================================================================= *)
(** * A vectorizer read back from its file *)

Section Reload.

Variable tokenize : string -> option (list string).
Variable stopword_eng : option (list string).

(** [transform] reads the vocabulary, the IDF table and the fitted flag
    of the vectorizer, and nothing else. *)
Lemma transform_fields (v w : TFIDFVectorizer) (docs : list string) :
  vocabulary v = vocabulary w -> idf v = idf w -> fitted v = fitted w ->
  transform tokenize stopword_eng v docs
  = transform tokenize stopword_eng w docs.
Proof.
  intros Hvocab Hidf Hfitted.
  unfold transform, documentToVector, idf_of.
  now rewrite Hvocab, Hidf, Hfitted.
Qed.

Lemma loadVectorizer_of_serialize (file : File Serialized)
  (v : TFIDFVectorizer) :
  pathExists file = true ->
  parsed file = Return (serialize v) ->
  Stated.distinct_keys (vocabulary v) ->
  Stated.distinct_keys (idf v) ->
  exists w : TFIDFVectorizer,
    StorageJS.loadVectorizer file = Return w
    /\ vocabulary w = vocabulary v
    /\ idf w = idf v
    /\ fitted w = fitted v
    /\ getFeatureNames w = getFeatureNames v
    /\ forall docs : list string,
         transform tokenize stopword_eng w docs
         = transform tokenize stopword_eng v docs.
Proof.
  intros Hexists Hparsed Hvocab Hidf.
  exists (deserialize (serialize v)).
  assert (Hv : vocabulary (deserialize (serialize v)) = vocabulary v)
    by (unfold deserialize, serialize; simpl;
        now rewrite Map_of_entries_id).
  assert (Hi : idf (deserialize (serialize v)) = idf v)
    by (unfold deserialize, serialize; simpl;
        now rewrite Map_of_entries_id).
  split; [| repeat split; auto].
  - unfold StorageJS.loadVectorizer. now rewrite Hexists, Hparsed.
  - unfold getFeatureNames. now rewrite Hv.
  - intros docs. now apply transform_fields.
Qed.

(** X21 ([loadVectorizer], [deserialize], [serialize], [transform]): a
    vectorizer read from a file that holds its serialised form has the
    same vocabulary, IDF table, fitted flag and feature names as the
    original, and transforms every list of documents to the same matrix,
    or fails with the same error. *)
Theorem loadVectorizer_restores :
  forall (file : File Serialized) (v : TFIDFVectorizer),
    pathExists file = true ->
    parsed file = Return (serialize v) ->
    Stated.distinct_keys (vocabulary v) ->
    Stated.distinct_keys (idf v) ->
    exists w : TFIDFVectorizer,
      StorageJS.loadVectorizer file = Return w
      /\ vocabulary w = vocabulary v
      /\ idf w = idf v
      /\ fitted w = fitted v
      /\ getFeatureNames w = getFeatureNames v
      /\ forall docs : list string,
           transform tokenize stopword_eng w docs
           = transform tokenize stopword_eng v docs.
Proof. exact loadVectorizer_of_serialize. Qed.

End Reload.

Lemma loadVectorizer_restores_witness :
  exists w : TFIDFVectorizer,
    StorageJS.loadVectorizer
      (mkFile "vectorizer.json" true (Return 64%N)
              (Return (serialize
                         (mkVectorizer [("graph", 0); ("tree", 1)]
                                       [("graph", Fin 0); ("tree", Fin 0)]
                                       [] true))))
    = Return w
    /\ vocabulary w = [("graph", 0); ("tree", 1)].
Proof.
  destruct (@loadVectorizer_restores
              Example.tokenize Example.stopword_eng
              (mkFile "vectorizer.json" true (Return 64%N)
                      (Return (serialize
                                 (mkVectorizer
                                    [("graph", 0); ("tree", 1)]
                                    [("graph", Fin 0); ("tree", Fin 0)]
                                    [] true))))
              (mkVectorizer [("graph", 0); ("tree", 1)]
                            [("graph", Fin 0); ("tree", Fin 0)] [] true)
              eq_refl eq_refl)
    as [w [Hload [Hvocab _]]].
  - unfold Stated.distinct_keys. simpl.
    repeat constructor; simpl; intuition discriminate.
  - unfold Stated.distinct_keys. simpl.
    repeat constructor; simpl; intuition discriminate.
  - exists w. split; [exact Hload | exact Hvocab].
Defined.

(* ================================================================= *)
(** * [pairwiseCosineSimilarity] *)

Section Pairwise.

Lemma write_at_length (A : Type) (l : list A) (i : nat) (x : A) :
  List.length (write_at l i x) = List.length l.
Proof.
  revert i. induction l as [| y l IH]; intros [| i]; simpl; auto.
Qed.

Lemma write_at_same (A : Type) (l : list A) (i : nat) (x : A) :
  i < List.length l -> nth_error (write_at l i x) i = Some x.
Proof.
  revert i. induction l as [| y l IH]; intros [| i] H; simpl in *;
    try lia; [reflexivity |].
  apply IH. lia.
Qed.

Lemma write_at_other (A : Type) (l : list A) (i j : nat) (x : A) :
  i <> j -> nth_error (write_at l i x) j = nth_error l j.
Proof.
  revert i j. induction l as [| y l IH]; intros [| i] [| j] H; simpl;
    try reflexivity; try congruence.
  apply IH. congruence.
Qed.

(** A square matrix of size [n]. *)
Let square (n : nat) (s : Matrix) : Prop :=
  rows s = n /\ columns s = n /\ List.length (data s) = n
  /\ Forall (fun row => List.length row = n) (data s).

Lemma zeros_square (n : nat) : square n (zeros n n).
Proof.
  unfold square, zeros. simpl. rewrite repeat_length.
  repeat split; auto.
  apply Forall_forall. intros row Hrow. apply repeat_spec in Hrow.
  subst row. apply repeat_length.
Qed.

Lemma set_square (n : nat) (s : Matrix) (i j : nat) (x : number) :
  square n s -> i < n -> j < n ->
  exists s', set s i j x = Return s'
             /\ square n s'
             /\ get s' i j = Some x
             /\ forall i' j', (i', j') <> (i, j) ->
                              get s' i' j' = get s i' j'.
Proof.
  intros [Hr [Hc [Hlen Hall]]] Hi Hj. unfold set.
  destruct (nth_error (data s) i) as [row |] eqn:Hrow;
    [| apply nth_error_None in Hrow; lia].
  assert (Hrowlen : List.length row = n).
  { rewrite Forall_forall in Hall. apply Hall.
    eapply nth_error_In, Hrow. }
  eexists. split; [reflexivity |]. split; [| split].
  - unfold square. simpl. rewrite write_at_length.
    repeat split; auto.
    apply Forall_forall. intros r Hr'.
    apply In_nth_error in Hr' as [k Hk].
    destruct (Nat.eq_dec i k) as [<- | Hne].
    + rewrite write_at_same in Hk by lia. injection Hk as <-.
      now rewrite write_at_length.
    + rewrite write_at_other in Hk by exact Hne.
      rewrite Forall_forall in Hall. apply Hall.
      eapply nth_error_In, Hk.
  - unfold get. simpl. rewrite write_at_same by lia.
    apply write_at_same. lia.
  - intros i' j' Hne. unfold get. simpl.
    destruct (Nat.eq_dec i i') as [<- | Hi'].
    + rewrite write_at_same by lia. rewrite Hrow.
      apply write_at_other. congruence.
    + now rewrite write_at_other by exact Hi'.
Qed.

Variable m : Matrix.
Hypothesis rows_data : rows m = List.length (data m).
Hypothesis equal_rows :
  forall a b, In a (data m) -> In b (data m) ->
              List.length a = List.length b.

(** The similarity of two rows of [m]. *)
Let cos (i j : nat) : number :=
  match cosineSimilarity (nth i (data m) []) (nth j (data m) []) with
  | Return c => c
  | Throw _ => NaN
  end.

Let entry_of (i j : nat) : number :=
  if i =? j then Fin 1 else cos i j.

Lemma cos_value (i j : nat) :
  i < rows m -> j < rows m ->
  cosineSimilarity (nth i (data m) []) (nth j (data m) [])
  = Return (cos i j).
Proof.
  intros Hi Hj. unfold cos.
  destruct (cosineSimilarity_returns (nth i (data m) [])
              (nth j (data m) [])) as [c Hc].
  - apply equal_rows; apply nth_In; lia.
  - now rewrite Hc.
Qed.

Lemma cell_step (s : Matrix) (i j : nat) :
  square (rows m) s -> i < rows m -> j < rows m ->
  pairwise_cell m i (Return s) j = set s i j (entry_of i j).
Proof.
  intros Hs Hi Hj. unfold pairwise_cell, entry_of. simpl.
  destruct (i =? j); [reflexivity |].
  unfold getRow.
  replace (i <? rows m) with true by (symmetry; apply Nat.ltb_lt; lia).
  replace (j <? rows m) with true by (symmetry; apply Nat.ltb_lt; lia).
  simpl. now rewrite cos_value.
Qed.

Lemma fill_cells (cells : list (nat * nat)) (s : Matrix) :
  square (rows m) s ->
  (forall i j, In (i, j) cells -> i < rows m /\ j < rows m) ->
  exists s',
    fold_left (fun acc ij => pairwise_cell m (fst ij) acc (snd ij))
              cells (Return s)
    = Return s'
    /\ square (rows m) s'
    /\ (forall i j, In (i, j) cells -> get s' i j = Some (entry_of i j))
    /\ (forall i j, ~ In (i, j) cells -> get s' i j = get s i j).
Proof.
  revert s. induction cells as [| [i j] cells IH]; intros s Hs Hrange.
  - exists s. simpl.
    split; [reflexivity | split; [exact Hs | split]];
      [intros i j [] | reflexivity].
  - destruct (Hrange i j (or_introl eq_refl)) as [Hi Hj].
    destruct (set_square (entry_of i j) Hs Hi Hj)
      as [s1 [Hset [Hs1 [Hsame Hother]]]].
    destruct (IH s1 Hs1) as [s' [Hfold [Hs' [Hin Hout]]]].
    { intros i' j' H. apply Hrange. now right. }
    exists s'. split; [| split; [exact Hs' | split]].
    + change (fold_left
                (fun acc ij => pairwise_cell m (fst ij) acc (snd ij))
                ((i, j) :: cells) (Return s))
        with (fold_left
                (fun acc ij => pairwise_cell m (fst ij) acc (snd ij))
                cells (pairwise_cell m i (Return s) j)).
      rewrite (cell_step Hs Hi Hj), Hset. exact Hfold.
    + intros i' j' [Heq | Hcells].
      * injection Heq as <- <-.
        assert (Hdec : {In (i, j) cells} + {~ In (i, j) cells})
          by (apply in_dec; decide equality; apply Nat.eq_dec).
        destruct Hdec as [H | H].
        -- now apply Hin.
        -- rewrite (Hout i j H). exact Hsame.
      * now apply Hin.
    + intros i' j' Hnot.
      rewrite Hout by (intros H; apply Hnot; now right).
      apply Hother. intros Heq. apply Hnot. left. now symmetry.
Qed.

Lemma nested_loops (n : nat) (is_ : list nat) (acc : outcome Matrix) :
  fold_left (fun acc i => fold_left (pairwise_cell m i) (seq 0 n) acc)
            is_ acc
  = fold_left (fun acc ij => pairwise_cell m (fst ij) acc (snd ij))
              (flat_map (fun i => map (pair i) (seq 0 n)) is_) acc.
Proof.
  revert acc. induction is_ as [| i is_ IH]; intros acc; [reflexivity |].
  simpl. rewrite fold_left_app, IH. f_equal.
  generalize (seq 0 n). intros js. revert acc.
  induction js as [| j js IHj]; intros acc; [reflexivity |].
  simpl. apply IHj.
Qed.

Lemma pairwise_cells : 
  exists s : Matrix,
    pairwiseCosineSimilarity m = Return s
    /\ rows s = rows m /\ columns s = rows m
    /\ forall i j, i < rows m -> j < rows m ->
         get s i j = Some (entry_of i j).
Proof.
  unfold pairwiseCosineSimilarity. cbv zeta. rewrite nested_loops.
  destruct (fill_cells
              (flat_map (fun i => map (pair i) (seq 0 (rows m)))
                        (seq 0 (rows m)))
              (zeros_square (rows m)))
    as [s [Hfold [[Hr [Hc _]] [Hin _]]]].
  - intros i j H. apply in_flat_map in H as [i' [Hi' H]].
    apply in_map_iff in H as [j' [Heq Hj']].
    injection Heq as <- <-.
    apply in_seq in Hi'. apply in_seq in Hj'. lia.
  - exists s. repeat split; auto.
    intros i j Hi Hj. apply Hin.
    apply in_flat_map. exists i. split; [apply in_seq; lia |].
    apply in_map, in_seq. lia.
Qed.

Lemma pairwise_entries :
  exists s : Matrix,
    pairwiseCosineSimilarity m = Return s
    /\ rows s = rows m /\ columns s = rows m
    /\ forall (i j : nat) (a b : list number),
         nth_error (data m) i = Some a ->
         nth_error (data m) j = Some b ->
         exists c : number,
           get s i j = Some c
           /\ get s j i = Some c
           /\ (i = j -> c = Fin 1)
           /\ (i <> j -> cosineSimilarity a b = Return c).
Proof.
  destruct pairwise_cells as [s [Hrun [Hr [Hc Hcells]]]].
  exists s. split; [exact Hrun |]. split; [exact Hr |].
  split; [exact Hc |].
  intros i j a b Ha Hb.
  assert (Hi : i < rows m)
    by (rewrite rows_data; apply nth_error_Some; congruence).
  assert (Hj : j < rows m)
    by (rewrite rows_data; apply nth_error_Some; congruence).
  exists (entry_of i j). split; [now apply Hcells |]. split; [| split].
  - rewrite (Hcells j i Hj Hi). f_equal. unfold entry_of.
    rewrite (Nat.eqb_sym j i). destruct (i =? j); [reflexivity |].
    unfold cos. now rewrite cosineSimilarity_swap.
  - intros ->. unfold entry_of. now rewrite Nat.eqb_refl.
  - intros Hne. unfold entry_of.
    replace (i =? j) with false by (symmetry; now apply Nat.eqb_neq).
    rewrite <- (cos_value Hi Hj).
    now rewrite (nth_error_nth _ _ [] Ha), (nth_error_nth _ _ [] Hb).
Qed.

End Pairwise.

(** X24 ([pairwiseCosineSimilarity]): for a matrix whose rows all have
    the same length, the result is a square matrix with one row and one
    column per document; it is symmetric, every entry off the diagonal is
    the [cosineSimilarity] of the two rows, and every entry on the
    diagonal is 1, also for a row of zeros, which [cosineSimilarity]
    compares to itself as 0. *)
Theorem pairwiseCosineSimilarity_entries :
  forall m : Matrix,
    rows m = List.length (data m) ->
    (forall a b, In a (data m) -> In b (data m) ->
                 List.length a = List.length b) ->
    exists s : Matrix,
      pairwiseCosineSimilarity m = Return s
      /\ rows s = rows m /\ columns s = rows m
      /\ forall (i j : nat) (a b : list number),
           nth_error (data m) i = Some a ->
           nth_error (data m) j = Some b ->
           exists c : number,
             get s i j = Some c
             /\ get s j i = Some c
             /\ (i = j -> c = Fin 1)
             /\ (i <> j -> cosineSimilarity a b = Return c).
Proof. exact pairwise_entries. Qed.

Lemma pairwiseCosineSimilarity_entries_witness :
  exists s : Matrix,
    pairwiseCosineSimilarity (mkMatrix 2 2 [[Fin 0; Fin 0]; [Fin 1; Fin 0]])
    = Return s
    /\ get s 0 0 = Some (Fin 1).
Proof.
  destruct (pairwiseCosineSimilarity_entries
              (mkMatrix 2 2 [[Fin 0; Fin 0]; [Fin 1; Fin 0]]) eq_refl)
    as [s [Hrun [_ [_ Hcells]]]].
  - intros a b [<- | [<- | []]] [<- | [<- | []]]; reflexivity.
  - exists s. split; [exact Hrun |].
    destruct (Hcells 0 0 [Fin 0; Fin 0] [Fin 0; Fin 0] eq_refl eq_refl)
      as [c [Hget [_ [Hdiag _]]]].
    rewrite Hget, (Hdiag eq_refl). reflexivity.
Defined.

(* ================================================================= *)
(** * The similarity path of [query] *)

Lemma NoDup_map_filter (A B : Type) (key : A -> B) (keep : A -> bool)
  (items : list A) :
  NoDup (map key items) -> NoDup (map key (filter keep items)).
Proof.
  intros Hdistinct. induction items as [|x items IH]; simpl in *;
    [constructor |].
  inversion Hdistinct as [|? ? Hx Hrest]; subst.
  destruct (keep x); simpl; [| apply IH, Hrest].
  constructor; [| apply IH, Hrest].
  intros Hin. apply Hx. apply in_map_iff in Hin as [y [Hy Hin]].
  apply filter_In in Hin as [Hin _].
  apply in_map_iff. exists y. now split.
Qed.





Section SimilarityPath.

Variable tokenize : string -> option (list string).
Variable stopword_eng : option (list string).





End SimilarityPath.


(* ================================================================= *)
(** * Doubles: rounding and order *)

Section SpecFloatFacts.

Local Unset Implicit Arguments.

Import Floats.
Import Node.

Local Open Scope Z_scope.

Lemma digits2_pos_bounds (m : positive) :
  2 ^ (Z.pos (digits2_pos m) - 1) <= Z.pos m < 2 ^ Z.pos (digits2_pos m).
Proof.
  induction m as [m IH | m IH |]; simpl digits2_pos.
  - rewrite Pos2Z.inj_succ.
    replace (Z.succ (Z.pos (digits2_pos m)) - 1)
      with (Z.succ (Z.pos (digits2_pos m) - 1)) by lia.
    rewrite !Z.pow_succ_r by lia. lia.
  - rewrite Pos2Z.inj_succ.
    replace (Z.succ (Z.pos (digits2_pos m)) - 1)
      with (Z.succ (Z.pos (digits2_pos m) - 1)) by lia.
    rewrite !Z.pow_succ_r by lia. lia.
  - simpl. lia.
Qed.

Lemma iter_xO_value (d m : positive) :
  Z.pos (Pos.iter xO m d) = Z.pos m * 2 ^ Z.pos d.
Proof.
  induction d as [| d IH] using Pos.peano_ind.
  - simpl. lia.
  - rewrite Pos.iter_succ, Pos2Z.inj_succ, Z.pow_succ_r by lia.
    rewrite Pos2Z.inj_xO, IH. lia.
Qed.

(** Shifting a mantissa right by one binary digit. *)
Lemma shr_1_digits (s : shr_record) :
  Zdigits2 (shr_m (shr_1 s)) = Z.max 0 (Zdigits2 (shr_m s) - 1).
Proof.
  destruct s as [m r t]. unfold shr_1.
  destruct m as [| p | p]; try destruct p; simpl shr_m; simpl Zdigits2;
    rewrite ?Pos2Z.inj_succ; lia.
Qed.

Lemma shr_1_nonneg (s : shr_record) :
  0 <= shr_m s -> 0 <= shr_m (shr_1 s).
Proof.
  destruct s as [m r t]. unfold shr_1.
  destruct m as [| p | p]; try destruct p; simpl; lia.
Qed.

Lemma iter_shr_digits (p : positive) (s : shr_record) :
  Zdigits2 (shr_m (iter_pos shr_1 p s))
  = Z.max 0 (Zdigits2 (shr_m s) - Z.pos p).
Proof.
  revert s. induction p as [p IH | p IH |]; intros s; simpl.
  - rewrite !IH, shr_1_digits. lia.
  - rewrite !IH. lia.
  - apply shr_1_digits.
Qed.

Lemma iter_shr_nonneg (p : positive) (s : shr_record) :
  0 <= shr_m s -> 0 <= shr_m (iter_pos shr_1 p s).
Proof.
  revert s. induction p as [p IH | p IH |]; intros s H; simpl.
  - apply IH, IH, shr_1_nonneg, H.
  - apply IH, IH, H.
  - apply shr_1_nonneg, H.
Qed.

Lemma shr_record_of_loc_m (m : Z) (l : location) :
  shr_m (shr_record_of_loc m l) = m.
Proof. destruct l as [| []]; reflexivity. Qed.

Lemma Zdigits2_pos (m : Z) : 0 < m -> 0 < Zdigits2 m.
Proof. destruct m; simpl; lia. Qed.

Lemma Zdigits2_zero (m : Z) : 0 <= m -> 0 < Zdigits2 m -> 0 < m.
Proof. destruct m; simpl; lia. Qed.


Lemma fexp_value (e : Z) :
  SpecFloat.fexp prec emax e = Z.max (e - 53) (-1074).
Proof. reflexivity. Qed.

(** A right shift to the format's exponent keeps a mantissa that is not
    negative, and keeps it positive when the value is not below the
    smallest exponent. *)
Lemma shr_fexp_nonneg (m e : Z) (l : location) :
  0 <= m -> 0 <= shr_m (fst (shr_fexp prec emax m e l)).
Proof.
  intros Hm. unfold shr_fexp, shr.
  destruct (SpecFloat.fexp prec emax (Zdigits2 m + e) - e) as [| p | p];
    simpl fst; try (rewrite shr_record_of_loc_m; exact Hm).
  apply iter_shr_nonneg. now rewrite shr_record_of_loc_m.
Qed.

Lemma shr_fexp_positive (m e : Z) (l : location) :
  0 < m -> -1074 < Zdigits2 m + e ->
  0 < shr_m (fst (shr_fexp prec emax m e l))
  /\ -1074 <= snd (shr_fexp prec emax m e l).
Proof.
  intros Hm He. unfold shr_fexp, shr.
  pose proof (Zdigits2_pos m Hm) as Hd.
  destruct (SpecFloat.fexp prec emax (Zdigits2 m + e) - e) as [| p | p] eqn:Hn;
    rewrite fexp_value in Hn; simpl fst; simpl snd.
  - rewrite shr_record_of_loc_m. lia.
  - split; [| lia].
    apply Zdigits2_zero.
    + apply iter_shr_nonneg. rewrite shr_record_of_loc_m. lia.
    + rewrite iter_shr_digits, shr_record_of_loc_m. lia.
  - rewrite shr_record_of_loc_m. lia.
Qed.

Lemma round_nearest_even_bounds (m : Z) (l : location) :
  m <= round_nearest_even m l <= m + 1.
Proof.
  unfold round_nearest_even. destruct l as [| []]; try lia.
  destruct (Z.even m); lia.
Qed.

Lemma Zdigits2_mono_pos (a b : Z) : 0 < a -> a <= b -> Zdigits2 a <= Zdigits2 b.
Proof.
  intros Ha Hab. destruct a as [| a | a]; try lia.
  destruct b as [| b | b]; try lia. simpl.
  pose proof (digits2_pos_bounds a) as [Ha1 _].
  pose proof (digits2_pos_bounds b) as [_ Hb2].
  destruct (Z_lt_le_dec (Z.pos (digits2_pos b)) (Z.pos (digits2_pos a)))
    as [Hlt | Hle]; [| exact Hle].
  exfalso.
  assert (H : 2 ^ Z.pos (digits2_pos b) <= 2 ^ (Z.pos (digits2_pos a) - 1))
    by (apply Z.pow_le_mono_r; lia).
  lia.
Qed.

(** The outcomes of rounding: never NaN for a mantissa that is not
    negative. *)
Lemma binary_round_aux_sign (s : bool) (m e : Z) (l : location) :
  0 <= m ->
  binary_round_aux prec emax s m e l = S754_zero s
  \/ binary_round_aux prec emax s m e l = S754_infinity s
  \/ exists p e', binary_round_aux prec emax s m e l = S754_finite s p e'.
Proof.
  intros Hm. unfold binary_round_aux.
  pose proof (shr_fexp_nonneg m e l Hm) as H1.
  destruct (shr_fexp prec emax m e l) as [mrs e1]. simpl fst in H1.
  pose proof (round_nearest_even_bounds (shr_m mrs) (loc_of_shr_record mrs))
    as Hr.
  assert (H2 : 0 <= round_nearest_even (shr_m mrs) (loc_of_shr_record mrs))
    by lia.
  pose proof (shr_fexp_nonneg _ e1 loc_Exact H2) as H3.
  destruct (shr_fexp prec emax _ e1 loc_Exact) as [mrs2 e2].
  simpl fst in H3.
  destruct (shr_m mrs2) as [| p | p]; [now left | | lia].
  destruct (e2 <=? emax - prec); [right; right; eauto | right; now left].
Qed.

(** A positive mantissa at an exponent the format has does not round to
    zero. *)
Lemma binary_round_aux_positive (s : bool) (m e : Z) (l : location) :
  0 < m -> -1074 < Zdigits2 m + e ->
  binary_round_aux prec emax s m e l = S754_infinity s
  \/ exists p e', binary_round_aux prec emax s m e l = S754_finite s p e'.
Proof.
  intros Hm He. unfold binary_round_aux.
  pose proof (shr_fexp_positive m e l Hm He) as [H1 H1e].
  destruct (shr_fexp prec emax m e l) as [mrs e1].
  simpl fst in H1. simpl snd in H1e.
  pose proof (round_nearest_even_bounds (shr_m mrs) (loc_of_shr_record mrs))
    as Hr.
  set (m2 := round_nearest_even (shr_m mrs) (loc_of_shr_record mrs)) in *.
  assert (H2 : 0 < m2) by lia.
  pose proof (Zdigits2_pos m2 H2) as Hd2.
  assert (He2 : -1074 < Zdigits2 m2 + e1) by lia.
  pose proof (shr_fexp_positive m2 e1 loc_Exact H2 He2) as [H3 _].
  destruct (shr_fexp prec emax m2 e1 loc_Exact) as [mrs2 e2].
  simpl fst in H3.
  destruct (shr_m mrs2) as [| p | p]; try lia.
  destruct (e2 <=? emax - prec); [right; eauto | now left].
Qed.


Lemma binary_round_positive (s : bool) (m : positive) (e : Z) :
  -1074 <= e ->
  binary_round prec emax s m e = S754_infinity s
  \/ exists p e', binary_round prec emax s m e = S754_finite s p e'.
Proof.
  intros He. unfold binary_round.
  destruct (shl_align m e _) as [mz ez] eqn:Halign.
  apply binary_round_aux_positive; [lia |].
  assert (Hez : -1074 <= ez).
  { unfold shl_align in Halign. rewrite fexp_value in Halign.
    destruct (Z.max _ _ - e) eqn:Hd; injection Halign as <- <-; lia. }
  simpl Zdigits2. lia.
Qed.

Lemma shl_align_fst (m : positive) (e ez : Z) :
  ez <= e -> Z.pos (fst (shl_align m e ez)) = Z.pos m * 2 ^ (e - ez).
Proof.
  intros Hle. unfold shl_align.
  destruct (ez - e) as [| d | d] eqn:Hd; simpl fst.
  - replace (e - ez) with 0 by lia. simpl. lia.
  - lia.
  - rewrite iter_xO_value. f_equal. f_equal. lia.
Qed.

(** What validity says of a finite double. *)
Lemma valid_finite_bounds (s : bool) (m : positive) (e : Z) :
  SpecFloat.valid_binary prec emax (S754_finite s m e) = true ->
  -1074 <= e <= 971 /\ Z.pos m < 2 ^ 53 /\ (-1074 < e -> 2 ^ 52 <= Z.pos m).
Proof.
  unfold valid_binary, bounded, canonical_mantissa. intros H.
  apply andb_prop in H as [Hc He].
  apply Z.eqb_eq in Hc. apply Z.leb_le in He.
  rewrite fexp_value in Hc.
  change (emax - prec) with 971 in He.
  pose proof (digits2_pos_bounds m) as [Hlow Hhigh].
  assert (Hd : Z.pos (digits2_pos m) <= 53) by lia.
  split; [lia |]. split.
  - apply Z.lt_le_trans with (1 := Hhigh). apply Z.pow_le_mono_r; lia.
  - intros Hnormal.
    assert (Heq : Z.pos (digits2_pos m) = 53) by lia.
    rewrite Heq in Hlow. exact Hlow.
Qed.

Lemma SFcompare_aligned (sx : bool) (mx : positive) (ex : Z)
      (sy : bool) (my : positive) (ey : Z) :
  SpecFloat.valid_binary prec emax (S754_finite sx mx ex) = true ->
  SpecFloat.valid_binary prec emax (S754_finite sy my ey) = true ->
  SFcompare (S754_finite sx mx ex) (S754_finite sy my ey)
  = Some (cond_Zopp sx (Z.pos (fst (shl_align mx ex (Z.min ex ey))))
          ?= cond_Zopp sy (Z.pos (fst (shl_align my ey (Z.min ex ey))))).
Proof.
  intros Hx Hy.
  apply valid_finite_bounds in Hx as (Hex & Hmx & Hnx).
  apply valid_finite_bounds in Hy as (Hey & Hmy & Hny).
  rewrite !shl_align_fst by lia.
  unfold SFcompare. f_equal.
  destruct (Z.compare_spec ex ey) as [Heq | Hlt | Hgt].
  - subst ey. rewrite Z.min_id, Z.sub_diag, Z.pow_0_r, !Z.mul_1_r.
    destruct sx, sy; reflexivity.
  - rewrite Z.min_l by lia. rewrite Z.sub_diag, Z.pow_0_r, Z.mul_1_r.
    assert (Hp : 2 ^ 1 <= 2 ^ (ey - ex)) by (apply Z.pow_le_mono_r; lia).
    assert (Hmy' : 2 ^ 52 <= Z.pos my) by (apply Hny; lia).
    change (2 ^ 1) with 2 in Hp.
    change (2 ^ 52) with 4503599627370496 in Hmy'.
    change (2 ^ 53) with 9007199254740992 in Hmx.
    set (P := 2 ^ (ey - ex)) in *.
    clearbody P. destruct sx, sy; unfold cond_Zopp; symmetry;
      first [apply Z.compare_lt_iff | apply Z.compare_gt_iff]; nia.
  - rewrite Z.min_r by lia. rewrite Z.sub_diag, Z.pow_0_r, Z.mul_1_r.
    assert (Hp : 2 ^ 1 <= 2 ^ (ex - ey)) by (apply Z.pow_le_mono_r; lia).
    assert (Hmx' : 2 ^ 52 <= Z.pos mx) by (apply Hnx; lia).
    change (2 ^ 1) with 2 in Hp.
    change (2 ^ 52) with 4503599627370496 in Hmx'.
    change (2 ^ 53) with 9007199254740992 in Hmy.
    set (P := 2 ^ (ex - ey)) in *.
    clearbody P. destruct sx, sy; unfold cond_Zopp; symmetry;
      first [apply Z.compare_lt_iff | apply Z.compare_gt_iff]; nia.
Qed.

(** [y - x] is above zero exactly when [x] is below [y]: the difference
    of two doubles is zero only when they are equal, for the format has
    subnormal numbers. *)
Lemma SFsub_sign (x y : spec_float) :
  SpecFloat.valid_binary prec emax x = true -> SpecFloat.valid_binary prec emax y = true ->
  SFltb (S754_zero false) (SFsub prec emax y x) = SFltb x y.
Proof.
  intros Hx Hy.
  destruct x as [sx | sx | | sx mx ex], y as [sy | sy | | sy my ey];
    try reflexivity;
    try (destruct sx; reflexivity);
    try (destruct sy; reflexivity);
    try (destruct sx, sy; reflexivity).
  unfold SFsub, SFltb.
  rewrite (SFcompare_aligned _ _ _ _ _ _ Hx Hy).
  rewrite (Z.min_comm ey ex).
  apply valid_finite_bounds in Hx as (Hex & _).
  apply valid_finite_bounds in Hy as (Hey & _).
  set (a := cond_Zopp sx _). set (b := cond_Zopp sy _).
  cbv zeta.
  destruct (b - a) as [| d | d] eqn:Hd; unfold binary_normalize.
  - replace (a ?= b) with Eq by (symmetry; apply Z.compare_eq_iff; lia).
    reflexivity.
  - replace (a ?= b) with Lt by (symmetry; apply Z.compare_lt_iff; lia).
    destruct (binary_round_positive false d (Z.min ex ey)) as [-> | (p & e' & ->)];
      [lia | reflexivity | reflexivity].
  - replace (a ?= b) with Gt by (symmetry; apply Z.compare_gt_iff; lia).
    destruct (binary_round_positive true d (Z.min ex ey)) as [-> | (p & e' & ->)];
      [lia | reflexivity | reflexivity].
Qed.


Lemma finite_ord_bounds (s : bool) (m : positive) (e : Z) :
  SpecFloat.valid_binary prec emax (S754_finite s m e) = true ->
  0 < Z.pos m * 2 ^ (e + 1074) < 2 ^ 53 * 2 ^ 2045.
Proof.
  intros H. apply valid_finite_bounds in H as (He & Hm & _).
  assert (H0 : 0 < 2 ^ (e + 1074)) by (apply Z.pow_pos_nonneg; lia).
  assert (H1 : 2 ^ (e + 1074) <= 2 ^ 2045) by (apply Z.pow_le_mono_r; lia).
  set (P := 2 ^ (e + 1074)) in *. set (B := 2 ^ 2045) in *.
  set (M := 2 ^ 53) in *. clearbody P B M. nia.
Qed.

Lemma SFcompare_ord (x y : spec_float) :
  SpecFloat.valid_binary prec emax x = true ->
  SpecFloat.valid_binary prec emax y = true ->
  x <> S754_nan -> y <> S754_nan ->
  SFcompare x y = Some (SFord x ?= SFord y).
Proof.
  intros Hx Hy Hnx Hny.
  assert (HB : 0 < 2 ^ 53 * 2 ^ 2045) by (apply Z.mul_pos_pos; apply Z.pow_pos_nonneg; lia).
  destruct x as [sx | sx | | sx mx ex], y as [sy | sy | | sy my ey];
    try congruence; clear Hnx Hny.
  - reflexivity.
  - unfold SFcompare, SFord. set (B := 2 ^ 53 * 2 ^ 2045) in *. clearbody B.
    f_equal. symmetry.
    destruct sy; unfold cond_Zopp;
      first [apply Z.compare_lt_iff | apply Z.compare_gt_iff]; lia.
  - pose proof (finite_ord_bounds _ _ _ Hy) as Hb.
    unfold SFcompare, SFord. set (V := Z.pos my * _) in *. clearbody V.
    f_equal. symmetry.
    destruct sy; unfold cond_Zopp;
      first [apply Z.compare_lt_iff | apply Z.compare_gt_iff]; lia.
  - unfold SFcompare, SFord. set (B := 2 ^ 53 * 2 ^ 2045) in *. clearbody B.
    f_equal. symmetry.
    destruct sx; unfold cond_Zopp;
      first [apply Z.compare_lt_iff | apply Z.compare_gt_iff]; lia.
  - unfold SFcompare, SFord. set (B := 2 ^ 53 * 2 ^ 2045) in *. clearbody B.
    f_equal. symmetry.
    destruct sx, sy; unfold cond_Zopp;
      first [apply Z.compare_lt_iff | apply Z.compare_gt_iff
            | apply Z.compare_eq_iff]; lia.
  - pose proof (finite_ord_bounds _ _ _ Hy) as Hb.
    unfold SFcompare, SFord. set (V := Z.pos my * _) in *. clearbody V.
    set (B := 2 ^ 53 * 2 ^ 2045) in *. clearbody B.
    f_equal. symmetry.
    destruct sx, sy; unfold cond_Zopp;
      first [apply Z.compare_lt_iff | apply Z.compare_gt_iff]; lia.
  - pose proof (finite_ord_bounds _ _ _ Hx) as Hb.
    unfold SFcompare, SFord. set (V := Z.pos mx * _) in *. clearbody V.
    f_equal. symmetry.
    destruct sx; unfold cond_Zopp;
      first [apply Z.compare_lt_iff | apply Z.compare_gt_iff]; lia.
  - pose proof (finite_ord_bounds _ _ _ Hx) as Hb.
    unfold SFcompare, SFord. set (V := Z.pos mx * _) in *. clearbody V.
    set (B := 2 ^ 53 * 2 ^ 2045) in *. clearbody B.
    f_equal. symmetry.
    destruct sx, sy; unfold cond_Zopp;
      first [apply Z.compare_lt_iff | apply Z.compare_gt_iff]; lia.
  - rewrite (SFcompare_aligned _ _ _ _ _ _ Hx Hy). f_equal.
    apply valid_finite_bounds in Hx as (Hex & _).
    apply valid_finite_bounds in Hy as (Hey & _).
    rewrite !shl_align_fst by lia.
    unfold SFord.
    assert (Hz : -1074 <= Z.min ex ey /\ Z.min ex ey <= ex /\ Z.min ex ey <= ey)
      by lia.
    set (ez := Z.min ex ey) in *. clearbody ez.
    assert (Hp : 2 ^ (ez + 1074) > 0)
      by (apply Z.lt_gt, Z.pow_pos_nonneg; lia).
    rewrite (Zmult_compare_compat_r _ _ _ Hp).
    replace (ex + 1074) with ((ex - ez) + (ez + 1074)) by lia.
    replace (ey + 1074) with ((ey - ez) + (ez + 1074)) by lia.
    rewrite (Z.pow_add_r 2 (ex - ez) (ez + 1074)) by lia.
    rewrite (Z.pow_add_r 2 (ey - ez) (ez + 1074)) by lia.
    f_equal; [destruct sx | destruct sy]; unfold cond_Zopp; ring.
Qed.

End SpecFloatFacts.

Section DoubleFacts.

Import Floats.
Import Node.

Local Unset Implicit Arguments.
Local Open Scope Z_scope.

Lemma SFcompare_None (x y : spec_float) :
  SFcompare x y = None <-> x = S754_nan \/ y = S754_nan.
Proof.
  destruct x as [sx | sx | | sx mx ex], y as [sy | sy | | sy my ey];
    simpl; split; intros H; try discriminate; try tauto;
    destruct H as [H | H]; discriminate.
Qed.

Lemma is_nan_spec (x : float) :
  is_nan x = false <-> Prim2SF x <> S754_nan.
Proof.
  unfold is_nan. rewrite FloatAxioms.eqb_spec. unfold SFeqb.
  split.
  - intros H Hnan. rewrite Hnan in H. discriminate.
  - intros H.
    rewrite (SFcompare_ord _ _ (Prim2SF_valid x) (Prim2SF_valid x) H H).
    now rewrite Z.compare_refl.
Qed.

(** Among the doubles that are not NaN, [<=] and [<] are those of the
    places on the integer line. *)
Lemma leb_ord (x y : float) :
  is_nan x = false -> is_nan y = false ->
  PrimFloat.leb x y = (ord x <=? ord y).
Proof.
  intros Hx Hy. apply is_nan_spec in Hx, Hy.
  rewrite leb_spec. unfold SFleb, ord.
  rewrite (SFcompare_ord _ _ (Prim2SF_valid x) (Prim2SF_valid y) Hx Hy).
  unfold Z.leb. now destruct (SFord (Prim2SF x) ?= SFord (Prim2SF y)).
Qed.

Lemma ltb_ord (x y : float) :
  is_nan x = false -> is_nan y = false ->
  PrimFloat.ltb x y = (ord x <? ord y).
Proof.
  intros Hx Hy. apply is_nan_spec in Hx, Hy.
  rewrite ltb_spec. unfold SFltb, ord.
  rewrite (SFcompare_ord _ _ (Prim2SF_valid x) (Prim2SF_valid y) Hx Hy).
  unfold Z.ltb. now destruct (SFord (Prim2SF x) ?= SFord (Prim2SF y)).
Qed.

(** A comparison that holds has no NaN on either side. *)
Lemma leb_not_nan (x y : float) :
  PrimFloat.leb x y = true -> is_nan x = false /\ is_nan y = false.
Proof.
  rewrite leb_spec. unfold SFleb. intros H.
  rewrite !is_nan_spec.
  split; intros Hnan;
    assert (Hc : SFcompare (Prim2SF x) (Prim2SF y) = None)
      by (apply SFcompare_None; tauto);
    rewrite Hc in H; discriminate.
Qed.

Lemma ge_NaN (x y : float) : is_nan x = true -> ge x y = false.
Proof.
  intros Hx. unfold ge.
  destruct (PrimFloat.leb y x) eqn:H; [| reflexivity].
  apply leb_not_nan in H as [_ H]. congruence.
Qed.

(** The sign of a difference is the order of its terms. *)
Lemma double_sub_gt0 (x y : float) :
  gt0 (PrimFloat.sub y x) = PrimFloat.ltb x y.
Proof.
  unfold gt0. rewrite !ltb_spec, sub_spec.
  change (Prim2SF zero) with (S754_zero false).
  apply SFsub_sign; apply Prim2SF_valid.
Qed.

Lemma SFopp_not_nan (x : spec_float) :
  x <> S754_nan -> SFopp x <> S754_nan.
Proof. destruct x; simpl; congruence. Qed.

Lemma binary_round_aux_not_nan (s : bool) (m e : Z) (l : location) :
  0 <= m -> binary_round_aux prec emax s m e l <> S754_nan.
Proof.
  intros Hm.
  destruct (binary_round_aux_sign s m e l Hm) as [H | [H | (p & e' & H)]];
    rewrite H; discriminate.
Qed.

Lemma binary_normalize_not_nan (m e : Z) (s : bool) :
  binary_normalize prec emax m e s <> S754_nan.
Proof.
  unfold binary_normalize, binary_round.
  destruct m as [| p | p]; [discriminate | |];
    destruct (shl_align _ _ _) as [mz ez];
    apply binary_round_aux_not_nan; lia.
Qed.

Lemma SFmul_finite_not_nan (x : spec_float) (s : bool) (m : positive) (e : Z) :
  x <> S754_nan -> SFmul prec emax x (S754_finite s m e) <> S754_nan.
Proof.
  destruct x as [sx | sx | | sx mx ex]; simpl; try congruence.
  intros _. apply binary_round_aux_not_nan. lia.
Qed.

Lemma SFdiv_finite_not_nan (x : spec_float) (s : bool) (m : positive) (e : Z) :
  x <> S754_nan -> SFdiv prec emax x (S754_finite s m e) <> S754_nan.
Proof.
  destruct x as [sx | sx | | sx mx ex]; simpl; try congruence.
  intros _. unfold SFdiv_core_binary. cbv zeta.
  set (shift := _ - _ - Z.min _ _).
  set (m' := match shift with Z0 => Z.pos mx | Z.pos _ => Z.shiftl (Z.pos mx) shift | Z.neg _ => 0 end).
  assert (Hm' : 0 <= m').
  { unfold m'. destruct shift; try lia. apply Z.shiftl_nonneg. lia. }
  destruct (Z.div_eucl m' (Z.pos m)) as [q r] eqn:Hqr.
  apply binary_round_aux_not_nan.
  assert (Hq : q = m' / Z.pos m) by (unfold Z.div; now rewrite Hqr).
  rewrite Hq. apply Z.div_pos; lia.
Qed.

Lemma Math_round_not_nan (x : float) :
  is_nan x = false -> is_nan (Math_round x) = false.
Proof.
  intros Hx. unfold Math_round.
  destruct (Prim2SF x) as [s | s | | s m [| k | k]] eqn:Hsf; try exact Hx.
  destruct (_ / _) as [| p | p].
  - destruct s; reflexivity.
  - apply is_nan_spec. rewrite of_uint63_spec.
    apply binary_normalize_not_nan.
  - apply is_nan_spec. rewrite opp_spec, of_uint63_spec.
    apply SFopp_not_nan, binary_normalize_not_nan.
Qed.

Lemma Prim2SF_1000 :
  Prim2SF 1000%float = S754_finite false 8796093022208000 (-43).
Proof. reflexivity. Qed.

(** Rounding to three decimals makes no NaN. *)
Lemma round3_not_nan (x : float) :
  is_nan x = false -> is_nan (round3 x) = false.
Proof.
  intros Hx. unfold round3.
  assert (Hmul : is_nan (PrimFloat.mul x 1000%float) = false).
  { apply is_nan_spec. rewrite mul_spec, Prim2SF_1000.
    apply SFmul_finite_not_nan. now apply is_nan_spec. }
  apply Math_round_not_nan in Hmul.
  apply is_nan_spec. rewrite div_spec, Prim2SF_1000.
  apply SFdiv_finite_not_nan. now apply is_nan_spec.
Qed.

End DoubleFacts.

(* ================================================================= *)
(** * Sorting by a double *)

Section NodeSort.

Variable A : Type.
Variable key : A -> PrimFloat.float.
Variable compare : A -> A -> PrimFloat.float.
Hypothesis compare_key :
  forall x y, compare x y = PrimFloat.sub (key y) (key x).

Let real (x : A) : Prop := PrimFloat.is_nan (key x) = false.
Let above (a b : A) : Prop := (Node.ord (key b) <= Node.ord (key a))%Z.

Lemma node_insert_perm (x : A) (l : list A) :
  Permutation (Node.sort_insert compare x l) (x :: l).
Proof.
  induction l as [|y l IH]; simpl; [reflexivity |].
  destruct (Node.gt0 (compare x y)); [| reflexivity].
  rewrite IH. apply perm_swap.
Qed.

Lemma node_sort_perm (l : list A) :
  Permutation (Node.Array_sort compare l) l.
Proof.
  induction l as [|x l IH]; simpl; [reflexivity |].
  rewrite node_insert_perm. now constructor.
Qed.

Lemma node_insert_above (x : A) (l : list A) :
  real x -> Forall real l ->
  StronglySorted above l ->
  StronglySorted above (Node.sort_insert compare x l).
Proof.
  intros Hx Hl Hs. induction Hs as [|y l Hs IH Hy]; simpl.
  - repeat constructor.
  - inversion Hl as [|? ? Hyr Hlr]; subst.
    rewrite compare_key, double_sub_gt0, (ltb_ord _ _ Hx Hyr).
    destruct (Z.ltb_spec (Node.ord (key x)) (Node.ord (key y))) as [Hlt | Hge].
    + constructor; [apply IH, Hlr |].
      apply (Permutation_Forall (Permutation_sym (node_insert_perm x l))).
      constructor; [unfold above; lia | exact Hy].
    + constructor; [constructor; assumption |].
      constructor; [exact Hge |].
      apply Forall_impl with (2 := Hy). unfold above. intros z Hz. lia.
Qed.

Lemma node_sort_above (l : list A) :
  Forall real l -> StronglySorted above (Node.Array_sort compare l).
Proof.
  induction l as [|x l IH]; intros Hl; simpl; [constructor |].
  inversion Hl as [|? ? Hx Hl']; subst.
  apply node_insert_above; [exact Hx | | apply IH, Hl'].
  apply (Permutation_Forall (Permutation_sym (node_sort_perm l))), Hl'.
Qed.

Lemma above_leb (l : list A) :
  Forall real l -> StronglySorted above l ->
  StronglySorted (fun a b => PrimFloat.leb (key b) (key a) = true) l.
Proof.
  intros Hl Hs. induction Hs as [|x l Hs IH Hx]; [constructor |].
  inversion Hl as [|? ? Hxr Hlr]; subst.
  constructor; [apply IH, Hlr |].
  apply Forall_forall. intros z Hz.
  rewrite Forall_forall in Hx, Hlr.
  rewrite (leb_ord _ _ (Hlr z Hz) Hxr). apply Z.leb_le, Hx, Hz.
Qed.

(** [array.sort((a, b) => key(b) - key(a))] orders an array without NaN
    keys by decreasing key. *)
Lemma node_sort_sorted (l : list A) :
  Forall real l ->
  StronglySorted (fun a b => PrimFloat.leb (key b) (key a) = true)
                 (Node.Array_sort compare l).
Proof.
  intros Hl. apply above_leb; [| apply node_sort_above, Hl].
  apply (Permutation_Forall (Permutation_sym (node_sort_perm l))), Hl.
Qed.

End NodeSort.

(* ================================================================= *)
(** * [getTopSimilar] on doubles *)

Lemma NoDup_firstn_of (A : Type) (n : nat) (l : list A) :
  NoDup l -> NoDup (firstn n l).
Proof.
  intros H. rewrite <- (firstn_skipn n l) in H.
  now apply NoDup_app_remove_r in H.
Qed.

(** In a sorted list every element of a prefix stands above every
    element behind it. *)
Lemma sorted_prefix_above (A : Type) (R : A -> A -> Prop) (n : nat)
  (l : list A) (a b : A) :
  StronglySorted R l -> In a (firstn n l) -> In b (skipn n l) -> R a b.
Proof.
  intros H. revert n. induction H as [|x l Hs IH Hx]; intros n Ha Hb.
  - destruct n; contradiction.
  - destruct n as [|n]; [contradiction |]. simpl in Ha, Hb.
    destruct Ha as [<- | Ha]; [| now apply (IH n)].
    rewrite Forall_forall in Hx. apply Hx.
    rewrite <- (firstn_skipn n l). apply in_or_app. now right.
Qed.

Lemma node_with_index_In (l : list Node.number) (a i : nat)
  (s : Node.number) :
  In (Node.mkItem i s) (Node.with_index a l)
  <-> a <= i /\ nth_error l (i - a) = Some s.
Proof.
  revert a. induction l as [|x l IH]; intros a; simpl.
  - split; [intros [] | intros [_ H]]. destruct (i - a); discriminate.
  - rewrite IH. split.
    + intros [H | [Hle Hnth]].
      * injection H as <- <-. split; [lia |]. now rewrite Nat.sub_diag.
      * split; [lia |].
        replace (i - a) with (S (i - S a)) by lia. exact Hnth.
    + intros [Hle Hnth].
      destruct (Nat.eq_dec a i) as [<- | Hne].
      * left. rewrite Nat.sub_diag in Hnth. simpl in Hnth. congruence.
      * right. split; [lia |].
        replace (i - a) with (S (i - S a)) in Hnth by lia. exact Hnth.
Qed.

Lemma node_with_index_indices (l : list Node.number) (a : nat) :
  map Node.index (Node.with_index a l) = seq a (List.length l).
Proof.
  revert a. induction l as [|x l IH]; intros a; simpl;
    [reflexivity | now rewrite IH].
Qed.

Lemma node_passing_length (l : list Node.number) (t : Node.number)
  (a : nat) :
  List.length (filter (fun it => Node.ge (Node.score it) t)
                      (Node.with_index a l))
  = List.length (filter (fun s => Node.ge s t) l).
Proof.
  revert a. induction l as [|x l IH]; intros a; simpl; [reflexivity |].
  destruct (Node.ge x t); simpl; now rewrite IH.
Qed.

Section NodeRanking.

Variable similarities : list Node.number.
Variable k : Z.
Variable threshold : Node.number.

Let passing : list Node.item :=
  filter (fun it => Node.ge (Node.score it) threshold)
         (Node.with_index 0 similarities).

Let ranked : list Node.item := Node.Array_sort Node.by_score passing.

Let cut : nat :=
  if (0 <? k)%Z then Nat.min (Z.to_nat k) (List.length ranked)
  else List.length ranked.

Lemma node_getTopSimilar_prefix :
  Node.getTopSimilar similarities k threshold = firstn cut ranked.
Proof.
  unfold Node.getTopSimilar, cut. fold passing. fold ranked.
  destruct (0 <? k)%Z eqn:Hk; simpl.
  - destruct (k <? Z.of_nat (List.length ranked))%Z eqn:Hlen.
    + apply Z.ltb_lt in Hlen. f_equal. lia.
    + apply Z.ltb_ge in Hlen. rewrite Nat.min_r by lia.
      now rewrite firstn_all.
  - now rewrite firstn_all.
Qed.

Lemma node_passing_In (i : nat) (s : Node.number) :
  In (Node.mkItem i s) passing
  <-> nth_error similarities i = Some s /\ Node.ge s threshold = true.
Proof.
  unfold passing. rewrite filter_In, node_with_index_In, Nat.sub_0_r.
  simpl. split; [tauto | intros [H1 H2]; repeat split; [lia | | ]; assumption].
Qed.

Lemma node_ranked_perm : Permutation ranked passing.
Proof. apply node_sort_perm. Qed.

Lemma node_ranked_length :
  List.length ranked
  = List.length (filter (fun s => Node.ge s threshold) similarities).
Proof.
  rewrite (Permutation_length node_ranked_perm).
  apply node_passing_length.
Qed.

Lemma node_passing_real :
  Forall (fun it => PrimFloat.is_nan (Node.score it) = false) passing.
Proof.
  apply Forall_forall. intros it H. apply filter_In in H as [_ H].
  now apply leb_not_nan in H.
Qed.

Lemma node_ranked_sorted :
  StronglySorted
    (fun a b => PrimFloat.leb (Node.score b) (Node.score a) = true) ranked.
Proof.
  apply (@node_sort_sorted Node.item Node.score Node.by_score);
    [reflexivity | apply node_passing_real].
Qed.

Lemma node_ranked_distinct : NoDup (map Node.index ranked).
Proof.
  apply (Permutation_NoDup
           (Permutation_sym (Permutation_map Node.index node_ranked_perm))).
  apply NoDup_map_filter. rewrite node_with_index_indices. apply seq_NoDup.
Qed.

Lemma node_getTopSimilar_ranking :
  (forall e, In e (Node.getTopSimilar similarities k threshold) ->
             nth_error similarities (Node.index e) = Some (Node.score e)
             /\ Node.ge (Node.score e) threshold = true)
  /\ StronglySorted
       (fun a b => PrimFloat.leb (Node.score b) (Node.score a) = true)
       (Node.getTopSimilar similarities k threshold)
  /\ NoDup (map Node.index (Node.getTopSimilar similarities k threshold))
  /\ List.length (Node.getTopSimilar similarities k threshold)
     = (if (0 <? k)%Z
        then Nat.min (Z.to_nat k)
               (List.length
                  (filter (fun s => Node.ge s threshold) similarities))
        else List.length
               (filter (fun s => Node.ge s threshold) similarities))
  /\ (forall (i : nat) (s : Node.number),
         nth_error similarities i = Some s ->
         Node.ge s threshold = true ->
         In (Node.mkItem i s) (Node.getTopSimilar similarities k threshold)
         \/ ((0 < k)%Z
             /\ forall e,
                  In e (Node.getTopSimilar similarities k threshold) ->
                  PrimFloat.leb s (Node.score e) = true)).
Proof.
  rewrite node_getTopSimilar_prefix.
  split; [| split; [| split; [| split]]].
  - intros [i s] He. apply In_firstn_of in He.
    apply (Permutation_in _ node_ranked_perm) in He.
    now apply node_passing_In in He.
  - apply StronglySorted_firstn, node_ranked_sorted.
  - rewrite <- firstn_map. apply NoDup_firstn_of, node_ranked_distinct.
  - rewrite length_firstn. unfold cut. rewrite node_ranked_length.
    destruct (0 <? k)%Z; lia.
  - intros i s Hnth Hge.
    assert (Hin : In (Node.mkItem i s) ranked).
    { apply (Permutation_in _ (Permutation_sym node_ranked_perm)).
      now apply node_passing_In. }
    rewrite <- (firstn_skipn cut ranked) in Hin.
    apply in_app_or in Hin as [Hin | Hin]; [now left | right].
    split.
    + unfold cut in Hin. destruct (0 <? k)%Z eqn:Hk;
        [now apply Z.ltb_lt in Hk |].
      rewrite skipn_all in Hin. contradiction.
    + intros e He.
      apply (@sorted_prefix_above _ _ cut ranked e _ node_ranked_sorted He Hin).
Qed.

End NodeRanking.

(** C2.  For every list of doubles, every [k] and every threshold,
    [getTopSimilar] returns entries whose score is the one listed at their
    index and reaches the threshold, in non-increasing order of score and
    no index twice.  It returns all the scores that reach the threshold
    when [k <= 0], and [k] of them at most when [k > 0]: every passing
    score is then either returned or no higher than any score that is
    returned. *)
Theorem getTopSimilar_ranking :
  forall (similarities : list Node.number) (k : Z) (threshold : Node.number),
    (forall e, In e (Node.getTopSimilar similarities k threshold) ->
               nth_error similarities (Node.index e) = Some (Node.score e)
               /\ Node.ge (Node.score e) threshold = true)
    /\ StronglySorted
         (fun a b => PrimFloat.leb (Node.score b) (Node.score a) = true)
         (Node.getTopSimilar similarities k threshold)
    /\ NoDup (map Node.index (Node.getTopSimilar similarities k threshold))
    /\ List.length (Node.getTopSimilar similarities k threshold)
       = (if (0 <? k)%Z
          then Nat.min (Z.to_nat k)
                 (List.length
                    (filter (fun s => Node.ge s threshold) similarities))
          else List.length
                 (filter (fun s => Node.ge s threshold) similarities))
    /\ (forall (i : nat) (s : Node.number),
           nth_error similarities i = Some s ->
           Node.ge s threshold = true ->
           In (Node.mkItem i s) (Node.getTopSimilar similarities k threshold)
           \/ ((0 < k)%Z
               /\ forall e,
                    In e (Node.getTopSimilar similarities k threshold) ->
                    PrimFloat.leb s (Node.score e) = true)).
Proof. exact node_getTopSimilar_ranking. Qed.

(* ================================================================= *)
(** * [fallbackSearch] on doubles *)

Lemma removelast_twice (A : Type) (l : list A) :
  removelast (removelast l) = firstn (List.length l - 2) l.
Proof.
  rewrite (removelast_firstn_len (removelast l)).
  rewrite (removelast_firstn_len l), length_firstn, firstn_firstn.
  f_equal. lia.
Qed.

(** The two readings of the shortened form agree. *)
Lemma shortened_described (term : Node.jsstring) :
  Described.shortened term = Node.shortened term.
Proof.
  unfold Described.shortened, Node.shortened, Node.substring0.
  rewrite removelast_twice, length_firstn.
  destruct (Nat.ltb_spec (Nat.min (List.length term - 2) (List.length term))
                         3) as [Hlt | Hge]; f_equal; lia.
Qed.

Lemma node_add_terms_total (lowered : Node.jsstring) (ts : list Node.jsstring)
  (acc : Node.number) :
  fold_left (Node.add_term lowered) ts acc
  = fold_left PrimFloat.add (Described.contributions ts lowered) acc.
Proof.
  revert acc. induction ts as [|t ts IH]; intros acc; [reflexivity |].
  change (fold_left (Node.add_term lowered) (t :: ts) acc)
    with (fold_left (Node.add_term lowered) ts
                    (Node.add_term lowered acc t)).
  unfold Described.contributions. simpl flat_map.
  rewrite !fold_left_app. fold (Described.contributions ts lowered).
  rewrite IH. f_equal. unfold Node.add_term.
  rewrite shortened_described.
  destruct (Node.includes lowered t),
           (Node.includes lowered (Node.shortened t)); reflexivity.
Qed.

Section NodeFallback.

Variable toLowerCase : Node.jsstring -> Node.jsstring.

Lemma node_name_score_overlap (ts : list Node.jsstring)
  (problem : Node.jsstring) :
  Node.name_score ts (toLowerCase problem)
  = Described.overlap toLowerCase ts problem.
Proof.
  unfold Node.name_score, Described.overlap, Described.total.
  now rewrite node_add_terms_total.
Qed.

Variable this : Node.CodeforceModule.
Variable problems links : list Node.jsstring.
Variable queryTerms : list Node.jsstring.
Variable threshold : Node.number.

Let pushed (i : nat) : list Node.entry :=
  match Described.candidate toLowerCase queryTerms problems links
                            threshold i with
  | Some e => [e]
  | None => []
  end.

Lemma node_visit_round (acc : list Node.entry) (i : nat) :
  Node.problemUrls this = Some links ->
  i < List.length problems ->
  Node.visit toLowerCase this problems queryTerms threshold (Return acc) i
  = Return (acc ++ pushed i).
Proof.
  intros Hlinks Hi. unfold Node.visit, pushed, Described.candidate.
  destruct (nth_error problems i) as [rawName |] eqn:Hname;
    [| apply nth_error_None in Hname; lia].
  simpl. rewrite node_name_score_overlap. unfold Node.ge.
  destruct (PrimFloat.leb threshold
              (Described.overlap toLowerCase queryTerms rawName)).
  - rewrite Hlinks. reflexivity.
  - now rewrite app_nil_r.
Qed.

Lemma node_visit_loop (n a : nat) (acc : list Node.entry) :
  Node.problemUrls this = Some links ->
  a + n <= List.length problems ->
  fold_left (Node.visit toLowerCase this problems queryTerms threshold)
            (seq a n) (Return acc)
  = Return (acc ++ Described.kept_from toLowerCase queryTerms problems
                                       links threshold a n).
Proof.
  intros Hlinks. revert a acc.
  induction n as [|n IH]; intros a acc Han.
  - simpl. now rewrite app_nil_r.
  - change (fold_left
              (Node.visit toLowerCase this problems queryTerms threshold)
              (seq a (S n)) (Return acc))
      with (fold_left
              (Node.visit toLowerCase this problems queryTerms threshold)
              (seq (S a) n)
              (Node.visit toLowerCase this problems queryTerms threshold
                          (Return acc) a)).
    rewrite node_visit_round by (assumption || lia).
    rewrite IH by lia. rewrite <- app_assoc. f_equal. f_equal.
    unfold pushed. simpl.
    destruct (Described.candidate toLowerCase queryTerms problems links
                                  threshold a); reflexivity.
Qed.

(** Without a link array the first entry to push raises, and the loop
    then carries the exception to its end. *)
Lemma node_visit_thrown (l : list nat) (e : string) :
  fold_left (Node.visit toLowerCase this problems queryTerms threshold)
            l (Throw e)
  = Throw e.
Proof. induction l as [|i l IH]; [reflexivity | exact IH]. Qed.

Lemma node_kept_from_scores (n a : nat) :
  Forall (fun e => PrimFloat.is_nan (Node.entry_score e) = false)
         (Described.kept_from toLowerCase queryTerms problems links
                              threshold a n).
Proof.
  revert a. induction n as [|n IH]; intros a; simpl; [constructor |].
  destruct (Described.candidate toLowerCase queryTerms problems links
                                threshold a) as [e |] eqn:He;
    [| apply IH].
  constructor; [| apply IH].
  unfold Described.candidate in He.
  destruct (nth_error problems a) as [p |]; [| discriminate].
  destruct (PrimFloat.leb threshold
              (Described.overlap toLowerCase queryTerms p)) eqn:Hle;
    [| discriminate].
  injection He as <-. simpl.
  apply round3_not_nan. now apply leb_not_nan in Hle.
Qed.

End NodeFallback.

Lemma node_seq_sum (n : nat) : 0 + n <= n.
Proof. lia. Qed.

Lemma node_fallbackSearch_kept (toLowerCase : Node.jsstring -> Node.jsstring)
  (this : Node.CodeforceModule) (problems links : list Node.jsstring)
  (queryText : Node.jsstring) (threshold : Node.number) :
  Node.problemNames this = Some problems ->
  Node.problemUrls this = Some links ->
  Node.fallbackSearch toLowerCase this queryText threshold
  = Return
      (firstn 50
         (Node.Array_sort Node.by_entry_score
            (Described.kept toLowerCase
               (Described.terms (toLowerCase queryText))
               problems links threshold))).
Proof.
  intros Hnames Hlinks. unfold Node.fallbackSearch. rewrite Hnames.
  destruct (List.length problems =? 0) eqn:Hlen.
  - apply Nat.eqb_eq in Hlen. destruct problems; [reflexivity | discriminate].
  - fold (Described.terms (toLowerCase queryText)).
    rewrite (@node_visit_loop toLowerCase this problems links) by
      (assumption || apply node_seq_sum).
    reflexivity.
Qed.

Lemma node_top50_sorted (toLowerCase : Node.jsstring -> Node.jsstring)
  (ts problems links : list Node.jsstring) (threshold : Node.number) :
  Described.top50 Node.entry_score
    (Described.kept toLowerCase ts problems links threshold)
    (firstn 50
       (Node.Array_sort Node.by_entry_score
          (Described.kept toLowerCase ts problems links threshold))).
Proof.
  exists (Node.Array_sort Node.by_entry_score
            (Described.kept toLowerCase ts problems links threshold)).
  split; [apply node_sort_perm | split; [| reflexivity]].
  apply (@node_sort_sorted Node.entry Node.entry_score Node.by_entry_score);
    [reflexivity | apply node_kept_from_scores].
Qed.

(** No term: every score is [0 / 0]. *)
Lemma node_overlap_no_terms (toLowerCase : Node.jsstring -> Node.jsstring)
  (problem : Node.jsstring) :
  PrimFloat.is_nan (Described.overlap toLowerCase [] problem) = true.
Proof. reflexivity. Qed.

Lemma node_kept_no_terms (toLowerCase : Node.jsstring -> Node.jsstring)
  (problems links : list Node.jsstring) (threshold : Node.number) :
  Described.kept toLowerCase [] problems links threshold = [].
Proof.
  unfold Described.kept. generalize 0 as a.
  induction (List.length problems) as [|n IH]; intros a; [reflexivity |].
  simpl. unfold Described.candidate.
  destruct (nth_error problems a) as [p |]; [| apply IH].
  replace (PrimFloat.leb threshold (Described.overlap toLowerCase [] p))
    with false; [apply IH |].
  symmetry. apply (ge_NaN _ threshold (node_overlap_no_terms toLowerCase p)).
Qed.

Lemma node_query_steps (toLowerCase : Node.jsstring -> Node.jsstring)
  (tokenize : Node.jsstring -> option (list Node.jsstring))
  (stopword_eng : option (list Node.jsstring)) (disk : Node.Storage)
  (this : Node.CodeforceModule) (queryText : Node.value)
  (threshold : option Node.number) :
  Node.initialized this = true ->
  Node.query toLowerCase tokenize stopword_eng disk this queryText threshold
  = (Node.async_try
       (Node.settle
          (Node.answer toLowerCase tokenize stopword_eng this queryText
                       (Node.threshold_or_default threshold)))
       (fun _ => Node.Fulfilled []),
     this).
Proof. intros Hinit. unfold Node.query. rewrite Hinit. reflexivity. Qed.

(** The answer of [query] when the matrix is a placeholder. *)
Lemma node_query_on_placeholder :
  forall (toLowerCase : Node.jsstring -> Node.jsstring)
         (tokenize : Node.jsstring -> option (list Node.jsstring))
         (stopword_eng : option (list Node.jsstring))
         (disk : Node.Storage) (vec : option Node.TFIDFVectorizer)
         (m : Node.Matrix) (problems links : list Node.jsstring)
         (text : Node.jsstring) (threshold : option Node.number),
    toLowerCase [] = [] ->
    Node.rows m <= 1 -> Node.columns m <= 1 ->
    exists results : list Node.entry,
      fst (Node.query toLowerCase tokenize stopword_eng disk
             (Node.mkModule vec (Some m) (Some problems) (Some links) true)
             (Node.VString text) threshold)
      = Node.Fulfilled results
      /\ Described.top50 Node.entry_score
           (Described.kept toLowerCase
              (Described.terms (toLowerCase text)) problems links
              (Node.threshold_or_default threshold))
           results
      /\ List.length results <= 50.
Proof.
  intros toLowerCase tokenize stopword_eng disk vec m problems links text
         threshold Hempty Hrows Hcols.
  exists (firstn 50
            (Node.Array_sort Node.by_entry_score
               (Described.kept toLowerCase
                  (Described.terms (toLowerCase text)) problems links
                  (Node.threshold_or_default threshold)))).
  split; [| split; [apply node_top50_sorted | apply firstn_le_length]].
  rewrite node_query_steps by reflexivity. simpl fst. unfold Node.answer.
  destruct (Node.jsstring_eqb text []) eqn:Htext.
  - unfold Node.jsstring_eqb in Htext.
    destruct (list_eq_dec N.eq_dec text []) as [-> |]; [| discriminate].
    rewrite Hempty.
    change (Described.terms []) with (@nil Node.jsstring).
    now rewrite node_kept_no_terms.
  - simpl. apply Nat.leb_le in Hrows, Hcols. rewrite Hrows, Hcols. simpl.
    rewrite (@node_fallbackSearch_kept _ _ problems links) by reflexivity.
    reflexivity.
Qed.

(* ================================================================= *)
(** * The first query of a module *)

Section FirstQuery.

Variable toLowerCase : Node.jsstring -> Node.jsstring.
Variable tokenize : Node.jsstring -> option (list Node.jsstring).
Variable stopword_eng : option (list Node.jsstring).

(** The arrays of [readProblemData] grow by one element per row. *)
Lemma node_push_rows (records : list Node.Row) (acc : Node.ProblemData) :
  Node.names (fold_left Node.push_row records acc)
  = Node.names acc
    ++ map (fun row =>
              Node.or_string (Node.field row (Node.js "Name"))
                (Node.or_string (Node.field row (Node.js "name")) []))
           records
  /\ Node.urls (fold_left Node.push_row records acc)
     = Node.urls acc
       ++ map (fun row =>
                 Node.or_string (Node.field row (Node.js "URL"))
                   (Node.or_string (Node.field row (Node.js "url"))
                      (Node.or_string (Node.field row (Node.js "Url")) [])))
              records.
Proof.
  revert acc. induction records as [| row records IH]; intros acc.
  - simpl. now rewrite !app_nil_r.
  - change (fold_left Node.push_row (row :: records) acc)
      with (fold_left Node.push_row records (Node.push_row acc row)).
    destruct (IH (Node.push_row acc row)) as [Hnames Hurls].
    rewrite Hnames, Hurls. unfold Node.push_row.
    cbn [Node.names Node.urls map]. now rewrite <- !app_assoc.
Qed.

(** A module that is not initialised loads on its first query: when the
    directory is complete and [problem.csv] parses, the module holds the
    vectorizer, the matrix and the two columns, and the query is answered
    by the loaded module. *)
Lemma node_query_loads (v : Node.TFIDFVectorizer) (m : Node.Matrix)
  (records : list Node.Row) (queryText : Node.value)
  (threshold : option Node.number) (disk : Node.Storage) :
  let problems :=
    map (fun row =>
           Node.or_string (Node.field row (Node.js "Name"))
             (Node.or_string (Node.field row (Node.js "name")) []))
        records in
  let links :=
    map (fun row =>
           Node.or_string (Node.field row (Node.js "URL"))
             (Node.or_string (Node.field row (Node.js "url"))
                (Node.or_string (Node.field row (Node.js "Url")) [])))
        records in
  let loaded :=
    Node.mkModule (Some v) (Some m) (Some problems) (Some links) true in
  Node.query toLowerCase tokenize stopword_eng
    (Node.mkStorage (Return true) (Return (v, m))
       (Node.mkCsvFile true (Node.Parsed records)))
    Node.new_CodeforceModule queryText threshold
  = (fst (Node.query toLowerCase tokenize stopword_eng disk loaded queryText
                     threshold),
     loaded).
Proof.
  intros problems links loaded.
  unfold Node.query, Node.initialize, Node.readProblemData, Node.readCSV.
  cbn [Node.initialized Node.new_CodeforceModule Node.checkPlatformData
       Node.loadPlatformData Node.problem_csv Node.existsSync
       Node.createReadStream negb Node.await Node.async_try
       Node.vectorizer Node.tfidfMatrix Node.problemNames
       Node.problemUrls loaded fst].
  destruct (node_push_rows records
              (Node.mkProblemData [] [] [] [] [] (List.length records)))
    as [Hnames Hurls].
  cbn [Node.names Node.urls app] in Hnames, Hurls.
  rewrite Hnames, Hurls. reflexivity.
Qed.

Lemma node_first_query :
  forall (v : Node.TFIDFVectorizer) (m : Node.Matrix)
         (records : list Node.Row) (text : Node.jsstring)
         (threshold : option Node.number),
    toLowerCase [] = [] ->
    Node.rows m <= 1 -> Node.columns m <= 1 ->
    let problems :=
      map (fun row =>
             Node.or_string (Node.field row (Node.js "Name"))
               (Node.or_string (Node.field row (Node.js "name")) []))
          records in
    let links :=
      map (fun row =>
             Node.or_string (Node.field row (Node.js "URL"))
               (Node.or_string (Node.field row (Node.js "url"))
                  (Node.or_string (Node.field row (Node.js "Url")) [])))
          records in
    exists results : list Node.entry,
      Node.query toLowerCase tokenize stopword_eng
        (Node.mkStorage (Return true) (Return (v, m))
           (Node.mkCsvFile true (Node.Parsed records)))
        Node.new_CodeforceModule (Node.VString text) threshold
      = (Node.Fulfilled results,
         Node.mkModule (Some v) (Some m) (Some problems) (Some links) true)
      /\ Described.top50 Node.entry_score
           (Described.kept toLowerCase
              (Described.terms (toLowerCase text)) problems links
              (Node.threshold_or_default threshold))
           results
      /\ List.length results <= 50.
Proof.
  intros v m records text threshold Hempty Hrows Hcols problems links.
  destruct (@node_query_on_placeholder toLowerCase tokenize stopword_eng
              Sample.no_storage (Some v) m problems links text threshold
              Hempty Hrows Hcols)
    as (results & Hquery & Htop & Hlen).
  exists results. split; [| split; assumption].
  rewrite (node_query_loads v m records (Node.VString text) threshold
             Sample.no_storage).
  fold problems links. now rewrite Hquery.
Qed.

End FirstQuery.

(** X17.  The first query of a new module whose data directory is
    complete, with a matrix of at most one row and one column (as the
    placeholder that stands for a matrix file too large to load) and a
    [problem.csv] that parses: the module is initialised with the
    vectorizer, the matrix, and the names and URLs of the rows (column
    [Name] or [name], column [URL], [url] or [Url], the empty string when
    none is filled), and the query string is answered by the fallback
    search over those names: the entries whose score reaches the
    threshold, by decreasing rounded score, 50 at most. *)
Theorem query_first_call_fallback :
  forall (toLowerCase : Node.jsstring -> Node.jsstring)
         (tokenize : Node.jsstring -> option (list Node.jsstring))
         (stopword_eng : option (list Node.jsstring))
         (v : Node.TFIDFVectorizer) (m : Node.Matrix)
         (records : list Node.Row) (text : Node.jsstring)
         (threshold : option Node.number),
    toLowerCase [] = [] ->
    Node.rows m <= 1 -> Node.columns m <= 1 ->
    let problems :=
      map (fun row =>
             Node.or_string (Node.field row (Node.js "Name"))
               (Node.or_string (Node.field row (Node.js "name")) []))
          records in
    let links :=
      map (fun row =>
             Node.or_string (Node.field row (Node.js "URL"))
               (Node.or_string (Node.field row (Node.js "url"))
                  (Node.or_string (Node.field row (Node.js "Url")) [])))
          records in
    exists results : list Node.entry,
      Node.query toLowerCase tokenize stopword_eng
        (Node.mkStorage (Return true) (Return (v, m))
           (Node.mkCsvFile true (Node.Parsed records)))
        Node.new_CodeforceModule (Node.VString text) threshold
      = (Node.Fulfilled results,
         Node.mkModule (Some v) (Some m) (Some problems) (Some links) true)
      /\ Described.top50 Node.entry_score
           (Described.kept toLowerCase
              (Described.terms (toLowerCase text)) problems links
              (Node.threshold_or_default threshold))
           results
      /\ List.length results <= 50.
Proof. exact node_first_query. Qed.

Lemma query_first_call_fallback_witness :
  Node.query Sample.toLowerCase Sample.tokenize Sample.stopword_eng
    (Sample.placeholder_directory Sample.small_vectorizer)
    Node.new_CodeforceModule (Node.VString (Node.js "binary search")) None
  = (Node.Fulfilled Sample.binary_search_results,
     Node.mkModule (Some Sample.small_vectorizer) (Some Node.placeholder)
       (Some [Node.js "Binary Lifting"; Node.js "Graph Coloring";
              Node.js "Binary Search Tree"])
       (Some [Node.js "https://codeforces.com/1";
              Node.js "https://codeforces.com/2";
              Node.js "https://codeforces.com/3"])
       true)
  /\ Described.top50 Node.entry_score
       (Described.kept Sample.toLowerCase
          (Described.terms (Sample.toLowerCase (Node.js "binary search")))
          [Node.js "Binary Lifting"; Node.js "Graph Coloring";
           Node.js "Binary Search Tree"]
          [Node.js "https://codeforces.com/1";
           Node.js "https://codeforces.com/2";
           Node.js "https://codeforces.com/3"]
          Node.default_threshold)
       Sample.binary_search_results.
Proof.
  pose proof (query_first_call_fallback Sample.toLowerCase Sample.tokenize
                Sample.stopword_eng Sample.small_vectorizer Node.placeholder
                Sample.three_rows (Node.js "binary search") None
                eq_refl (le_n 1) (le_n 1)) as Hfirst.
  cbv zeta in Hfirst. destruct Hfirst as (results & Hquery & Htop & _).
  assert (Hresults : Node.Fulfilled results
                     = Node.Fulfilled Sample.binary_search_results).
  { apply (f_equal fst) in Hquery. simpl fst in Hquery.
    rewrite <- Hquery. vm_compute. reflexivity. }
  injection Hresults as ->. split; [exact Hquery | exact Htop].
Defined.

(** C1, as the code has it.  When the loaded matrix has at most one row
    and one column, as the 1x1 placeholder has, [query] on a string uses
    no vectorizer.  It lowercases the query and takes its
    whitespace-separated terms of more than two characters; each problem
    name, lowercased, gets 0.5 for every term that occurs in it and 0.2
    for every term whose shortened form occurs in it, added term by term
    in double arithmetic and divided by the number of terms; the entries
    whose score reaches the threshold are kept, each with its score
    rounded to three decimals, ordered by decreasing rounded score, and
    the first 50 at most are returned.  ([toLowerCase] is the conversion
    of the engine; of it only [toLowerCase "" = ""] is used.) *)
Theorem query_fallback :
  forall (toLowerCase : Node.jsstring -> Node.jsstring)
         (tokenize : Node.jsstring -> option (list Node.jsstring))
         (stopword_eng : option (list Node.jsstring))
         (disk : Node.Storage) (vec : option Node.TFIDFVectorizer)
         (m : Node.Matrix) (problems links : list Node.jsstring)
         (text : Node.jsstring) (threshold : option Node.number),
    toLowerCase [] = [] ->
    Node.rows m <= 1 -> Node.columns m <= 1 ->
    exists results : list Node.entry,
      fst (Node.query toLowerCase tokenize stopword_eng disk
             (Node.mkModule vec (Some m) (Some problems) (Some links) true)
             (Node.VString text) threshold)
      = Node.Fulfilled results
      /\ Described.top50 Node.entry_score
           (Described.kept toLowerCase
              (Described.terms (toLowerCase text)) problems links
              (Node.threshold_or_default threshold))
           results
      /\ List.length results <= 50.
Proof. exact node_query_on_placeholder. Qed.

Lemma query_fallback_witness :
  fst (Node.query Sample.toLowerCase Sample.tokenize Sample.stopword_eng
         Sample.no_storage Sample.three_problems
         (Node.VString (Node.js "binary search")) None)
  = Node.Fulfilled Sample.binary_search_results
  /\ Described.top50 Node.entry_score
       (Described.kept Sample.toLowerCase
          (Described.terms (Sample.toLowerCase (Node.js "binary search")))
          [Node.js "Binary Lifting"; Node.js "Graph Coloring";
           Node.js "Binary Search Tree"]
          [Node.js "https://codeforces.com/1";
           Node.js "https://codeforces.com/2";
           Node.js "https://codeforces.com/3"]
          Node.default_threshold)
       Sample.binary_search_results.
Proof.
  destruct (query_fallback Sample.toLowerCase Sample.tokenize
              Sample.stopword_eng Sample.no_storage None Node.placeholder
              [Node.js "Binary Lifting"; Node.js "Graph Coloring";
               Node.js "Binary Search Tree"]
              [Node.js "https://codeforces.com/1";
               Node.js "https://codeforces.com/2";
               Node.js "https://codeforces.com/3"]
              (Node.js "binary search") None eq_refl (le_n 1) (le_n 1))
    as (results & Hquery & Htop & _).
  assert (Hresults : Node.Fulfilled results
                     = Node.Fulfilled Sample.binary_search_results).
  { rewrite <- Hquery. vm_compute. reflexivity. }
  injection Hresults as ->. split; [exact Hquery | exact Htop].
Defined.

Lemma firstn_short (A : Type) (l : list A) (n : nat) :
  List.length l <= n -> firstn n l = l.
Proof. apply firstn_all2. Qed.

(** The description without the lowercasing of the query, and with the
    order taken by the score before it is rounded, fails twice.  The
    query [Binary] has no term that occurs in the lowercased name
    [binary search], yet the code returns that problem.  And for the
    250 terms of [Sample.long_query] the two problems score 2.7 / 250 and
    2.8 / 250: both carry 0.011, and the code returns them in the order
    of the problems, the lower score first. *)
Lemma query_fallback_counterexample :
  ~ (exists results : list Node.entry,
        fst (Node.query Sample.toLowerCase Sample.tokenize
               Sample.stopword_eng Sample.no_storage Sample.one_problem
               (Node.VString (Node.js "Binary")) None)
        = Node.Fulfilled results
        /\ Described.top50
             (Described.score_of Sample.toLowerCase
                (Described.terms (Node.js "Binary"))
                [Node.js "Binary Search"])
             (Described.kept Sample.toLowerCase
                (Described.terms (Node.js "Binary"))
                [Node.js "Binary Search"]
                [Node.js "https://codeforces.com/1"]
                Node.default_threshold)
             results)
  /\ ~ (exists results : list Node.entry,
          fst (Node.query Sample.toLowerCase Sample.tokenize
                 Sample.stopword_eng Sample.no_storage
                 Sample.close_problems
                 (Node.VString Sample.long_query) None)
          = Node.Fulfilled results
          /\ Described.top50
               (Described.score_of Sample.toLowerCase
                  (Described.terms Sample.long_query)
                  [Node.js "aaa bbb ccc ddd eee fff";
                   Node.js "ggg hhh iii jjj"])
               (Described.kept Sample.toLowerCase
                  (Described.terms Sample.long_query)
                  [Node.js "aaa bbb ccc ddd eee fff";
                   Node.js "ggg hhh iii jjj"]
                  [Node.js "https://codeforces.com/1";
                   Node.js "https://codeforces.com/2"]
                  Node.default_threshold)
               results).
Proof.
  split.
  - intros (results & Hq & ranked & Hperm & _ & Hres).
    (* as described, without the lowercasing: no entry *)
    assert (Hkept : Described.kept Sample.toLowerCase
                      (Described.terms (Node.js "Binary"))
                      [Node.js "Binary Search"]
                      [Node.js "https://codeforces.com/1"]
                      Node.default_threshold = [])
      by (vm_compute; reflexivity).
    rewrite Hkept in Hperm.
    apply Permutation_sym, Permutation_nil in Hperm. subst ranked.
    (* as computed: one entry *)
    vm_compute in Hq. rewrite Hres in Hq. discriminate Hq.
  - intros (results & Hq & ranked & Hperm & Hsorted & Hres).
    apply Permutation_length in Hperm.
    assert (Hlen : List.length
                     (Described.kept Sample.toLowerCase
                        (Described.terms Sample.long_query)
                        [Node.js "aaa bbb ccc ddd eee fff";
                         Node.js "ggg hhh iii jjj"]
                        [Node.js "https://codeforces.com/1";
                         Node.js "https://codeforces.com/2"]
                        Node.default_threshold) = 2)
      by (vm_compute; reflexivity).
    rewrite Hlen in Hperm.
    rewrite firstn_short in Hres by lia. subst ranked.
    destruct results as [|first [|second rest]]; try discriminate Hperm.
    inversion Hsorted as [|? ? _ Hfirst]; subst.
    inversion Hfirst as [|? ? Habove _]; subst.
    (* the code lists problem 0 before problem 1 ... *)
    assert (Hfst : Node.entry_index first = Some 0
                   /\ Node.entry_index second = Some 1).
    { vm_compute in Hq. injection Hq as <- <- _. now split. }
    destruct Hfst as [H0 H1].
    (* ... whose score before the rounding is the higher one *)
    unfold Described.score_of in Habove. rewrite H0, H1 in Habove.
    vm_compute in Habove. discriminate Habove.
Qed.

Section NodeShortTerms.

Variable toLowerCase : Node.jsstring -> Node.jsstring.
Variable this : Node.CodeforceModule.
Variable problems : list Node.jsstring.
Variable threshold : Node.number.

Lemma node_name_score_no_terms (problemName : Node.jsstring) :
  PrimFloat.is_nan (Node.name_score [] problemName) = true.
Proof. reflexivity. Qed.

Lemma node_visit_loop_no_pass (l : list nat) :
  Forall (fun i => i < List.length problems) l ->
  fold_left (Node.visit toLowerCase this problems [] threshold) l
            (Return [])
  = Return [].
Proof.
  intros Hl. induction Hl as [|i l Hi Hl IH]; [reflexivity |].
  change (fold_left (Node.visit toLowerCase this problems [] threshold)
                    (i :: l) (Return []))
    with (fold_left (Node.visit toLowerCase this problems [] threshold) l
            (Node.visit toLowerCase this problems [] threshold
                        (Return []) i)).
  replace (Node.visit toLowerCase this problems [] threshold (Return []) i)
    with (@Return (list Node.entry) []); [exact IH |].
  unfold Node.visit. simpl.
  destruct (nth_error problems i) as [rawName |] eqn:Hname;
    [| apply nth_error_None in Hname; lia].
  simpl.
  now rewrite (ge_NaN _ threshold
                 (node_name_score_no_terms (toLowerCase rawName))).
Qed.

End NodeShortTerms.

Lemma node_terms_short (q : Node.jsstring) :
  Forall (fun term => List.length term <= 2) (Node.split_ws q) ->
  Described.terms q = [].
Proof.
  intros H. unfold Described.terms.
  induction H as [|t l Ht Hl IH]; simpl; [reflexivity |].
  replace (2 <? List.length t) with false
    by (symmetry; apply Nat.ltb_ge, Ht).
  exact IH.
Qed.

Lemma node_fallbackSearch_no_terms
  (toLowerCase : Node.jsstring -> Node.jsstring)
  (this : Node.CodeforceModule) (queryText : Node.jsstring)
  (threshold : Node.number) :
  Forall (fun term => List.length term <= 2)
         (Node.split_ws (toLowerCase queryText)) ->
  Node.fallbackSearch toLowerCase this queryText threshold = Return []
  /\ (forall problemName,
        PrimFloat.is_nan
          (Node.name_score (Described.terms (toLowerCase queryText))
                           problemName) = true)
  /\ (forall score,
        PrimFloat.is_nan score = true -> Node.ge score threshold = false).
Proof.
  intros Hshort.
  pose proof (node_terms_short _ Hshort) as Hterms.
  split; [| split; [intros p; rewrite Hterms; reflexivity
                   | intros s Hs; apply ge_NaN, Hs]].
  unfold Node.fallbackSearch.
  destruct (Node.problemNames this) as [problems |]; [| reflexivity].
  destruct (List.length problems =? 0); [reflexivity |].
  fold (Described.terms (toLowerCase queryText)). rewrite Hterms.
  rewrite node_visit_loop_no_pass; [reflexivity |].
  apply Forall_forall. intros i Hi. apply in_seq in Hi. lia.
Qed.

(** C10, as the code has it.  When every whitespace-separated piece of
    the lowercased query has at most two characters, no term is left,
    every problem scores [0 / 0], which is NaN and reaches no threshold,
    and [fallbackSearch] returns the empty list, whatever the problems
    are. *)
Theorem fallbackSearch_short_terms :
  forall (toLowerCase : Node.jsstring -> Node.jsstring)
         (this : Node.CodeforceModule) (queryText : Node.jsstring)
         (threshold : Node.number),
    Forall (fun term => List.length term <= 2)
           (Node.split_ws (toLowerCase queryText)) ->
    Node.fallbackSearch toLowerCase this queryText threshold = Return []
    /\ (forall problemName,
          PrimFloat.is_nan
            (Node.name_score (Described.terms (toLowerCase queryText))
                             problemName) = true)
    /\ (forall score,
          PrimFloat.is_nan score = true -> Node.ge score threshold = false).
Proof. exact node_fallbackSearch_no_terms. Qed.

Lemma fallbackSearch_short_terms_witness :
  Node.fallbackSearch Sample.toLowerCase Sample.two_problems
                      (Node.js "DP on a 2d") Node.default_threshold
  = Return [].
Proof.
  apply (fallbackSearch_short_terms Sample.toLowerCase Sample.two_problems
           (Node.js "DP on a 2d") Node.default_threshold).
  vm_compute. repeat constructor.
Defined.

(** The length has to be taken after the lowercasing: the query of two
    dotted capital I has one piece of two characters, but lowercases to
    four code units, a term that the problem name contains. *)
Lemma fallbackSearch_short_terms_counterexample :
  Forall (fun term => List.length term <= 2)
         (Node.split_ws Sample.dotted_query)
  /\ Node.fallbackSearch Sample.toLowerCase Sample.dotted_problem
                         Sample.dotted_query Node.default_threshold
     <> Return [].
Proof.
  split; [vm_compute; repeat constructor |].
  vm_compute. discriminate.
Qed.

(* ================================================================= *)
(** * [query] and the errors it meets *)

Lemma node_query_not_rejected
  (toLowerCase : Node.jsstring -> Node.jsstring)
  (tokenize : Node.jsstring -> option (list Node.jsstring))
  (stopword_eng : option (list Node.jsstring)) (disk : Node.Storage)
  (this : Node.CodeforceModule) (queryText : Node.value)
  (threshold : option Node.number) (e : string) :
  fst (Node.query toLowerCase tokenize stopword_eng disk this queryText
                  threshold)
  <> Node.Rejected e.
Proof.
  unfold Node.query.
  destruct (if Node.initialized this then (Node.Fulfilled tt, this)
            else Node.initialize disk this) as [ready this'].
  simpl fst. destruct ready as [[] | e' | e']; simpl; try discriminate.
  destruct (Node.answer _ _ _ _ _ _); discriminate.
Qed.

Lemma node_query_unsettled
  (toLowerCase : Node.jsstring -> Node.jsstring)
  (tokenize : Node.jsstring -> option (list Node.jsstring))
  (stopword_eng : option (list Node.jsstring)) (disk : Node.Storage)
  (this : Node.CodeforceModule) (queryText : Node.value)
  (threshold : option Node.number) (e : string) :
  fst (Node.query toLowerCase tokenize stopword_eng disk this queryText
                  threshold)
  = Node.Unsettled e
  <-> Node.initialized this = false
      /\ Node.checkPlatformData disk = Return true
      /\ (exists loaded, Node.loadPlatformData disk = Return loaded)
      /\ Node.existsSync (Node.problem_csv disk) = true
      /\ Node.createReadStream (Node.problem_csv disk) = Node.ReadError e.
Proof.
  unfold Node.query, Node.initialize.
  destruct (Node.initialized this) eqn:Hinit.
  - simpl. split.
    + destruct (Node.answer _ _ _ _ _ _); discriminate.
    + intros [H _]. discriminate H.
  - destruct (Node.checkPlatformData disk) as [[] | e1]; simpl;
      try (split; [discriminate | intros (_ & H & _); discriminate H]).
    destruct (Node.loadPlatformData disk) as [[v m] | e2]; simpl;
      try (split; [discriminate
                  | intros (_ & _ & [loaded H] & _); discriminate H]).
    unfold Node.readProblemData, Node.readCSV.
    destruct (Node.existsSync (Node.problem_csv disk)); simpl;
      try (split; [discriminate
                  | intros (_ & _ & _ & H & _); discriminate H]).
    destruct (Node.createReadStream (Node.problem_csv disk))
      as [records | e3 | e3]; simpl.
    + split; [| intros (_ & _ & _ & _ & H); discriminate H].
      destruct (Node.answer _ _ _ _ _ _); discriminate.
    + split; [discriminate | intros (_ & _ & _ & _ & H); discriminate H].
    + split.
      * intros H. injection H as ->. repeat split; eauto.
      * intros (_ & _ & _ & _ & H). injection H as ->. reflexivity.
Qed.

(** An argument that is no string, or the empty string, is answered
    by the empty list. *)
Lemma node_query_no_text
  (toLowerCase : Node.jsstring -> Node.jsstring)
  (tokenize : Node.jsstring -> option (list Node.jsstring))
  (stopword_eng : option (list Node.jsstring)) (disk : Node.Storage)
  (this : Node.CodeforceModule) (queryText : Node.value)
  (threshold : option Node.number) (results : list Node.entry) :
  fst (Node.query toLowerCase tokenize stopword_eng disk this queryText
                  threshold)
  = Node.Fulfilled results ->
  (forall text, queryText = Node.VString text -> text = []) ->
  results = [].
Proof.
  unfold Node.query.
  destruct (if Node.initialized this then (Node.Fulfilled tt, this)
            else Node.initialize disk this) as [ready this'].
  simpl fst. intros Hquery Htext.
  destruct ready as [[] | e | e]; simpl in Hquery;
    [| now injection Hquery | discriminate Hquery].
  assert (Hanswer : Node.answer toLowerCase tokenize stopword_eng this'
                      queryText (Node.threshold_or_default threshold)
                    = Return []).
  { destruct queryText as [| | b | n | text |]; try reflexivity.
    rewrite (Htext text eq_refl). reflexivity. }
  rewrite Hanswer in Hquery. simpl in Hquery. now injection Hquery.
Qed.

(** A query that leaves the module uninitialised has failed to load the
    data: if it answers, it answers the empty list. *)
Lemma node_query_not_loaded
  (toLowerCase : Node.jsstring -> Node.jsstring)
  (tokenize : Node.jsstring -> option (list Node.jsstring))
  (stopword_eng : option (list Node.jsstring)) (disk : Node.Storage)
  (this : Node.CodeforceModule) (queryText : Node.value)
  (threshold : option Node.number) (results : list Node.entry) :
  fst (Node.query toLowerCase tokenize stopword_eng disk this queryText
                  threshold)
  = Node.Fulfilled results ->
  Node.initialized
    (snd (Node.query toLowerCase tokenize stopword_eng disk this queryText
                     threshold))
  = false ->
  results = [].
Proof.
  unfold Node.query, Node.initialize.
  destruct (Node.initialized this) eqn:Hinit.
  - simpl. intros _ H. congruence.
  - destruct (Node.checkPlatformData disk) as [[] | e1]; simpl;
      try (intros H _; now injection H).
    destruct (Node.loadPlatformData disk) as [[v m] | e2]; simpl;
      try (intros H _; now injection H).
    destruct (Node.readProblemData (Node.problem_csv disk))
      as [problemData | e3 | e3]; simpl.
    + intros _ H. discriminate H.
    + intros H _. now injection H.
    + intros H _. discriminate H.
Qed.

(** C6, where the code departs from it.  [readCSV] listens for [error] on
    the parser only.  When [problem.csv] exists and the two JSON files
    load, but the file stream of [problem.csv] fails, the first [query]
    of a new module is left unsettled by the uncaught error, for every
    query text and threshold: it does not return the empty list.  This
    is the only way in which [query] fails to answer: its promise is
    never rejected, and it is unsettled exactly in that case.  Whenever
    it answers, the answer is the empty list for an argument that is no
    string or is the empty string, and when the data could not be
    loaded. *)
Theorem query_read_error_unsettled :
  forall (toLowerCase : Node.jsstring -> Node.jsstring)
         (tokenize : Node.jsstring -> option (list Node.jsstring))
         (stopword_eng : option (list Node.jsstring)),
    (forall (v : Node.TFIDFVectorizer) (m : Node.Matrix) (error : string)
            (queryText : Node.value) (threshold : option Node.number),
        fst (Node.query toLowerCase tokenize stopword_eng
               (Node.mkStorage (Return true) (Return (v, m))
                               (Node.mkCsvFile true (Node.ReadError error)))
               Node.new_CodeforceModule queryText threshold)
        = Node.Unsettled error)
    /\ (forall (disk : Node.Storage) (this : Node.CodeforceModule)
               (queryText : Node.value) (threshold : option Node.number)
               (e : string),
          fst (Node.query toLowerCase tokenize stopword_eng disk this
                          queryText threshold)
          <> Node.Rejected e)
    /\ (forall (disk : Node.Storage) (this : Node.CodeforceModule)
               (queryText : Node.value) (threshold : option Node.number)
               (e : string),
          fst (Node.query toLowerCase tokenize stopword_eng disk this
                          queryText threshold)
          = Node.Unsettled e
          <-> Node.initialized this = false
              /\ Node.checkPlatformData disk = Return true
              /\ (exists loaded, Node.loadPlatformData disk = Return loaded)
              /\ Node.existsSync (Node.problem_csv disk) = true
              /\ Node.createReadStream (Node.problem_csv disk)
                 = Node.ReadError e)
    /\ (forall (disk : Node.Storage) (this : Node.CodeforceModule)
               (queryText : Node.value) (threshold : option Node.number)
               (results : list Node.entry),
          fst (Node.query toLowerCase tokenize stopword_eng disk this
                          queryText threshold)
          = Node.Fulfilled results ->
          ((forall text, queryText = Node.VString text -> text = [])
           \/ Node.initialized
                (snd (Node.query toLowerCase tokenize stopword_eng disk
                                 this queryText threshold))
              = false) ->
          results = []).
Proof.
  intros toLowerCase tokenize stopword_eng.
  split; [reflexivity | split; [| split]].
  - apply node_query_not_rejected.
  - apply node_query_unsettled.
  - intros disk this queryText threshold results Hquery [Htext | Hinit].
    + eapply node_query_no_text; eassumption.
    + eapply node_query_not_loaded; eassumption.
Qed.

Lemma query_read_error_unsettled_witness :
  fst (Node.query Sample.toLowerCase Sample.tokenize Sample.stopword_eng
         (Sample.csv_is_directory Sample.small_vectorizer
                                  Sample.small_matrix)
         Node.new_CodeforceModule
         (Node.VString (Node.js "binary search")) None)
  = Node.Unsettled "EISDIR: illegal operation on a directory, read".
Proof.
  apply (proj1 (query_read_error_unsettled Sample.toLowerCase
                  Sample.tokenize Sample.stopword_eng)).
Defined.

(* ================================================================= *)
(** * [cosineSimilarity] on doubles *)

(** C3, where the code departs from it.  In double arithmetic
    [cosineSimilarity] of the vector [[0.1, 0.7]] with itself is
    [1.0000000000000002], above 1; of [[1e200, 0]] with itself it is NaN,
    the squares having overflowed; and of [[1e-200, 0]] with itself it is
    0, the squares having underflowed to a zero norm. *)
Theorem cosineSimilarity_out_of_range :
  (exists c : Node.number,
      Node.cosineSimilarity Sample.slanted Sample.slanted = Return c
      /\ PrimFloat.ltb PrimFloat.one c = true)
  /\ (exists c : Node.number,
        Node.cosineSimilarity Sample.huge Sample.huge = Return c
        /\ PrimFloat.is_nan c = true)
  /\ Node.cosineSimilarity Sample.tiny Sample.tiny = Return PrimFloat.zero.
Proof.
  split; [| split].
  - eexists. split; [vm_compute; reflexivity | vm_compute; reflexivity].
  - eexists. split; [vm_compute; reflexivity | vm_compute; reflexivity].
  - vm_compute. reflexivity.
Qed.


(* ================================================================= *)
(** * Worked examples on doubles *)

Section DoubleExamples.

Import PrimFloat.

Example Math_round_halves :
  map Node.Math_round
      [2.5; -2.5; 0.5; -0.5; 0.49999999999999994; 112.49999999999999;
       4503599627370495.5]%float
  = [3; -2; 1; -0; 0; 112; 4503599627370496]%float.
Proof. vm_compute. reflexivity. Qed.

(** The sum [0.5 + 0.2 + 0.2] is [0.8999999999999999] in doubles: its
    half is below 0.45, and an eighth of it rounds to 0.112. *)
Example contributions_rounded :
  Described.total [0.5; 0.2; 0.2]%float = 0.8999999999999999%float
  /\ Node.ge (Described.total [0.5; 0.2; 0.2] / 2)%float 0.45%float = false
  /\ Node.round3 (Described.total [0.5; 0.2; 0.2] / 8)%float = 0.112%float.
Proof. vm_compute. repeat split. Qed.

(** The query [binary searchxx] gives [Binary Search] that sum over two
    terms: at the threshold 0.45 the problem is not returned. *)
Example fallback_below_threshold :
  Node.fallbackSearch Sample.toLowerCase Sample.one_problem
                      (Node.js "binary searchxx") 0.45%float
  = Return [].
Proof. vm_compute. reflexivity. Qed.

Example getTopSimilar_of_doubles :
  Node.getTopSimilar [0.1; 0.9; 0.005; nan; 0.5]%float 2 0.01%float
  = [Node.mkItem 1 0.9%float; Node.mkItem 4 0.5%float].
Proof. vm_compute. reflexivity. Qed.

End DoubleExamples.
